(** * Backtesting engine and metrics calculator: a shallow embedding

    Embeds [backtester/backtest.py] (class [Backtester]) and
    [backtester/metrics.py] and proves properties of the simulation loop,
    the order fills, the forced close and the derived statistics.  The last
    parts add [Strategy.position_size] and the signal generator of
    [strategies/simple_rsi.py] with the [rsi] of [indicators.py].

    Numbers.  Python and numpy floats are IEEE doubles.  They are embedded
    as exact rationals extended with the three special values that the code
    itself produces or tests for ([np.inf], and the NaN of an undefined
    sample statistic or of a division by zero): finite arithmetic is exact
    (no rounding, no overflow, no signed zero).  The state of the engine
    (cash, prices) holds finite values and is kept in [Q]; everything that
    goes through pandas or numpy is an [xfloat].

    Effects.  The methods of [Backtester] mutate the object and may raise;
    they are embedded in a state-and-exception monad over the record of the
    object's attributes.  A raised exception leaves the attributes as they
    were when it was raised, as in Python. *)

From Stdlib Require Import ZArith QArith Qround Qabs List Bool Sorted Lia Lqa.
Import ListNotations.
Open Scope Q_scope.

(* ================================================================= *)
(** ** Extended floats *)

Inductive xfloat : Type :=
| Fin (q : Q)
| PInf
| NInf
| NaN.

Definition Qltb (a b : Q) : bool := negb (Qle_bool b a).

Definition is_nan (x : xfloat) : bool :=
  match x with NaN => true | _ => false end.

Definition xopp (x : xfloat) : xfloat :=
  match x with
  | Fin q => Fin (- q)
  | PInf => NInf
  | NInf => PInf
  | NaN => NaN
  end.

Definition xadd (a b : xfloat) : xfloat :=
  match a, b with
  | NaN, _ | _, NaN => NaN
  | Fin x, Fin y => Fin (x + y)
  | PInf, NInf | NInf, PInf => NaN
  | PInf, _ | _, PInf => PInf
  | NInf, _ | _, NInf => NInf
  end.

Definition xsub (a b : xfloat) : xfloat :=
  match a, b with
  | Fin x, Fin y => Fin (x - y)
  | _, _ => xadd a (xopp b)
  end.

(** Sign of the product of an infinity (positive when [pos]) with a finite
    factor [x]; [0 * inf] is NaN. *)
Definition inf_times (pos : bool) (x : Q) : xfloat :=
  match x ?= 0 with
  | Gt => if pos then PInf else NInf
  | Lt => if pos then NInf else PInf
  | Eq => NaN
  end.

Definition xmul (a b : xfloat) : xfloat :=
  match a, b with
  | NaN, _ | _, NaN => NaN
  | Fin x, Fin y => Fin (x * y)
  | Fin x, PInf | PInf, Fin x => inf_times true x
  | Fin x, NInf | NInf, Fin x => inf_times false x
  | PInf, PInf | NInf, NInf => PInf
  | PInf, NInf | NInf, PInf => NInf
  end.

(** numpy division: a zero divisor gives an infinity or NaN (and a
    warning), never an exception. *)
Definition xdiv (a b : xfloat) : xfloat :=
  match a, b with
  | NaN, _ | _, NaN => NaN
  | Fin x, Fin y =>
      if Qeq_bool y 0 then
        match x ?= 0 with
        | Gt => PInf
        | Lt => NInf
        | Eq => NaN
        end
      else Fin (x / y)
  | Fin _, PInf | Fin _, NInf => Fin 0
  | PInf, Fin y => if Qltb y 0 then NInf else PInf
  | NInf, Fin y => if Qltb y 0 then PInf else NInf
  | _, _ => NaN
  end.

Definition xabs (x : xfloat) : xfloat :=
  match x with
  | Fin q => Fin (Qabs q)
  | PInf | NInf => PInf
  | NaN => NaN
  end.

(** Comparisons: every comparison with NaN is false. *)
Definition xltb (a b : xfloat) : bool :=
  match a, b with
  | NaN, _ | _, NaN => false
  | Fin x, Fin y => Qltb x y
  | NInf, Fin _ | NInf, PInf | Fin _, PInf => true
  | _, _ => false
  end.

Definition xeqb (a b : xfloat) : bool :=
  match a, b with
  | Fin x, Fin y => Qeq_bool x y
  | PInf, PInf | NInf, NInf => true
  | _, _ => false
  end.

Definition xleb (a b : xfloat) : bool := xltb a b || xeqb a b.

(** The same value, up to the representation of the rational. *)
Definition xequiv (a b : xfloat) : Prop :=
  match a, b with
  | Fin x, Fin y => x == y
  | PInf, PInf | NInf, NInf | NaN, NaN => True
  | _, _ => False
  end.

Definition xof_nat (n : nat) : xfloat := Fin (inject_Z (Z.of_nat n)).

(* ================================================================= *)
(** ** Exceptions and outcomes *)

Inductive exn : Type :=
| IndexError      (* positional index out of bounds *)
| OverflowError   (* int() of an infinity *)
| ValueError.     (* int() of NaN *)

Inductive outcome (A : Type) : Type :=
| Ok (a : A)
| Raise (e : exn).
Arguments Ok {A} a.
Arguments Raise {A} e.

(** Python's [int(x)] on a float: truncation toward zero; it raises on the
    special values. *)
Definition Qtrunc (q : Q) : Z := Z.quot (Qnum q) (Zpos (Qden q)).

Definition py_int (x : xfloat) : outcome Z :=
  match x with
  | Fin q => Ok (Qtrunc q)
  | PInf | NInf => Raise OverflowError
  | NaN => Raise ValueError
  end.

(** Python's [max(a, b)]: the first argument unless the second is larger. *)
Definition py_max (a b : Q) : Q := if Qltb a b then b else a.

(* ================================================================= *)
(** ** Data model *)

(** A [datetime] is a point on the time line, counted in nanoseconds as a
    pandas [Timestamp] does. *)
Definition datetime : Type := Z.

(** One row of the price [DataFrame]; the index value is [timestamp]. *)
Record Bar : Type := {
  timestamp : datetime;
  open : Q;
  high : Q;
  low : Q;
  close : Q;
  volume : Z
}.

Definition DataFrame : Type := list Bar.

(** A pandas [Series] of floats with its datetime index. *)
Definition Series : Type := list (datetime * xfloat).

Definition values (s : Series) : list xfloat := map snd s.
Definition index (s : Series) : list datetime := map fst s.

(** Signals as the strategies emit them: [1], [-1] and [0]. *)
Definition BUY : Z := 1%Z.
Definition SELL : Z := (-1)%Z.
Definition HOLD : Z := 0%Z.

(** The part of [strategies.base.Strategy] that the engine calls. *)
Record Strategy : Type := {
  generate_signals : DataFrame -> list Z;
  should_use_stop_loss : bool;
  stop_loss_pct : Q
}.

Inductive ExitReason : Type :=
| signal_exit       (* 'signal' *)
| stop_loss         (* 'stop_loss' *)
| end_of_data.      (* 'end_of_data' *)

Module Trade.
Record t : Type := {
    entry_date : option datetime;
    exit_date : datetime;
    entry_price : Q;
    exit_price : Q;
    shares : Z;
    pnl : Q;
    pnl_pct : xfloat;
    exit_reason : ExitReason
  }.
End Trade.

(** The attributes of a [Backtester] object. *)
Record Backtester : Type := {
  initial_cash : Q;
  commission : Q;
  slippage : Q;
  cash : Q;
  position : Z;
  entry_price : Q;
  entry_date : option datetime;
  highest_price : Q;
  trades : list Trade.t;
  equity_curve : list (datetime * Q)
}.

(** [Backtester.__init__] *)
Definition Backtester_init (initial_cash commission slippage : Q) : Backtester :=
  {| initial_cash := initial_cash;
     commission := commission;
     slippage := slippage;
     cash := initial_cash;
     position := 0;
     entry_price := 0;
     entry_date := None;
     highest_price := 0;
     trades := [];
     equity_curve := [] |}.

(* ================================================================= *)
(** ** The monad of the methods *)

Definition M (A : Type) : Type := Backtester -> outcome A * Backtester.

Definition ret {A : Type} (a : A) : M A := fun self => (Ok a, self).

Definition bind {A B : Type} (m : M A) (k : A -> M B) : M B :=
  fun self =>
    match m self with
    | (Ok a, self') => k a self'
    | (Raise e, self') => (Raise e, self')
    end.

Definition lift {A : Type} (o : outcome A) : M A := fun self => (o, self).

Definition gets {A : Type} (f : Backtester -> A) : M A :=
  fun self => (Ok (f self), self).

Notation "x <- m ;; k" := (bind m (fun x => k))
  (at level 61, m at next level, right associativity).
Notation "m ;; k" := (bind m (fun _ => k))
  (at level 61, right associativity).

(** Positional access, as [Series.iloc] and [Index.__getitem__] do it. *)
Definition iloc {A : Type} (l : list A) (i : nat) : outcome A :=
  match nth_error l i with
  | Some a => Ok a
  | None => Raise IndexError
  end.

Definition iloc_first {A : Type} (l : list A) : outcome A := iloc l 0.

Definition iloc_last {A : Type} (l : list A) : outcome A :=
  iloc l (length l - 1).

(* ================================================================= *)
(** ** Backtester: the order methods *)

(** [Backtester._reset] *)
Definition _reset : M unit := fun self =>
  (Ok tt,
   {| initial_cash := initial_cash self;
      commission := commission self;
      slippage := slippage self;
      cash := initial_cash self;
      position := 0;
      entry_price := 0;
      entry_date := None;
      highest_price := 0;
      trades := [];
      equity_curve := [] |}).

(** [Backtester._buy] *)
Definition _buy (date : datetime) (price : Q) : M unit := fun self =>
  let fill_price := price * (1 + slippage self) in
  let available := cash self - commission self in
  match py_int (xdiv (Fin available) (Fin fill_price)) with
  | Raise e => (Raise e, self)
  | Ok shares =>
      if (shares <=? 0)%Z then (Ok tt, self)
      else
        let cost := inject_Z shares * fill_price + commission self in
        (Ok tt,
         {| initial_cash := initial_cash self;
            commission := commission self;
            slippage := slippage self;
            cash := cash self - cost;
            position := shares;
            entry_price := fill_price;
            entry_date := Some date;
            highest_price := price;
            trades := trades self;
            equity_curve := equity_curve self |})
  end.

(** [Backtester._sell] *)
Definition _sell (date : datetime) (price : Q) (reason : ExitReason) : M unit :=
  fun self =>
  if (position self <=? 0)%Z then (Ok tt, self)
  else
    let fill_price := price * (1 - slippage self) in
    let proceeds := inject_Z (position self) * fill_price - commission self in
    let pnl := (fill_price - entry_price self) * inject_Z (position self) in
    let pnl_pct :=
      xmul (xsub (xdiv (Fin fill_price) (Fin (entry_price self))) (Fin 1))
           (Fin 100) in
    let trade :=
      {| Trade.entry_date := entry_date self;
         Trade.exit_date := date;
         Trade.entry_price := entry_price self;
         Trade.exit_price := fill_price;
         Trade.shares := position self;
         Trade.pnl := pnl;
         Trade.pnl_pct := pnl_pct;
         Trade.exit_reason := reason |} in
    (Ok tt,
     {| initial_cash := initial_cash self;
        commission := commission self;
        slippage := slippage self;
        cash := cash self + proceeds;
        position := 0;
        entry_price := 0;
        entry_date := None;
        highest_price := 0;
        trades := trades self ++ [trade];
        equity_curve := equity_curve self |}).

(** [Backtester._record_equity] *)
Definition _record_equity (date : datetime) (current_price : Q) : M unit :=
  fun self =>
  let equity := cash self + inject_Z (position self) * current_price in
  (Ok tt,
   {| initial_cash := initial_cash self;
      commission := commission self;
      slippage := slippage self;
      cash := cash self;
      position := position self;
      entry_price := entry_price self;
      entry_date := entry_date self;
      highest_price := highest_price self;
      trades := trades self;
      equity_curve := equity_curve self ++ [(date, equity)] |}).

(** The statement [self.highest_price = max(self.highest_price, current_price)]
    under its guard [self.position > 0]. *)
Definition track_highest (current_price : Q) : M unit := fun self =>
  if (0 <? position self)%Z then
    (Ok tt,
     {| initial_cash := initial_cash self;
        commission := commission self;
        slippage := slippage self;
        cash := cash self;
        position := position self;
        entry_price := entry_price self;
        entry_date := entry_date self;
        highest_price := py_max (highest_price self) current_price;
        trades := trades self;
        equity_curve := equity_curve self |})
  else (Ok tt, self).

(** The stop-loss test of one bar: [self.position > 0 and
    strategy.should_use_stop_loss()] and then [current_price <= stop_price]. *)
Definition stop_triggered (strategy : Strategy) (current_price : Q) : M bool :=
  fun self =>
  if (0 <? position self)%Z && should_use_stop_loss strategy then
    let stop_price := highest_price self * (1 - stop_loss_pct strategy) in
    (Ok (Qle_bool current_price stop_price), self)
  else (Ok false, self).

(** The signal dispatch of one bar. *)
Definition process_signal (signal : Z) (date : datetime) (current_price : Q)
  : M unit := fun self =>
  if (signal =? 1)%Z && (position self =? 0)%Z then
    _buy date current_price self
  else if (signal =? -1)%Z && (0 <? position self)%Z then
    _sell date current_price signal_exit self
  else (Ok tt, self).

(** The body of the loop of [Backtester.run] for bar [i]. *)
Definition run_bar (strategy : Strategy) (signals : list Z) (i : nat) (row : Bar)
  : M unit :=
  signal <- lift (iloc signals i) ;;
  let date := timestamp row in
  let current_price := close row in
  track_highest current_price ;;
  stop <- stop_triggered strategy current_price ;;
  if stop then
    _sell date current_price stop_loss ;;
    _record_equity date current_price
  else
    process_signal signal date current_price ;;
    _record_equity date current_price.

(** The loop [for i, (date, row) in enumerate(data.iterrows())]. *)
Fixpoint run_loop (strategy : Strategy) (signals : list Z) (i : nat)
  (rows : DataFrame) : M unit :=
  match rows with
  | [] => ret tt
  | row :: rest =>
      run_bar strategy signals i row ;;
      run_loop strategy signals (S i) rest
  end.

(** Step 3 of [Backtester.run]: close any open position at end of data. *)
Definition close_at_end (data : DataFrame) : M unit :=
  pos <- gets position ;;
  if (0 <? pos)%Z then
    final_price <- lift (iloc_last (map close data)) ;;
    final_date <- lift (iloc_last (map timestamp data)) ;;
    _sell final_date final_price end_of_data
  else ret tt.

(* ================================================================= *)
(** ** pandas reductions

    The reductions skip NaN entries ([skipna=True], the default). *)

Definition dropna (l : list xfloat) : list xfloat :=
  filter (fun x => negb (is_nan x)) l.

(** A plain left-to-right sum. *)
Definition xsum (l : list xfloat) : xfloat := fold_left xadd l (Fin 0).

(** [Series.sum()] *)
Definition series_sum (l : list xfloat) : xfloat := xsum (dropna l).

(** [Series.mean()]: NaN when nothing is left to average. *)
Definition series_mean (l : list xfloat) : xfloat :=
  let xs := dropna l in
  match xs with
  | [] => NaN
  | _ => xdiv (xsum xs) (xof_nat (length xs))
  end.

(** [Series.min()] *)
Definition series_min (l : list xfloat) : xfloat :=
  match dropna l with
  | [] => NaN
  | x :: xs => fold_left (fun m y => if xltb y m then y else m) xs x
  end.

(** [Series.pct_change()]: the change relative to the previous row; the
    first row has none. *)
Fixpoint pct_change_from (prev : xfloat) (l : list xfloat) : list xfloat :=
  match l with
  | [] => []
  | x :: rest => xsub (xdiv x prev) (Fin 1) :: pct_change_from x rest
  end.

Definition pct_change (l : list xfloat) : list xfloat :=
  match l with
  | [] => []
  | x :: rest => NaN :: pct_change_from x rest
  end.

(** [Series.expanding().max()] *)
Fixpoint expanding_max_from (cur : xfloat) (l : list xfloat) : list xfloat :=
  match l with
  | [] => []
  | x :: rest =>
      let cur' :=
        if is_nan x then cur
        else if is_nan cur then x
        else if xltb cur x then x else cur in
      cur' :: expanding_max_from cur' rest
  end.

Definition expanding_max (l : list xfloat) : list xfloat :=
  expanding_max_from NaN l.

(** [(b != b.shift()).cumsum()] on a boolean series: the first row always
    differs from the missing row before it. *)
Fixpoint change_groups_from (prev : bool) (acc : Z) (l : list bool) : list Z :=
  match l with
  | [] => []
  | b :: rest =>
      let acc' := if Bool.eqb b prev then acc else (acc + 1)%Z in
      acc' :: change_groups_from b acc' rest
  end.

Definition change_groups (l : list bool) : list Z :=
  match l with
  | [] => []
  | b :: rest => 1%Z :: change_groups_from b 1%Z rest
  end.

(** [s[mask]] *)
Fixpoint mask_select {A : Type} (l : list A) (mask : list bool) : list A :=
  match l, mask with
  | x :: l', b :: mask' =>
      if b then x :: mask_select l' mask' else mask_select l' mask'
  | _, _ => []
  end.

(** [Series.value_counts().max()] on a non-empty integer series. *)
Definition value_counts_max (l : list Z) : Z :=
  fold_left (fun m x => Z.max m (Z.of_nat (count_occ Z.eq_dec l x))) l 0%Z.

(** [Timedelta.days] of the difference of two timestamps. *)
Definition ns_per_day : Z := 86400000000000%Z.
Definition timedelta_days (later earlier : datetime) : Z :=
  ((later - earlier) / ns_per_day)%Z.

(** [Series.loc[first:last]] on a series with an increasing datetime index:
    the rows whose label lies in the closed interval. *)
Definition loc_slice (s : Series) (first last : datetime) : Series :=
  filter (fun p => (first <=? fst p)%Z && (fst p <=? last)%Z) s.

(** Sequencing of computations that may raise but touch no state. *)
Definition obind {A B : Type} (o : outcome A) (k : A -> outcome B) : outcome B :=
  match o with
  | Ok a => k a
  | Raise e => Raise e
  end.

Notation "x <-- o ;;; k" := (obind o (fun x => k))
  (at level 61, o at next level, right associativity).

Module TradeStats.
(** The dictionary returned by [analyze_trades]. *)
Record t : Type := {
    total_trades : nat;
    win_rate : xfloat;
    avg_win : xfloat;
    avg_loss : xfloat;
    profit_factor : xfloat;
    avg_trade : xfloat
  }.
End TradeStats.

Module BacktestMetrics.
(** [start_date] and [end_date] hold the timestamps that the code renders
    with [strftime]. *)
Record t : Type := {
    total_return : xfloat;
    annual_return : xfloat;
    benchmark_return : xfloat;
    excess_return : xfloat;
    volatility : xfloat;
    max_drawdown : xfloat;
    max_drawdown_duration : Z;
    sharpe_ratio : xfloat;
    sortino_ratio : xfloat;
    calmar_ratio : xfloat;
    total_trades : nat;
    win_rate : xfloat;
    avg_win : xfloat;
    avg_loss : xfloat;
    profit_factor : xfloat;
    avg_trade : xfloat;
    start_date : datetime;
    end_date : datetime;
    trading_days : nat
  }.
End BacktestMetrics.

Module BacktestResult.
Record t : Type := {
    strategy : Strategy;
    equity_curve : Series;
    trades : list Trade.t;
    metrics : BacktestMetrics.t;
    signals : list Z
  }.
End BacktestResult.

(* ================================================================= *)
(** ** metrics.py and Backtester.run

    [np.sqrt] and the float power operator are numpy's; the development is
    parametric in them.  [np_sqrt] is applied to non-negative finite values
    only. *)

Section Numpy.

Variable np_sqrt : Q -> Q.
Variable np_power : xfloat -> Q -> xfloat.

Definition xsqrt (x : xfloat) : xfloat :=
  match x with
  | Fin q => if Qltb q 0 then NaN else Fin (np_sqrt q)
  | PInf => PInf
  | NInf | NaN => NaN
  end.

(** [Series.std()]: the sample standard deviation ([ddof=1]); NaN when fewer
    than two values are left. *)
Definition series_std (l : list xfloat) : xfloat :=
  let xs := dropna l in
  let n := length xs in
  if (n <=? 1)%nat then NaN
  else
    let avg := xdiv (xsum xs) (xof_nat n) in
    let sqr := xsum (map (fun x => xmul (xsub avg x) (xsub avg x)) xs) in
    xsqrt (xdiv sqr (xof_nat (n - 1))).

(** [total_return] *)
Definition total_return (equity_curve : Series) : outcome xfloat :=
  last <-- iloc_last (values equity_curve) ;;;
  first <-- iloc_first (values equity_curve) ;;;
  Ok (xmul (xsub (xdiv last first) (Fin 1)) (Fin 100)).

(** [cagr] *)
Definition cagr (equity_curve : Series) : outcome xfloat :=
  t_last <-- iloc_last (index equity_curve) ;;;
  t_first <-- iloc_first (index equity_curve) ;;;
  let days := timedelta_days t_last t_first in
  let years := inject_Z days / (36525 # 100) in
  if Qle_bool years 0 then Ok (Fin 0)
  else
    last <-- iloc_last (values equity_curve) ;;;
    first <-- iloc_first (values equity_curve) ;;;
    let total := xdiv last first in
    let annual := xsub (np_power total (1 / years)) (Fin 1) in
    Ok (xmul annual (Fin 100)).

(** [volatility], with its default [annualize=True] *)
Definition volatility (returns : list xfloat) : xfloat :=
  let vol := series_std returns in
  let vol := xmul vol (Fin (np_sqrt 252)) in
  xmul vol (Fin 100).

(** [max_drawdown] *)
Definition max_drawdown (equity_curve : Series) : xfloat * Z :=
  let eq := values equity_curve in
  let rolling_max := expanding_max eq in
  let drawdowns :=
    map (fun p => xdiv (xsub (fst p) (snd p)) (snd p)) (combine eq rolling_max) in
  let max_dd := xmul (series_min drawdowns) (Fin 100) in
  let underwater := map (fun d => xltb d (Fin 0)) drawdowns in
  let duration :=
    if existsb (fun b => b) underwater then
      let underwater_groups := mask_select (change_groups underwater) underwater in
      if (0 <? length underwater_groups)%nat
      then value_counts_max underwater_groups
      else 0%Z
    else 0%Z in
  (max_dd, duration).

(** [sharpe_ratio] *)
Definition sharpe_ratio (returns : list xfloat) (risk_free_rate : Q) : xfloat :=
  let annual_return := xmul (series_mean returns) (Fin 252) in
  let annual_vol := xmul (series_std returns) (Fin (np_sqrt 252)) in
  if xeqb annual_vol (Fin 0) then Fin 0
  else xdiv (xsub annual_return (Fin risk_free_rate)) annual_vol.

(** [sortino_ratio] *)
Definition sortino_ratio (returns : list xfloat) (risk_free_rate : Q) : xfloat :=
  let annual_return := xmul (series_mean returns) (Fin 252) in
  let negative_returns := filter (fun r => xltb r (Fin 0)) returns in
  if (length negative_returns =? 0)%nat then PInf
  else
    let downside_vol := xmul (series_std negative_returns) (Fin (np_sqrt 252)) in
    if xeqb downside_vol (Fin 0) then Fin 0
    else xdiv (xsub annual_return (Fin risk_free_rate)) downside_vol.

(** [calmar_ratio] *)
Definition calmar_ratio (equity_curve : Series) : outcome xfloat :=
  c <-- cagr equity_curve ;;;
  let annual := xdiv c (Fin 100) in
  let max_dd := fst (max_drawdown equity_curve) in
  let max_dd := xdiv (xabs max_dd) (Fin 100) in
  if xeqb max_dd (Fin 0) then Ok (Fin 0)
  else Ok (xdiv annual max_dd).

(** [analyze_trades], on the [pnl_pct] column of the ledger *)
Definition analyze_trades (trades : list Trade.t) : TradeStats.t :=
  let pnl_pct := map Trade.pnl_pct trades in
  if (length trades =? 0)%nat then
    {| TradeStats.total_trades := 0;
       TradeStats.win_rate := Fin 0;
       TradeStats.avg_win := Fin 0;
       TradeStats.avg_loss := Fin 0;
       TradeStats.profit_factor := Fin 0;
       TradeStats.avg_trade := Fin 0 |}
  else
    let winners := filter (fun p => xltb (Fin 0) p) pnl_pct in
    let losers := filter (fun p => xleb p (Fin 0)) pnl_pct in
    let win_rate :=
      xmul (xdiv (xof_nat (length winners)) (xof_nat (length trades))) (Fin 100) in
    let avg_win :=
      if (0 <? length winners)%nat then series_mean winners else Fin 0 in
    let avg_loss :=
      if (0 <? length losers)%nat then series_mean losers else Fin 0 in
    let gross_profit :=
      if (0 <? length winners)%nat then series_sum winners else Fin 0 in
    let gross_loss :=
      if (0 <? length losers)%nat then xabs (series_sum losers)
      else Fin (1 # 1000) in
    let profit_factor :=
      if xltb (Fin 0) gross_loss then xdiv gross_profit gross_loss else Fin 0 in
    {| TradeStats.total_trades := length trades;
       TradeStats.win_rate := win_rate;
       TradeStats.avg_win := avg_win;
       TradeStats.avg_loss := avg_loss;
       TradeStats.profit_factor := profit_factor;
       TradeStats.avg_trade := series_mean pnl_pct |}.

(** The default [risk_free_rate=0.02] of the two ratios. *)
Definition default_risk_free_rate : Q := 2 # 100.

(** [calculate_metrics] *)
Definition calculate_metrics (equity_curve : Series) (trades : list Trade.t)
  (benchmark_curve : option Series) : outcome BacktestMetrics.t :=
  let returns := dropna (pct_change (values equity_curve)) in
  total_ret <-- total_return equity_curve ;;;
  annual_ret <-- cagr equity_curve ;;;
  bench <--
    match benchmark_curve with
    | Some curve =>
        bench_ret <-- total_return curve ;;;
        Ok (bench_ret, xsub total_ret bench_ret)
    | None => Ok (Fin 0, Fin 0)
    end ;;;
  let vol := volatility returns in
  let dd := max_drawdown equity_curve in
  let sharpe := sharpe_ratio returns default_risk_free_rate in
  let sortino := sortino_ratio returns default_risk_free_rate in
  calmar <-- calmar_ratio equity_curve ;;;
  let trade_stats := analyze_trades trades in
  start <-- iloc_first (index equity_curve) ;;;
  stop <-- iloc_last (index equity_curve) ;;;
  Ok {| BacktestMetrics.total_return := total_ret;
        BacktestMetrics.annual_return := annual_ret;
        BacktestMetrics.benchmark_return := fst bench;
        BacktestMetrics.excess_return := snd bench;
        BacktestMetrics.volatility := vol;
        BacktestMetrics.max_drawdown := fst dd;
        BacktestMetrics.max_drawdown_duration := snd dd;
        BacktestMetrics.sharpe_ratio := sharpe;
        BacktestMetrics.sortino_ratio := sortino;
        BacktestMetrics.calmar_ratio := calmar;
        BacktestMetrics.total_trades := TradeStats.total_trades trade_stats;
        BacktestMetrics.win_rate := TradeStats.win_rate trade_stats;
        BacktestMetrics.avg_win := TradeStats.avg_win trade_stats;
        BacktestMetrics.avg_loss := TradeStats.avg_loss trade_stats;
        BacktestMetrics.profit_factor := TradeStats.profit_factor trade_stats;
        BacktestMetrics.avg_trade := TradeStats.avg_trade trade_stats;
        BacktestMetrics.start_date := start;
        BacktestMetrics.end_date := stop;
        BacktestMetrics.trading_days := length equity_curve |}.

(** The equity curve as the [Series] handed to the metrics. *)
Definition to_series (curve : list (datetime * Q)) : Series :=
  map (fun p => (fst p, Fin (snd p))) curve.

(** The benchmark curve of step 4 of [Backtester.run]: scaled to the initial
    cash, then cut to the dates of the equity curve. *)
Definition scale_benchmark (benchmark : DataFrame) (first_close cash0 : Q)
  : Series :=
  map (fun row =>
         (timestamp row,
          xmul (xdiv (Fin (close row)) (Fin first_close)) (Fin cash0)))
      benchmark.

Definition benchmark_curve_of (benchmark : option DataFrame)
  (equity_series : Series) : M (option Series) :=
  match benchmark with
  | None => ret None
  | Some b =>
      first_close <- lift (iloc_first (map close b)) ;;
      cash0 <- gets initial_cash ;;
      let scaled := scale_benchmark b first_close cash0 in
      first <- lift (iloc_first (index equity_series)) ;;
      last <- lift (iloc_last (index equity_series)) ;;
      ret (Some (loc_slice scaled first last))
  end.

(** [Backtester.run] *)
Definition run (strategy : Strategy) (data : DataFrame)
  (benchmark : option DataFrame) : M BacktestResult.t :=
  _reset ;;
  let signals := generate_signals strategy data in
  run_loop strategy signals 0 data ;;
  close_at_end data ;;
  curve <- gets equity_curve ;;
  let equity_series := to_series curve in
  trades <- gets trades ;;
  benchmark_curve <- benchmark_curve_of benchmark equity_series ;;
  metrics <- lift (calculate_metrics equity_series trades benchmark_curve) ;;
  ret {| BacktestResult.strategy := strategy;
         BacktestResult.equity_curve := equity_series;
         BacktestResult.trades := trades;
         BacktestResult.metrics := metrics;
         BacktestResult.signals := signals |}.

End Numpy.

(* ================================================================= *)
(** ** A reference instance of the numpy operations

    Rational approximations used to run the model on concrete inputs: the
    square root cut to nine decimals, the power computed in fixed point
    with eighteen. *)

Definition np_sqrt_ref (q : Q) : Q :=
  let n := Qnum q in
  let d := Qden q in
  Qmake (Z.sqrt (n * Zpos d * 10 ^ 18)) (d * 10 ^ 9).

(** The largest [r] below [2 ^ bits] with [r ^ k <= n], bit by bit. *)
Fixpoint root_bits (k n : Z) (bits : nat) (r : Z) : Z :=
  match bits with
  | O => r
  | S b =>
      let c := (r + 2 ^ Z.of_nat b)%Z in
      root_bits k n b (if (c ^ k <=? n)%Z then c else r)
  end.

Definition Z_root (k : positive) (n : Z) : Z :=
  root_bits (Zpos k) n (Z.to_nat (Z.log2 n / Zpos k + 1)) 0%Z.

Definition fix_scale : Z := (10 ^ 18)%Z.
Definition fix_of_Q (q : Q) : Z := Qfloor (q * inject_Z fix_scale).
Definition fix_mul (x y : Z) : Z := (x * y / fix_scale)%Z.
Definition fix_pow (x : Z) (n : positive) : Z := Pos.iter_op fix_mul n x.
Definition fix_root (k : positive) (x : Z) : Z :=
  Z_root k (x * fix_scale ^ (Zpos k - 1)).

(** [x ** y] for a positive finite base; NaN stands for the cases that the
    approximation does not cover. *)
Definition np_power_ref (x : xfloat) (y : Q) : xfloat :=
  match x with
  | Fin b =>
      if Qltb 0 b then
        let y' := Qred y in
        let xb := fix_of_Q b in
        match Qnum y' with
        | Z0 => Fin 1
        | Zpos p => Fin (Qmake (fix_root (Qden y') (fix_pow xb p)) (10 ^ 18))
        | Zneg p =>
            Fin (Qmake (fix_root (Qden y')
                          (fix_scale * fix_scale / fix_pow xb p))
                       (10 ^ 18))
        end
      else NaN
  | _ => NaN
  end.

(* ================================================================= *)
(** * Properties *)

(** ** Arithmetic helpers *)

Lemma Qtrunc_nonneg_num (q : Q) :
  (0 <= Qnum q)%Z -> Qtrunc q = Qfloor q.
Proof.
  destruct q as [n d]; unfold Qtrunc, Qfloor; simpl; intros Hn.
  apply Z.quot_div_nonneg; lia.
Qed.

Lemma Qfloor_neg_num (q : Q) : (Qnum q < 0)%Z -> (Qfloor q < 0)%Z.
Proof.
  destruct q as [n d]; unfold Qfloor; simpl; intros Hn.
  apply Z.div_lt_upper_bound; lia.
Qed.

Lemma Qtrunc_neg_num (q : Q) : (Qnum q < 0)%Z -> (Qtrunc q <= 0)%Z.
Proof.
  destruct q as [n d]; unfold Qtrunc; simpl; intros Hn.
  apply Z.quot_le_upper_bound; lia.
Qed.

(** [int()] and the floor agree on whether any share is affordable, and on
    the count when one is. *)
Lemma Qtrunc_floor_leb (q : Q) :
  (Qtrunc q <=? 0)%Z = (Qfloor q <=? 0)%Z.
Proof.
  destruct (Z_lt_le_dec (Qnum q) 0) as [Hn | Hn].
  - pose proof (Qfloor_neg_num q Hn). pose proof (Qtrunc_neg_num q Hn).
    rewrite !(proj2 (Z.leb_le _ _)); [reflexivity | lia | lia].
  - rewrite (Qtrunc_nonneg_num q Hn). reflexivity.
Qed.

Lemma Qtrunc_floor_pos (q : Q) :
  (Qfloor q <=? 0)%Z = false -> Qtrunc q = Qfloor q.
Proof.
  intros H. apply Z.leb_gt in H.
  destruct (Z_lt_le_dec (Qnum q) 0) as [Hn | Hn].
  - pose proof (Qfloor_neg_num q Hn). lia.
  - apply Qtrunc_nonneg_num, Hn.
Qed.

Lemma Qeq_bool_false (x y : Q) : ~ x == y -> Qeq_bool x y = false.
Proof.
  intros H. destruct (Qeq_bool x y) eqn:E; [|reflexivity].
  apply Qeq_bool_eq in E. contradiction.
Qed.

Lemma xdiv_fin (x y : Q) : ~ y == 0 -> xdiv (Fin x) (Fin y) = Fin (x / y).
Proof. intros H. unfold xdiv. rewrite (Qeq_bool_false _ _ H). reflexivity. Qed.

(** ** The configuration of an engine *)

(** The three constructor parameters; no method assigns them. *)
Definition same_config (a b : Backtester) : Prop :=
  initial_cash a = initial_cash b /\
  commission a = commission b /\
  slippage a = slippage b.

Lemma same_config_refl a : same_config a a.
Proof. repeat split. Qed.

Lemma same_config_trans a b c :
  same_config a b -> same_config b c -> same_config a c.
Proof. unfold same_config; intuition congruence. Qed.

Lemma buy_config date price self :
  same_config self (snd (_buy date price self)).
Proof.
  unfold _buy.
  destruct (py_int _) as [shares|e]; simpl; [|apply same_config_refl].
  destruct (shares <=? 0)%Z; simpl; repeat split.
Qed.

Lemma sell_config date price reason self :
  same_config self (snd (_sell date price reason self)).
Proof.
  unfold _sell. destruct (position self <=? 0)%Z; simpl; repeat split.
Qed.

(* ================================================================= *)
(** ** Buy *)

(** The state after a buy that fills [shares] at [fill_price]. *)
Definition bought (date : datetime) (price fill_price : Q) (shares : Z)
  (self : Backtester) : Backtester :=
  {| initial_cash := initial_cash self;
     commission := commission self;
     slippage := slippage self;
     cash := cash self - (inject_Z shares * fill_price + commission self);
     position := shares;
     entry_price := fill_price;
     entry_date := Some date;
     highest_price := price;
     trades := trades self;
     equity_curve := equity_curve self |}.

Lemma buy_eq (self : Backtester) (date : datetime) (p : Q) :
  ~ p * (1 + slippage self) == 0 ->
  _buy date p self =
  let fill_price := p * (1 + slippage self) in
  let shares := Qfloor ((cash self - commission self) / fill_price) in
  if (shares <=? 0)%Z then (Ok tt, self)
  else (Ok tt, bought date p fill_price shares self).
Proof.
  intros Hfill. unfold _buy. rewrite (xdiv_fin _ _ Hfill). cbn [py_int].
  rewrite Qtrunc_floor_leb. cbv zeta.
  destruct (Qfloor _ <=? 0)%Z eqn:E; [reflexivity|].
  rewrite (Qtrunc_floor_pos _ E). reflexivity.
Qed.

(** Whatever the price, a buy that returns either changed nothing or opened
    a position of at least one share at a non-zero fill price. *)
Lemma buy_ok_cases (self : Backtester) (date : datetime) (p : Q) s2 :
  _buy date p self = (Ok tt, s2) ->
  s2 = self \/
  exists shares,
    (0 < shares)%Z /\
    ~ p * (1 + slippage self) == 0 /\
    s2 = bought date p (p * (1 + slippage self)) shares self.
Proof.
  unfold _buy, xdiv.
  destruct (Qeq_bool (p * (1 + slippage self)) 0) eqn:Hz.
  - destruct (cash self - commission self ?= 0); cbn [py_int]; discriminate.
  - cbn [py_int].
    destruct (Qtrunc _ <=? 0)%Z eqn:E; intros [= <-]; [left; reflexivity|].
    right. eexists. split; [apply Z.leb_gt, E|].
    split; [apply Qeq_bool_neq, Hz | reflexivity].
Qed.

(** C3. A buy at signal price [p] (with a non-zero fill price) fills at
    [p * (1 + slippage)] for [floor((cash - commission) / fill_price)]
    shares.  With no affordable share the object is left exactly as it was
    and nothing is raised; otherwise cash drops by
    [shares * fill_price + commission], and the position opens with the
    fill price as entry price, the bar's date as entry date and the raw
    signal price [p] as highest price; ledger and curve are untouched. *)
Theorem buy_fill_or_noop (self : Backtester) (date : datetime) (p : Q) :
  ~ p * (1 + slippage self) == 0 ->
  let fill_price := p * (1 + slippage self) in
  let shares := Qfloor ((cash self - commission self) / fill_price) in
  if (shares <=? 0)%Z then _buy date p self = (Ok tt, self)
  else
    exists self',
      _buy date p self = (Ok tt, self') /\
      cash self' == cash self - (inject_Z shares * fill_price + commission self) /\
      position self' = shares /\
      entry_price self' = fill_price /\
      entry_date self' = Some date /\
      highest_price self' = p /\
      trades self' = trades self /\
      equity_curve self' = equity_curve self /\
      same_config self self'.
Proof.
  intros Hfill fill_price shares.
  rewrite (buy_eq _ _ _ Hfill). cbv zeta. fold fill_price. fold shares.
  destruct (shares <=? 0)%Z; [reflexivity|].
  eexists; split; [reflexivity|]. cbn.
  repeat split; reflexivity.
Qed.

(* ================================================================= *)
(** ** One bar of the loop *)

Lemma iloc_nth {A : Type} (l : list A) (i : nat) (a : A) :
  nth_error l i = Some a -> iloc l i = Ok a.
Proof. unfold iloc. intros ->. reflexivity. Qed.

Lemma iloc_out {A : Type} (l : list A) (i : nat) :
  (length l <= i)%nat -> iloc l i = Raise IndexError.
Proof.
  intros H. unfold iloc. rewrite (proj2 (nth_error_None l i) H). reflexivity.
Qed.

(** The bar body with the signal already fetched. *)
Definition bar_body (strategy : Strategy) (signal : Z) (row : Bar) : M unit :=
  let date := timestamp row in
  let current_price := close row in
  track_highest current_price ;;
  stop <- stop_triggered strategy current_price ;;
  if stop then
    _sell date current_price stop_loss ;;
    _record_equity date current_price
  else
    process_signal signal date current_price ;;
    _record_equity date current_price.

Lemma run_bar_signal strategy signals i row signal self :
  nth_error signals i = Some signal ->
  run_bar strategy signals i row self = bar_body strategy signal row self.
Proof.
  intros H. unfold run_bar, bar_body, bind at 1, lift.
  rewrite (iloc_nth _ _ _ H). reflexivity.
Qed.

Lemma run_bar_no_signal strategy signals i row self :
  (length signals <= i)%nat ->
  run_bar strategy signals i row self = (Raise IndexError, self).
Proof.
  intros H. unfold run_bar, bind at 1, lift.
  rewrite (iloc_out _ _ H). reflexivity.
Qed.

(** C2. At a bar where a position is open, the strategy asks for stop-loss
    protection and the close is at or below
    [highest_price * (1 - stop_loss_pct)] (the highest price already
    including this close), the bar closes the position with a trade marked
    [stop_loss] dated at this bar, records the bar's equity point, and ends
    in the same state whatever signal the bar carries: the signal is not
    acted on. *)
Theorem stop_loss_preempts_signal
  (strategy : Strategy) (signals : list Z) (i : nat) (row : Bar)
  (self : Backtester) (signal : Z) :
  nth_error signals i = Some signal ->
  (0 < position self)%Z ->
  should_use_stop_loss strategy = true ->
  close row <=
    py_max (highest_price self) (close row) * (1 - stop_loss_pct strategy) ->
  exists (self' : Backtester) (t : Trade.t) (equity : Q),
    run_bar strategy signals i row self = (Ok tt, self') /\
    position self' = 0%Z /\
    entry_date self' = None /\
    trades self' = trades self ++ [t] /\
    Trade.exit_reason t = stop_loss /\
    Trade.exit_date t = timestamp row /\
    Trade.exit_price t = close row * (1 - slippage self) /\
    Trade.shares t = position self /\
    Trade.entry_date t = entry_date self /\
    equity_curve self' = equity_curve self ++ [(timestamp row, equity)] /\
    equity == cash self' /\
    (forall (signals' : list Z) (signal' : Z),
        nth_error signals' i = Some signal' ->
        run_bar strategy signals' i row self = (Ok tt, self')).
Proof.
  intros Hsig Hpos Hstop Hle.
  assert (Hltb : (0 <? position self)%Z = true) by (apply Z.ltb_lt; lia).
  assert (Hleb : (position self <=? 0)%Z = false) by (apply Z.leb_gt; lia).
  apply Qle_bool_iff in Hle.
  assert (Hbody : forall s, exists self' t equity,
             bar_body strategy s row self = (Ok tt, self') /\
             position self' = 0%Z /\ entry_date self' = None /\
             trades self' = trades self ++ [t] /\
             Trade.exit_reason t = stop_loss /\
             Trade.exit_date t = timestamp row /\
             Trade.exit_price t = close row * (1 - slippage self) /\
             Trade.shares t = position self /\
             Trade.entry_date t = entry_date self /\
             equity_curve self' = equity_curve self ++ [(timestamp row, equity)] /\
             equity == cash self' /\
             bar_body strategy signal row self = (Ok tt, self')).
  { intros s.
    unfold bar_body, bind, track_highest, stop_triggered.
    rewrite Hltb. cbn [position highest_price]. rewrite Hltb, Hstop.
    cbn [andb]. rewrite Hle.
    unfold _sell. cbn [position]. rewrite Hleb.
    unfold _record_equity. cbn.
    do 3 eexists. split; [reflexivity|]. cbn.
    repeat split; try reflexivity. ring. }
  destruct (Hbody signal) as (self' & t & equity & H1 & H2 & H3 & H4 & H5 & H6
                               & H7 & H8 & H9 & H10 & H11 & _).
  exists self', t, equity.
  rewrite (run_bar_signal _ _ _ _ _ _ Hsig).
  repeat (split; [assumption|]).
  intros signals' signal' Hsig'.
  rewrite (run_bar_signal _ _ _ _ _ _ Hsig').
  destruct (Hbody signal') as (s2 & t2 & e2 & G1 & _ & _ & _ & _ & _ & _ & _
                               & _ & _ & _ & G12).
  congruence.
Qed.

(** *** The transitions of one bar *)

Definition tracked (p : Q) (s : Backtester) : Backtester :=
  snd (track_highest p s).
Definition sold (d : datetime) (p : Q) (r : ExitReason) (s : Backtester)
  : Backtester := snd (_sell d p r s).
Definition recorded (d : datetime) (p : Q) (s : Backtester) : Backtester :=
  snd (_record_equity d p s).

(** What a bar can do: stop out, buy, fail in the buy, sell on signal, or
    nothing; in every case but the failure the equity point is recorded. *)
Inductive bar_result (strategy : Strategy) (signal : Z) (row : Bar)
  (s : Backtester) : outcome unit * Backtester -> Prop :=
| bar_stopped :
    (0 < position s)%Z ->
    should_use_stop_loss strategy = true ->
    close row <=
      highest_price (tracked (close row) s) * (1 - stop_loss_pct strategy) ->
    bar_result strategy signal row s
      (Ok tt,
       recorded (timestamp row) (close row)
         (sold (timestamp row) (close row) stop_loss (tracked (close row) s)))
| bar_bought : forall s2,
    signal = BUY ->
    position s = 0%Z ->
    _buy (timestamp row) (close row) s = (Ok tt, s2) ->
    bar_result strategy signal row s
      (Ok tt, recorded (timestamp row) (close row) s2)
| bar_buy_raised : forall e s2,
    signal = BUY ->
    position s = 0%Z ->
    _buy (timestamp row) (close row) s = (Raise e, s2) ->
    bar_result strategy signal row s (Raise e, s)
| bar_sold :
    signal = SELL ->
    (0 < position s)%Z ->
    bar_result strategy signal row s
      (Ok tt,
       recorded (timestamp row) (close row)
         (sold (timestamp row) (close row) signal_exit (tracked (close row) s)))
| bar_idle :
    (signal <> BUY \/ position s <> 0%Z) ->
    (signal <> SELL \/ (position s <= 0)%Z) ->
    bar_result strategy signal row s
      (Ok tt, recorded (timestamp row) (close row) (tracked (close row) s)).

Lemma tracked_flat p s : (position s <= 0)%Z -> tracked p s = s.
Proof.
  intros H. unfold tracked, track_highest.
  rewrite (proj2 (Z.ltb_ge 0 (position s)) H). reflexivity.
Qed.

Lemma tracked_position p s : position (tracked p s) = position s.
Proof.
  unfold tracked, track_highest. destruct (0 <? position s)%Z; reflexivity.
Qed.

Lemma track_highest_ok p s : track_highest p s = (Ok tt, tracked p s).
Proof.
  unfold tracked, track_highest. destruct (0 <? position s)%Z; reflexivity.
Qed.

Lemma bar_body_result strategy signal row s :
  bar_result strategy signal row s (bar_body strategy signal row s).
Proof.
  unfold bar_body, bind.
  rewrite track_highest_ok.
  unfold stop_triggered. rewrite tracked_position.
  destruct (0 <? position s)%Z eqn:Hpos.
  - (* a position is open *)
    apply Z.ltb_lt in Hpos.
    assert (Hsell : forall r,
               _sell (timestamp row) (close row) r (tracked (close row) s) =
               (Ok tt, sold (timestamp row) (close row) r (tracked (close row) s))).
    { intros r. unfold sold, _sell.
      destruct (position (tracked (close row) s) <=? 0)%Z; reflexivity. }
    destruct (should_use_stop_loss strategy) eqn:Hstop; cbn [andb].
    + destruct (Qle_bool (close row) _) eqn:Hle.
      * rewrite Hsell. apply bar_stopped; auto. apply Qle_bool_iff, Hle.
      * unfold process_signal. rewrite tracked_position.
        rewrite (proj2 (Z.eqb_neq (position s) 0)) by lia.
        rewrite (proj2 (Z.ltb_lt 0 (position s))) by lia.
        rewrite andb_false_r, andb_true_r.
        destruct (signal =? -1)%Z eqn:Hs.
        -- rewrite Hsell. apply Z.eqb_eq in Hs. apply bar_sold; auto.
        -- apply Z.eqb_neq in Hs. apply bar_idle; [right; lia | left; exact Hs].
    + unfold process_signal. rewrite tracked_position.
      rewrite (proj2 (Z.eqb_neq (position s) 0)) by lia.
      rewrite (proj2 (Z.ltb_lt 0 (position s))) by lia.
      rewrite andb_false_r, andb_true_r.
      destruct (signal =? -1)%Z eqn:Hs.
      * rewrite Hsell. apply Z.eqb_eq in Hs. apply bar_sold; auto.
      * apply Z.eqb_neq in Hs. apply bar_idle; [right; lia | left; exact Hs].
  - (* flat, or a non-positive count *)
    apply Z.ltb_ge in Hpos. cbn [andb].
    rewrite (tracked_flat _ _ Hpos).
    unfold process_signal.
    rewrite (proj2 (Z.ltb_ge 0 (position s)) Hpos), andb_false_r.
    destruct (signal =? 1)%Z eqn:Hs; cbn [andb].
    + apply Z.eqb_eq in Hs.
      destruct (position s =? 0)%Z eqn:Hz.
      * apply Z.eqb_eq in Hz.
        destruct (_buy (timestamp row) (close row) s) as [[[] | e] s2] eqn:Hbuy.
        -- rewrite <- (tracked_flat (close row) s Hpos) at 1.
           rewrite (tracked_flat _ _ Hpos).
           apply bar_bought; auto.
        -- assert (s2 = s) as ->.
           { revert Hbuy. unfold _buy. destruct (py_int _) as [z|e'].
             - destruct (z <=? 0)%Z; discriminate.
             - congruence. }
           eapply bar_buy_raised; eauto.
      * apply Z.eqb_neq in Hz.
        rewrite <- (tracked_flat (close row) s Hpos) at 2.
        apply bar_idle; [right; exact Hz | right; exact Hpos].
    + apply Z.eqb_neq in Hs.
      rewrite <- (tracked_flat (close row) s Hpos) at 2.
      apply bar_idle; [left; exact Hs | right; exact Hpos].
Qed.

Lemma run_bar_ok_inv strategy signals i row s s' :
  run_bar strategy signals i row s = (Ok tt, s') ->
  exists signal,
    nth_error signals i = Some signal /\
    bar_result strategy signal row s (Ok tt, s').
Proof.
  intros H. destruct (nth_error signals i) as [signal|] eqn:E.
  - exists signal. split; [reflexivity|].
    rewrite (run_bar_signal _ _ _ _ _ _ E) in H. rewrite <- H.
    apply bar_body_result.
  - rewrite run_bar_no_signal in H by (apply nth_error_None, E). discriminate.
Qed.

Lemma sold_config d p r s : same_config s (sold d p r s).
Proof. apply sell_config. Qed.

Lemma tracked_config p s : same_config s (tracked p s).
Proof.
  unfold tracked, track_highest. destruct (0 <? position s)%Z; repeat split.
Qed.

Lemma recorded_config d p s : same_config s (recorded d p s).
Proof. repeat split. Qed.

Lemma bar_result_config strategy signal row s o s' :
  bar_result strategy signal row s (o, s') -> same_config s s'.
Proof.
  intros H. inversion H; subst.
  - eapply same_config_trans; [apply tracked_config|].
    eapply same_config_trans; [apply sold_config|]. apply recorded_config.
  - eapply same_config_trans; [|apply recorded_config].
    match goal with
    | Hb : _buy ?d ?p s = (_, ?s2) |- _ =>
        pose proof (buy_config d p s) as Hc; rewrite Hb in Hc; exact Hc
    end.
  - apply same_config_refl.
  - eapply same_config_trans; [apply tracked_config|].
    eapply same_config_trans; [apply sold_config|]. apply recorded_config.
  - eapply same_config_trans; [apply tracked_config|]. apply recorded_config.
Qed.

Lemma bar_result_raise strategy signal row s e s' :
  bar_result strategy signal row s (Raise e, s') -> s' = s.
Proof. intros H. inversion H; subst; reflexivity. Qed.

(** A completed bar appends exactly its own equity point, valued with the
    cash and shares held when the bar ends. *)
Lemma bar_result_equity strategy signal row s s' :
  bar_result strategy signal row s (Ok tt, s') ->
  equity_curve s' =
    equity_curve s ++
    [(timestamp row, cash s' + inject_Z (position s') * close row)].
Proof.
  assert (Ht : forall p x, equity_curve (tracked p x) = equity_curve x).
  { intros p x. unfold tracked, track_highest.
    destruct (0 <? position x)%Z; reflexivity. }
  assert (Hs : forall d p r x, equity_curve (sold d p r x) = equity_curve x).
  { intros d p r x. unfold sold, _sell.
    destruct (position x <=? 0)%Z; reflexivity. }
  intros H. inversion H; subst; cbn [recorded _record_equity snd equity_curve
                                       cash position].
  - rewrite Hs, Ht. reflexivity.
  - match goal with
    | Hb : _buy _ _ s = (_, ?s2) |- _ =>
        assert (equity_curve s2 = equity_curve s) as ->;
        [revert Hb; unfold _buy; destruct (py_int _) as [z|e];
         [destruct (z <=? 0)%Z; intros [= <-]; reflexivity | discriminate]
        | reflexivity]
    end.
  - rewrite Hs, Ht. reflexivity.
  - rewrite Ht. reflexivity.
Qed.

Lemma run_bar_config strategy signals i row s :
  same_config s (snd (run_bar strategy signals i row s)).
Proof.
  destruct (nth_error signals i) as [signal|] eqn:E.
  - rewrite (run_bar_signal _ _ _ _ _ _ E).
    pose proof (bar_body_result strategy signal row s) as H.
    destruct (bar_body strategy signal row s) as [o s'].
    apply (bar_result_config _ _ _ _ _ _ H).
  - rewrite run_bar_no_signal by (apply nth_error_None, E).
    apply same_config_refl.
Qed.

(* ================================================================= *)
(** ** The loop *)

Lemma run_loop_cons strategy signals i row rest s :
  run_loop strategy signals i (row :: rest) s =
  match run_bar strategy signals i row s with
  | (Ok _, s') => run_loop strategy signals (S i) rest s'
  | (Raise e, s') => (Raise e, s')
  end.
Proof. reflexivity. Qed.

Lemma run_loop_app strategy signals pre post : forall i s,
  run_loop strategy signals i (pre ++ post) s =
  match run_loop strategy signals i pre s with
  | (Ok _, s') => run_loop strategy signals (i + length pre) post s'
  | (Raise e, s') => (Raise e, s')
  end.
Proof.
  induction pre as [|row pre IH]; intros i s.
  - cbn. rewrite Nat.add_0_r. reflexivity.
  - rewrite <- app_comm_cons, !run_loop_cons.
    destruct (run_bar strategy signals i row s) as [[[]|e] s1]; [|reflexivity].
    rewrite IH. cbn [length]. rewrite Nat.add_succ_r. reflexivity.
Qed.

Lemma run_loop_config strategy signals rows : forall i s,
  same_config s (snd (run_loop strategy signals i rows s)).
Proof.
  induction rows as [|row rows IH]; intros i s.
  - apply same_config_refl.
  - rewrite run_loop_cons.
    pose proof (run_bar_config strategy signals i row s) as H.
    destruct (run_bar strategy signals i row s) as [[[]|e] s1]; cbn [snd] in *.
    + eapply same_config_trans; [exact H | apply IH].
    + exact H.
Qed.

(** A completed loop appends one equity point per bar, in bar order. *)
Lemma run_loop_equity_dates strategy signals rows : forall i s s',
  run_loop strategy signals i rows s = (Ok tt, s') ->
  map fst (equity_curve s') = map fst (equity_curve s) ++ map timestamp rows.
Proof.
  induction rows as [|row rows IH]; intros i s s' H.
  - cbn in H. injection H as <-. cbn. rewrite app_nil_r. reflexivity.
  - rewrite run_loop_cons in H.
    destruct (run_bar strategy signals i row s) as [[[]|e] s1] eqn:Hbar;
      [|discriminate].
    apply run_bar_ok_inv in Hbar. destruct Hbar as (signal & _ & Hres).
    rewrite (IH _ _ _ H), (bar_result_equity _ _ _ _ _ Hres).
    rewrite map_app. cbn. rewrite <- app_assoc. reflexivity.
Qed.

(** The last point of a completed non-empty loop is the last bar's, valued
    with the final cash and shares. *)
Lemma run_loop_last_point strategy signals rows : forall i s s' row0,
  rows <> [] ->
  run_loop strategy signals i rows s = (Ok tt, s') ->
  exists front,
    equity_curve s' =
      front ++
      [(timestamp (last rows row0),
        cash s' + inject_Z (position s') * close (last rows row0))].
Proof.
  induction rows as [|row rows IH]; intros i s s' row0 Hne H; [congruence|].
  rewrite run_loop_cons in H.
  destruct (run_bar strategy signals i row s) as [[[]|e] s1] eqn:Hbar;
    [|discriminate].
  destruct rows as [|row' rows'].
  - cbn in H. injection H as <-.
    apply run_bar_ok_inv in Hbar. destruct Hbar as (signal & _ & Hres).
    exists (equity_curve s). apply (bar_result_equity _ _ _ _ _ Hres).
  - apply (IH _ _ _ row0) in H; [|discriminate]. exact H.
Qed.

(** *** Totality *)

(** A bar can be filled when its fill price is not zero. *)
Definition fillable (slip : Q) (row : Bar) : Prop :=
  ~ close row * (1 + slip) == 0.

Lemma positive_fillable (slip : Q) (row : Bar) :
  0 <= slip -> 0 < close row -> fillable slip row.
Proof. unfold fillable. intros Hs Hc Hz. nra. Qed.

Lemma run_bar_total strategy signals i row s :
  (i < length signals)%nat ->
  fillable (slippage s) row ->
  exists s', run_bar strategy signals i row s = (Ok tt, s').
Proof.
  intros Hi Hfill.
  destruct (nth_error signals i) as [signal|] eqn:E;
    [|apply nth_error_None in E; lia].
  rewrite (run_bar_signal _ _ _ _ _ _ E).
  pose proof (bar_body_result strategy signal row s) as H.
  destruct (bar_body strategy signal row s) as [[[]|e] s'].
  - exists s'. reflexivity.
  - exfalso. inversion H; subst.
    match goal with
    | Hb : _buy _ _ _ = (Raise _, _) |- _ =>
        rewrite (buy_eq _ _ _ Hfill) in Hb; cbv zeta in Hb;
        destruct (Qfloor _ <=? 0)%Z; discriminate
    end.
Qed.

Lemma run_loop_total strategy signals rows : forall i s,
  (i + length rows <= length signals)%nat ->
  Forall (fillable (slippage s)) rows ->
  exists s', run_loop strategy signals i rows s = (Ok tt, s').
Proof.
  induction rows as [|row rows IH]; intros i s Hlen Hfill.
  - exists s. reflexivity.
  - cbn [length] in Hlen. inversion Hfill as [|? ? Hrow Hrest]; subst.
    destruct (run_bar_total strategy signals i row s) as (s1 & Hbar);
      [lia | exact Hrow |].
    rewrite run_loop_cons, Hbar.
    apply IH; [lia|].
    pose proof (run_bar_config strategy signals i row s) as Hc.
    rewrite Hbar in Hc. destruct Hc as (_ & _ & Hslip). cbn [snd] in Hslip.
    rewrite <- Hslip. exact Hrest.
Qed.

(* ================================================================= *)
(** ** Invariants of the loop *)

(** What is left of a bar's effect once the four methods are known to keep
    a property. *)
Lemma bar_result_preserves (P : Backtester -> Prop) strategy signal row :
  (forall s, P s -> P (tracked (close row) s)) ->
  (forall s r, r <> end_of_data -> P s ->
               P (sold (timestamp row) (close row) r s)) ->
  (forall s shares,
      (0 < shares)%Z -> ~ close row * (1 + slippage s) == 0 -> P s ->
      P (bought (timestamp row) (close row)
                (close row * (1 + slippage s)) shares s)) ->
  (forall s, P s -> P (recorded (timestamp row) (close row) s)) ->
  forall s o s', P s -> bar_result strategy signal row s (o, s') -> P s'.
Proof.
  intros Ht Hs Hb Hr s o s' HP H. inversion H; subst.
  - apply Hr, Hs; [discriminate|]. apply Ht, HP.
  - apply Hr.
    match goal with
    | Hbuy : _buy _ _ _ = _ |- _ => apply buy_ok_cases in Hbuy;
        destruct Hbuy as [-> | (shares & Hpos & Hfill & ->)]
    end; [exact HP | apply Hb; assumption].
  - exact HP.
  - apply Hr, Hs; [discriminate|]. apply Ht, HP.
  - apply Hr, Ht, HP.
Qed.

Lemma run_bar_preserves (P : Backtester -> Prop) strategy signals i row :
  (forall s, P s -> P (tracked (close row) s)) ->
  (forall s r, r <> end_of_data -> P s ->
               P (sold (timestamp row) (close row) r s)) ->
  (forall s shares,
      (0 < shares)%Z -> ~ close row * (1 + slippage s) == 0 -> P s ->
      P (bought (timestamp row) (close row)
                (close row * (1 + slippage s)) shares s)) ->
  (forall s, P s -> P (recorded (timestamp row) (close row) s)) ->
  forall s, P s -> P (snd (run_bar strategy signals i row s)).
Proof.
  intros Ht Hs Hb Hr s HP.
  destruct (nth_error signals i) as [signal|] eqn:E.
  - rewrite (run_bar_signal _ _ _ _ _ _ E).
    pose proof (bar_body_result strategy signal row s) as H.
    destruct (bar_body strategy signal row s) as [o s'].
    apply (bar_result_preserves P strategy signal row Ht Hs Hb Hr s o s' HP H).
  - rewrite run_bar_no_signal by (apply nth_error_None, E). exact HP.
Qed.

(** *** Shares and the open position *)

(** The share count is never negative, it is positive exactly when an entry
    is on record, and an open position has a non-zero entry price. *)
Definition position_inv (s : Backtester) : Prop :=
  (0 <= position s)%Z /\
  ((0 < position s)%Z <-> entry_date s <> None) /\
  ((0 < position s)%Z -> ~ entry_price s == 0).

Lemma tracked_fields p s :
  position (tracked p s) = position s /\
  entry_date (tracked p s) = entry_date s /\
  entry_price (tracked p s) = entry_price s /\
  cash (tracked p s) = cash s /\
  trades (tracked p s) = trades s /\
  equity_curve (tracked p s) = equity_curve s.
Proof.
  unfold tracked, track_highest.
  destruct (0 <? position s)%Z; repeat split.
Qed.

Lemma position_inv_tracked p s : position_inv s -> position_inv (tracked p s).
Proof.
  unfold position_inv.
  destruct (tracked_fields p s) as (-> & -> & -> & _). auto.
Qed.

Lemma position_inv_sold d p r s : position_inv s -> position_inv (sold d p r s).
Proof.
  unfold sold, _sell. destruct (position s <=? 0)%Z; [auto|].
  intros _. unfold position_inv; cbn.
  repeat split; intros; try lia; try congruence.
Qed.

Lemma position_inv_bought d p f shares s :
  (0 < shares)%Z -> ~ f == 0 -> position_inv (bought d p f shares s).
Proof.
  intros Hpos Hf. unfold position_inv; cbn.
  repeat split; intros; try lia; try congruence; auto.
Qed.

Lemma position_inv_recorded d p s :
  position_inv s -> position_inv (recorded d p s).
Proof. auto. Qed.

Lemma position_inv_bar strategy signals i row s :
  position_inv s -> position_inv (snd (run_bar strategy signals i row s)).
Proof.
  apply run_bar_preserves.
  - intros; apply position_inv_tracked; assumption.
  - intros; apply position_inv_sold; assumption.
  - intros; apply position_inv_bought; assumption.
  - intros; apply position_inv_recorded; assumption.
Qed.

Lemma position_inv_loop strategy signals rows : forall i s,
  position_inv s -> position_inv (snd (run_loop strategy signals i rows s)).
Proof.
  induction rows as [|row rows IH]; intros i s H; [exact H|].
  rewrite run_loop_cons.
  pose proof (position_inv_bar strategy signals i row s H) as Hb.
  destruct (run_bar strategy signals i row s) as [[[]|e] s1]; cbn [snd] in *.
  - apply IH, Hb.
  - exact Hb.
Qed.

Lemma position_inv_reset bt : position_inv (snd (_reset bt)).
Proof.
  unfold position_inv; cbn. repeat split; intros; try lia; congruence.
Qed.

(** *** The ledger *)

(** Each trade ends no later than the next one begins. *)
Fixpoint ledger_ordered (l : list Trade.t) : Prop :=
  match l with
  | t1 :: rest =>
      match rest with
      | t2 :: _ =>
          (exists d, Trade.entry_date t2 = Some d /\ (Trade.exit_date t1 <= d)%Z)
          /\ ledger_ordered rest
      | [] => True
      end
  | [] => True
  end.

Lemma ledger_ordered_snoc (l : list Trade.t) (t : Trade.t) (d : datetime) :
  ledger_ordered l ->
  Forall (fun t1 => (Trade.exit_date t1 <= d)%Z) l ->
  Trade.entry_date t = Some d ->
  ledger_ordered (l ++ [t]).
Proof.
  intros Hord Hall Hd. induction l as [|t1 l IH]; [exact I|].
  inversion Hall as [|? ? H1 Hrest]; subst.
  destruct l as [|t2 l'].
  - cbn. split; [|exact I]. exists d. auto.
  - cbn in Hord |- *. destruct Hord as (H12 & Hord). split; [exact H12|].
    apply IH; assumption.
Qed.

Lemma ledger_ordered_nth (l : list Trade.t) :
  ledger_ordered l ->
  forall k t1 t2,
    nth_error l k = Some t1 -> nth_error l (S k) = Some t2 ->
    exists d, Trade.entry_date t2 = Some d /\ (Trade.exit_date t1 <= d)%Z.
Proof.
  induction l as [|a l IH]; intros Hord k t1 t2 H1 H2.
  - destruct k; discriminate.
  - destruct l as [|b l']; [destruct k; discriminate|].
    cbn in Hord. destruct Hord as (Hab & Hord).
    destruct k as [|k].
    + cbn in H1, H2. injection H1 as <-. injection H2 as <-. exact Hab.
    + apply (IH Hord k); assumption.
Qed.

(** At time [now]: the ledger is ordered, every trade is over, and an open
    position was entered after every trade on the ledger. *)
Definition ledger_inv (now : datetime) (s : Backtester) : Prop :=
  ledger_ordered (trades s) /\
  Forall (fun t => (Trade.exit_date t <= now)%Z) (trades s) /\
  (forall d, entry_date s = Some d ->
             (d <= now)%Z /\
             Forall (fun t => (Trade.exit_date t <= d)%Z) (trades s)).

Definition engine_inv (now : datetime) (s : Backtester) : Prop :=
  position_inv s /\ ledger_inv now s.

Lemma Forall_exit_le (l : list Trade.t) (a b : datetime) :
  (a <= b)%Z ->
  Forall (fun t => (Trade.exit_date t <= a)%Z) l ->
  Forall (fun t => (Trade.exit_date t <= b)%Z) l.
Proof. intros Hab. apply Forall_impl. intros t Ht. lia. Qed.

Lemma engine_inv_later (a b : datetime) s :
  (a <= b)%Z -> engine_inv a s -> engine_inv b s.
Proof.
  intros Hab (Hp & Ho & Hall & He). split; [exact Hp|].
  split; [exact Ho|]. split; [apply (Forall_exit_le _ a b Hab Hall)|].
  intros d Hd. destruct (He d Hd). split; [lia | assumption].
Qed.

Lemma engine_inv_tracked now p s : engine_inv now s -> engine_inv now (tracked p s).
Proof.
  intros (Hp & Hl). split; [apply position_inv_tracked, Hp|].
  unfold ledger_inv in *.
  destruct (tracked_fields p s) as (_ & -> & _ & _ & -> & _). exact Hl.
Qed.

Lemma engine_inv_recorded now d p s :
  engine_inv now s -> engine_inv now (recorded d p s).
Proof. auto. Qed.

Lemma engine_inv_sold now p r s :
  engine_inv now s -> engine_inv now (sold now p r s).
Proof.
  intros Hinv. pose proof Hinv as ((Hnn & Hiff & Hep) & Ho & Hall & He).
  split; [apply position_inv_sold, Hinv|].
  unfold sold, _sell. destruct (position s <=? 0)%Z eqn:Hpos; [apply Hinv|].
  apply Z.leb_gt in Hpos. cbn.
  destruct (entry_date s) as [d|] eqn:Hd;
    [|exfalso; apply (proj1 Hiff Hpos); reflexivity].
  destruct (He d eq_refl) as (Hdn & Hbefore).
  unfold ledger_inv; cbn. split; [|split].
  - apply (ledger_ordered_snoc _ _ d); auto.
  - apply Forall_app. split; [exact Hall|]. constructor; [cbn; lia | constructor].
  - intros d' [=].
Qed.

Lemma engine_inv_bought now p f shares s :
  (0 < shares)%Z -> ~ f == 0 ->
  engine_inv now s -> engine_inv now (bought now p f shares s).
Proof.
  intros Hpos Hf (_ & Ho & Hall & _).
  split; [apply position_inv_bought; assumption|].
  unfold ledger_inv; cbn. split; [exact Ho|]. split; [exact Hall|].
  intros d [= <-]. split; [lia | exact Hall].
Qed.

Lemma engine_inv_bar strategy signals i row now s :
  (now <= timestamp row)%Z ->
  engine_inv now s ->
  engine_inv (timestamp row) (snd (run_bar strategy signals i row s)).
Proof.
  intros Hnow Hinv. apply (engine_inv_later _ _ _ Hnow) in Hinv.
  revert s Hinv. apply run_bar_preserves.
  - intros; apply engine_inv_tracked; assumption.
  - intros; apply engine_inv_sold; assumption.
  - intros; apply engine_inv_bought; assumption.
  - intros; apply engine_inv_recorded; assumption.
Qed.

(** Timestamps that never go back. *)
Definition chronological (rows : DataFrame) : Prop :=
  Sorted Z.le (map timestamp rows).

Lemma chronological_cons row rows :
  chronological (row :: rows) ->
  chronological rows /\ Forall (fun r => (timestamp row <= timestamp r)%Z) rows.
Proof.
  unfold chronological. cbn. intros H.
  apply Sorted_StronglySorted in H; [|intros x y z; lia].
  inversion H as [|? ? Hs Hall]; subst. split.
  - apply StronglySorted_Sorted, Hs.
  - rewrite Forall_map in Hall. exact Hall.
Qed.

Lemma last_cons_default {A : Type} (l : list A) : forall (a d : A),
  last (a :: l) d = last l a.
Proof.
  induction l as [|b l IH]; intros a d; [reflexivity|].
  change (last (a :: b :: l) d) with (last (b :: l) d).
  rewrite (IH b d), (IH b a). reflexivity.
Qed.

(** After a completed loop the invariant holds at the time of the last
    bar. *)
Lemma engine_inv_loop strategy signals rows : forall i now s s',
  chronological rows ->
  Forall (fun r => (now <= timestamp r)%Z) rows ->
  engine_inv now s ->
  run_loop strategy signals i rows s = (Ok tt, s') ->
  engine_inv (last (map timestamp rows) now) s'.
Proof.
  induction rows as [|row rows IH]; intros i now s s' Hchr Hge Hinv Hrun.
  - cbn in Hrun. injection Hrun as <-. exact Hinv.
  - apply chronological_cons in Hchr. destruct Hchr as (Hchr & Hrow).
    inversion Hge as [|? ? Hnow _]; subst.
    pose proof (engine_inv_bar strategy signals i row now s Hnow Hinv) as Hb.
    rewrite run_loop_cons in Hrun.
    destruct (run_bar strategy signals i row s) as [[[]|e] s1];
      [|discriminate].
    cbn [snd] in Hb. cbn [map]. rewrite last_cons_default.
    apply (IH (S i) (timestamp row) s1 s' Hchr Hrow Hb Hrun).
Qed.

(** *** No bar writes an end-of-data trade *)

Definition no_end_of_data (s : Backtester) : Prop :=
  Forall (fun t => Trade.exit_reason t <> end_of_data) (trades s).

Lemma no_end_of_data_bar strategy signals i row s :
  no_end_of_data s -> no_end_of_data (snd (run_bar strategy signals i row s)).
Proof.
  apply run_bar_preserves; unfold no_end_of_data.
  - intros x Hx. destruct (tracked_fields (close row) x) as (_ & _ & _ & _ & -> & _).
    exact Hx.
  - intros x r Hr Hx. unfold sold, _sell.
    destruct (position x <=? 0)%Z; [exact Hx|]. cbn.
    apply Forall_app. split; [exact Hx|]. constructor; [exact Hr | constructor].
  - intros x shares _ _ Hx. exact Hx.
  - intros x Hx. exact Hx.
Qed.

Lemma no_end_of_data_loop strategy signals rows : forall i s,
  no_end_of_data s -> no_end_of_data (snd (run_loop strategy signals i rows s)).
Proof.
  induction rows as [|row rows IH]; intros i s H; [exact H|].
  rewrite run_loop_cons.
  pose proof (no_end_of_data_bar strategy signals i row s H) as Hb.
  destruct (run_bar strategy signals i row s) as [[[]|e] s1]; cbn [snd] in *.
  - apply IH, Hb.
  - exact Hb.
Qed.

(* ================================================================= *)
(** ** The forced close *)

Lemma nth_error_last {A : Type} (l : list A) (d : A) :
  l <> [] -> nth_error l (length l - 1) = Some (last l d).
Proof.
  induction l as [|a l IH]; intros Hne; [congruence|].
  destruct l as [|b l']; [reflexivity|].
  change (last (a :: b :: l') d) with (last (b :: l') d).
  rewrite <- IH by discriminate. cbn [length].
  replace (S (S (length l')) - 1)%nat with (S (S (length l') - 1)) by lia.
  reflexivity.
Qed.

Lemma iloc_last_ok {A : Type} (l : list A) (d : A) :
  l <> [] -> iloc_last l = Ok (last l d).
Proof. intros H. unfold iloc_last. apply iloc_nth, nth_error_last, H. Qed.

Lemma iloc_last_nil {A : Type} : iloc_last (@nil A) = Raise IndexError.
Proof. reflexivity. Qed.

Lemma last_map {A B : Type} (f : A -> B) (l : list A) (d : A) :
  last (map f l) (f d) = f (last l d).
Proof.
  induction l as [|a l IH]; [reflexivity|].
  destruct l as [|b l']; [reflexivity|]. exact IH.
Qed.

Lemma close_at_end_flat data s :
  (position s <= 0)%Z -> close_at_end data s = (Ok tt, s).
Proof.
  intros H. unfold close_at_end, bind, gets.
  rewrite (proj2 (Z.ltb_ge 0 (position s)) H). reflexivity.
Qed.

Lemma close_at_end_open data s row0 :
  (0 < position s)%Z -> data <> [] ->
  close_at_end data s =
  (Ok tt,
   sold (timestamp (last data row0)) (close (last data row0)) end_of_data s).
Proof.
  intros Hpos Hne. unfold close_at_end, bind, gets, lift.
  rewrite (proj2 (Z.ltb_lt 0 (position s)) Hpos).
  rewrite (iloc_last_ok (map close data) (close row0))
    by (destruct data; [congruence | discriminate]).
  rewrite (iloc_last_ok (map timestamp data) (timestamp row0))
    by (destruct data; [congruence | discriminate]).
  rewrite !last_map.
  unfold sold, _sell.
  rewrite (proj2 (Z.leb_gt (position s) 0) Hpos). reflexivity.
Qed.

Lemma close_at_end_config data s : same_config s (snd (close_at_end data s)).
Proof.
  destruct (Z_lt_le_dec 0 (position s)) as [Hpos|Hpos].
  - destruct data as [|row0 rest].
    + unfold close_at_end, bind, gets, lift.
      rewrite (proj2 (Z.ltb_lt 0 (position s)) Hpos). cbn.
      apply same_config_refl.
    + rewrite (close_at_end_open _ _ row0 Hpos) by discriminate.
      apply sold_config.
  - rewrite (close_at_end_flat _ _ Hpos). apply same_config_refl.
Qed.

(** The state that the loop starts from. *)
Definition reset (bt : Backtester) : Backtester := snd (_reset bt).

Lemma reset_eq bt : _reset bt = (Ok tt, reset bt).
Proof. reflexivity. Qed.

Lemma reset_same_config a b : same_config a b -> reset a = reset b.
Proof.
  intros (H1 & H2 & H3). unfold reset, _reset; cbn.
  rewrite H1, H2, H3. reflexivity.
Qed.

Lemma reset_config bt : same_config bt (reset bt).
Proof. repeat split. Qed.

(** A position held after the loop was opened by one of its bars. *)
Lemma run_loop_flat_nil strategy signals i s s' :
  run_loop strategy signals i [] s = (Ok tt, s') -> s' = s.
Proof. cbn. unfold ret. congruence. Qed.

(* ================================================================= *)
(** ** The run as a whole *)

Section RunProperties.

Variable np_sqrt : Q -> Q.
Variable np_power : xfloat -> Q -> xfloat.

#[local] Abbreviation calculate_metrics' := (calculate_metrics np_sqrt np_power).
#[local] Abbreviation run' := (run np_sqrt np_power).

(** The benchmark curve, which reads the object but does not change it. *)
Definition benchmark_curve_pure (benchmark : option DataFrame) (cash0 : Q)
  (equity_series : Series) : outcome (option Series) :=
  match benchmark with
  | None => Ok None
  | Some b =>
      first_close <-- iloc_first (map close b) ;;;
      first <-- iloc_first (index equity_series) ;;;
      last <-- iloc_last (index equity_series) ;;;
      Ok (Some (loc_slice (scale_benchmark b first_close cash0) first last))
  end.

Lemma benchmark_curve_of_eq benchmark equity_series s :
  benchmark_curve_of benchmark equity_series s =
  (benchmark_curve_pure benchmark (initial_cash s) equity_series, s).
Proof.
  unfold benchmark_curve_of, benchmark_curve_pure.
  destruct benchmark as [b|]; [|reflexivity].
  unfold bind, lift, gets, obind, ret.
  destruct (iloc_first (map close b)); [|reflexivity].
  destruct (iloc_first (index equity_series)); [|reflexivity].
  destruct (iloc_last (index equity_series)); reflexivity.
Qed.

(** Step 4 of [run] on the state left by steps 1 to 3. *)
Definition report_outcome (strategy : Strategy) (data : DataFrame)
  (benchmark : option DataFrame) (s : Backtester) : outcome BacktestResult.t :=
  let equity_series := to_series (equity_curve s) in
  benchmark_curve <--
    benchmark_curve_pure benchmark (initial_cash s) equity_series ;;;
  metrics <-- calculate_metrics' equity_series (trades s) benchmark_curve ;;;
  Ok {| BacktestResult.strategy := strategy;
        BacktestResult.equity_curve := equity_series;
        BacktestResult.trades := trades s;
        BacktestResult.metrics := metrics;
        BacktestResult.signals := generate_signals strategy data |}.

(** [run] is the loop from the reset state, the forced close, and the
    report; only the first two change the object. *)
Lemma run_unfold strategy data benchmark bt :
  run' strategy data benchmark bt =
  match run_loop strategy (generate_signals strategy data) 0 data (reset bt) with
  | (Ok _, s1) =>
      match close_at_end data s1 with
      | (Ok _, s2) => (report_outcome strategy data benchmark s2, s2)
      | (Raise e, s2) => (Raise e, s2)
      end
  | (Raise e, s1) => (Raise e, s1)
  end.
Proof.
  unfold run, bind at 1. rewrite reset_eq.
  unfold bind at 1.
  destruct (run_loop _ _ _ _ _) as [[[]|e] s1]; [|reflexivity].
  unfold bind at 1.
  destruct (close_at_end data s1) as [[[]|e] s2]; [|reflexivity].
  unfold bind, gets, lift, ret, report_outcome, obind.
  rewrite benchmark_curve_of_eq.
  destruct (benchmark_curve_pure _ _ _) as [bc|e]; [|reflexivity].
  destruct (calculate_metrics' _ _ _); reflexivity.
Qed.

Lemma run_config strategy data benchmark bt :
  same_config bt (snd (run' strategy data benchmark bt)).
Proof.
  rewrite run_unfold.
  pose proof (run_loop_config strategy (generate_signals strategy data) data 0
                (reset bt)) as Hl.
  destruct (run_loop _ _ _ _ _) as [[[]|e] s1]; cbn [snd] in *.
  - pose proof (close_at_end_config data s1) as Hc.
    destruct (close_at_end data s1) as [[[]|e] s2]; cbn [snd] in *;
      (eapply same_config_trans; [apply reset_config|]);
      (eapply same_config_trans; [exact Hl | exact Hc]).
  - eapply same_config_trans; [apply reset_config | exact Hl].
Qed.

Lemma run_same_config strategy data benchmark a b :
  same_config a b ->
  run' strategy data benchmark a = run' strategy data benchmark b.
Proof.
  intros H. rewrite !run_unfold, (reset_same_config _ _ H). reflexivity.
Qed.

(** C9. [run] starts by putting cash, position, entry fields, highest
    price, ledger and curve back to their initial values, so a second call
    on the same object, with the same strategy, data and benchmark and no
    reset in between, returns what the first call returned (trades, equity
    curve, metrics) and leaves the object in the same state. *)
Theorem run_twice_same_result
  (strategy : Strategy) (data : DataFrame) (benchmark : option DataFrame)
  (bt : Backtester) :
  let first_run := run' strategy data benchmark bt in
  let second_run := run' strategy data benchmark (snd first_run) in
  fst second_run = fst first_run /\
  snd second_run = snd first_run /\
  reset (snd first_run) = reset bt /\
  reset bt =
    {| initial_cash := initial_cash bt;
       commission := commission bt;
       slippage := slippage bt;
       cash := initial_cash bt;
       position := 0;
       entry_price := 0;
       entry_date := None;
       highest_price := 0;
       trades := [];
       equity_curve := [] |}.
Proof.
  cbv zeta.
  pose proof (run_config strategy data benchmark bt) as Hc.
  assert (Hsame : same_config (snd (run' strategy data benchmark bt)) bt).
  { destruct Hc as (H1 & H2 & H3). repeat split; congruence. }
  rewrite (run_same_config strategy data benchmark _ _ Hsame).
  repeat split. apply reset_same_config, Hsame.
Qed.

(** *** The metrics of a non-empty curve *)

Lemma iloc_first_ok {A : Type} (l : list A) (d : A) :
  l <> [] -> iloc_first l = Ok (hd d l).
Proof. destruct l; [congruence | reflexivity]. Qed.

Lemma map_not_nil {A B : Type} (f : A -> B) (l : list A) :
  l <> [] -> map f l <> [].
Proof. destruct l; [congruence | discriminate]. Qed.

Lemma total_return_ok (curve : Series) :
  curve <> [] ->
  total_return curve =
  Ok (xmul (xsub (xdiv (last (values curve) NaN) (hd NaN (values curve)))
                 (Fin 1))
           (Fin 100)).
Proof.
  intros H. unfold total_return, obind.
  rewrite (iloc_last_ok _ NaN) by (apply map_not_nil, H).
  rewrite (iloc_first_ok _ NaN) by (apply map_not_nil, H).
  reflexivity.
Qed.

Lemma total_return_nil : total_return [] = Raise IndexError.
Proof. reflexivity. Qed.

Lemma cagr_ok (curve : Series) :
  curve <> [] -> exists v, cagr np_power curve = Ok v.
Proof.
  intros H. unfold cagr, obind.
  rewrite (iloc_last_ok _ 0%Z) by (apply map_not_nil, H).
  rewrite (iloc_first_ok _ 0%Z) by (apply map_not_nil, H).
  destruct (Qle_bool _ 0); [eexists; reflexivity|].
  rewrite (iloc_last_ok _ NaN) by (apply map_not_nil, H).
  rewrite (iloc_first_ok _ NaN) by (apply map_not_nil, H).
  eexists; reflexivity.
Qed.

Lemma calmar_ratio_ok (curve : Series) :
  curve <> [] -> exists v, calmar_ratio np_power curve = Ok v.
Proof.
  intros H. unfold calmar_ratio, obind.
  destruct (cagr_ok curve H) as (c & ->).
  destruct (xeqb _ (Fin 0)); eexists; reflexivity.
Qed.

Lemma calculate_metrics_ok (curve : Series) (tr : list Trade.t)
  (bc : option Series) :
  curve <> [] ->
  match bc with Some c => c <> [] | None => True end ->
  exists m, calculate_metrics' curve tr bc = Ok m.
Proof.
  intros H Hbc. unfold calculate_metrics, obind.
  rewrite (total_return_ok curve H).
  destruct (cagr_ok curve H) as (c & ->).
  destruct (calmar_ratio_ok curve H) as (k & ->).
  rewrite (iloc_first_ok _ 0%Z) by (apply map_not_nil, H).
  rewrite (iloc_last_ok _ 0%Z) by (apply map_not_nil, H).
  destruct bc as [b|].
  - rewrite (total_return_ok b Hbc). eexists; reflexivity.
  - eexists; reflexivity.
Qed.

(** What a returned metrics record holds in the fields studied below. *)
Lemma calculate_metrics_inv (curve : Series) (tr : list Trade.t)
  (bc : option Series) (m : BacktestMetrics.t) :
  calculate_metrics' curve tr bc = Ok m ->
  total_return curve = Ok (BacktestMetrics.total_return m) /\
  match bc with
  | Some c =>
      total_return c = Ok (BacktestMetrics.benchmark_return m) /\
      BacktestMetrics.excess_return m =
        xsub (BacktestMetrics.total_return m) (BacktestMetrics.benchmark_return m)
  | None =>
      BacktestMetrics.benchmark_return m = Fin 0 /\
      BacktestMetrics.excess_return m = Fin 0
  end /\
  BacktestMetrics.sharpe_ratio m =
    sharpe_ratio np_sqrt (dropna (pct_change (values curve)))
      default_risk_free_rate /\
  BacktestMetrics.sortino_ratio m =
    sortino_ratio np_sqrt (dropna (pct_change (values curve)))
      default_risk_free_rate /\
  BacktestMetrics.total_trades m = length tr /\
  BacktestMetrics.trading_days m = length curve.
Proof.
  unfold calculate_metrics, obind.
  destruct (total_return curve) as [tot|e]; [|discriminate].
  destruct (cagr np_power curve) as [c|e]; [|discriminate].
  destruct bc as [b|].
  - destruct (total_return b) as [bt|e]; [|discriminate].
    destruct (calmar_ratio np_power curve) as [k|e]; [|discriminate].
    destruct (iloc_first (index curve)); [|discriminate].
    destruct (iloc_last (index curve)); [|discriminate].
    intros [= <-]. cbn. repeat split.
    unfold analyze_trades. destruct (length tr =? 0)%nat eqn:E; cbn; [|reflexivity].
    apply Nat.eqb_eq in E. congruence.
  - destruct (calmar_ratio np_power curve) as [k|e]; [|discriminate].
    destruct (iloc_first (index curve)); [|discriminate].
    destruct (iloc_last (index curve)); [|discriminate].
    intros [= <-]. cbn. repeat split.
    unfold analyze_trades. destruct (length tr =? 0)%nat eqn:E; cbn; [|reflexivity].
    apply Nat.eqb_eq in E. congruence.
Qed.

Lemma to_series_not_nil (curve : list (datetime * Q)) :
  curve <> [] -> to_series curve <> [].
Proof. apply map_not_nil. Qed.

Lemma index_to_series (curve : list (datetime * Q)) :
  index (to_series curve) = map fst curve.
Proof. unfold index, to_series. rewrite map_map. reflexivity. Qed.

(** The report on a non-empty curve without benchmark always returns. *)
Lemma report_ok_none strategy data s :
  equity_curve s <> [] ->
  exists r, report_outcome strategy data None s = Ok r.
Proof.
  intros H. unfold report_outcome, benchmark_curve_pure, obind.
  destruct (calculate_metrics_ok (to_series (equity_curve s)) (trades s) None)
    as (m & ->); [apply to_series_not_nil, H | exact I |].
  eexists; reflexivity.
Qed.

Lemma report_inv strategy data benchmark s r :
  report_outcome strategy data benchmark s = Ok r ->
  BacktestResult.trades r = trades s /\
  BacktestResult.equity_curve r = to_series (equity_curve s) /\
  exists bc,
    benchmark_curve_pure benchmark (initial_cash s) (to_series (equity_curve s))
      = Ok bc /\
    calculate_metrics' (to_series (equity_curve s)) (trades s) bc
      = Ok (BacktestResult.metrics r).
Proof.
  unfold report_outcome, obind.
  destruct (benchmark_curve_pure _ _ _) as [bc|e]; [|discriminate].
  destruct (calculate_metrics' _ _ bc) as [m|e] eqn:Hm; [|discriminate].
  intros [= <-]. cbn. repeat split. exists bc. split; [reflexivity | exact Hm].
Qed.

(** *** After a completed loop *)

Lemma loop_open_not_nil strategy signals i data s s1 :
  (position s <= 0)%Z ->
  run_loop strategy signals i data s = (Ok tt, s1) ->
  (0 < position s1)%Z -> data <> [].
Proof.
  intros Hflat Hrun Hpos ->. apply run_loop_flat_nil in Hrun. subst. lia.
Qed.

Lemma run_after_loop strategy data benchmark bt s1 :
  run_loop strategy (generate_signals strategy data) 0 data (reset bt)
    = (Ok tt, s1) ->
  exists s2,
    close_at_end data s1 = (Ok tt, s2) /\
    run' strategy data benchmark bt =
      (report_outcome strategy data benchmark s2, s2) /\
    ((position s1 <= 0)%Z -> s2 = s1) /\
    ((0 < position s1)%Z ->
     exists front row,
       data = front ++ [row] /\
       s2 = sold (timestamp row) (close row) end_of_data s1).
Proof.
  intros Hrun. rewrite run_unfold, Hrun.
  destruct (Z_lt_le_dec 0 (position s1)) as [Hpos|Hpos].
  - assert (Hne : data <> []).
    { eapply (loop_open_not_nil _ _ _ _ (reset bt) s1);
        [cbn; lia | exact Hrun | exact Hpos]. }
    destruct (exists_last Hne) as (front & row & Hdata).
    rewrite (close_at_end_open data s1 row Hpos Hne).
    eexists. split; [reflexivity|]. split; [reflexivity|].
    split; [lia|]. intros _. exists front, row. split; [exact Hdata|].
    rewrite Hdata, last_last. reflexivity.
  - rewrite (close_at_end_flat data s1 Hpos).
    exists s1. split; [reflexivity|]. split; [reflexivity|].
    split; [reflexivity | lia].
Qed.

Lemma loop_curve_not_nil strategy data bt s1 :
  run_loop strategy (generate_signals strategy data) 0 data (reset bt)
    = (Ok tt, s1) ->
  data <> [] -> equity_curve s1 <> [].
Proof.
  intros Hrun Hne Hnil.
  apply run_loop_equity_dates in Hrun. rewrite Hnil in Hrun. cbn in Hrun.
  destruct data; [congruence | discriminate].
Qed.

Lemma sold_equity_curve d p r s : equity_curve (sold d p r s) = equity_curve s.
Proof. unfold sold, _sell. destruct (position s <=? 0)%Z; reflexivity. Qed.

(** C4. When the loop has run through all bars and a position is still
    open, the run appends exactly one trade marked [end_of_data] (no bar of
    the loop writes such a trade), dated at the final bar and filled from
    the final close as every sell is, and ends with no shares; when no
    position is open the ledger is left as the loop wrote it.  The ledger
    of the result is the ledger of the object. *)
Theorem forced_close_at_end_of_data
  (strategy : Strategy) (data : DataFrame) (benchmark : option DataFrame)
  (bt s1 : Backtester) :
  run_loop strategy (generate_signals strategy data) 0 data (reset bt)
    = (Ok tt, s1) ->
  let out := run' strategy data benchmark bt in
  (forall r, fst out = Ok r -> BacktestResult.trades r = trades (snd out)) /\
  (benchmark = None -> data <> [] -> exists r, fst out = Ok r) /\
  position (snd out) = 0%Z /\
  Forall (fun t => Trade.exit_reason t <> end_of_data) (trades s1) /\
  ((0 < position s1)%Z ->
   exists front row t,
     data = front ++ [row] /\
     trades (snd out) = trades s1 ++ [t] /\
     Trade.exit_reason t = end_of_data /\
     Trade.exit_date t = timestamp row /\
     Trade.exit_price t = close row * (1 - slippage bt) /\
     Trade.shares t = position s1 /\
     Trade.entry_date t = entry_date s1) /\
  ((position s1 <= 0)%Z -> trades (snd out) = trades s1).
Proof.
  intros Hrun out.
  destruct (run_after_loop strategy data benchmark bt s1 Hrun)
    as (s2 & Hclose & Hout & Hflat & Hopen).
  assert (Hinv : position_inv s1).
  { pose proof (position_inv_loop strategy (generate_signals strategy data)
                  data 0 (reset bt) (position_inv_reset bt)) as H.
    rewrite Hrun in H. exact H. }
  assert (Hnone : no_end_of_data s1).
  { pose proof (no_end_of_data_loop strategy (generate_signals strategy data)
                  data 0 (reset bt)) as H.
    rewrite Hrun in H. apply H. constructor. }
  assert (Hslip : slippage s1 = slippage bt).
  { pose proof (run_loop_config strategy (generate_signals strategy data)
                  data 0 (reset bt)) as H.
    rewrite Hrun in H. destruct H as (_ & _ & H). symmetry. exact H. }
  unfold out. rewrite Hout. cbn [fst snd].
  split; [|split; [|split; [|split; [|split]]]].
  - intros r Hr. apply report_inv in Hr. apply Hr.
  - intros -> Hne. apply report_ok_none.
    destruct (Z_lt_le_dec 0 (position s1)) as [Hpos|Hpos].
    + destruct (Hopen Hpos) as (front & row & _ & ->).
      rewrite sold_equity_curve.
      apply (loop_curve_not_nil _ _ _ _ Hrun Hne).
    + rewrite (Hflat Hpos). apply (loop_curve_not_nil _ _ _ _ Hrun Hne).
  - destruct (Z_lt_le_dec 0 (position s1)) as [Hpos|Hpos].
    + destruct (Hopen Hpos) as (front & row & _ & ->).
      unfold sold, _sell. rewrite (proj2 (Z.leb_gt _ _) Hpos). reflexivity.
    + rewrite (Hflat Hpos). destruct Hinv as (H0 & _). lia.
  - exact Hnone.
  - intros Hpos. destruct (Hopen Hpos) as (front & row & Hdata & ->).
    unfold sold, _sell. rewrite (proj2 (Z.leb_gt _ _) Hpos). cbn.
    exists front, row. eexists. split; [exact Hdata|].
    split; [reflexivity|]. cbn. rewrite Hslip. repeat split.
  - intros Hpos. rewrite (Hflat Hpos). reflexivity.
Qed.



(** *** One position at a time *)

Lemma sold_open_position d p r s :
  (0 < position s)%Z -> position (sold d p r s) = 0%Z.
Proof.
  intros H. unfold sold, _sell. rewrite (proj2 (Z.leb_gt _ _) H). reflexivity.
Qed.

Lemma bar_result_keeps_or_closes strategy signal row s s' :
  (0 < position s)%Z ->
  bar_result strategy signal row s (Ok tt, s') ->
  position s' = 0%Z \/
  (position s' = position s /\
   entry_date s' = entry_date s /\
   entry_price s' = entry_price s).
Proof.
  intros Hpos H.
  assert (Ht : (0 < position (tracked (close row) s))%Z)
    by (rewrite tracked_position; exact Hpos).
  inversion H; subst.
  - left. cbn. apply sold_open_position, Ht.
  - lia.
  - left. cbn. apply sold_open_position, Ht.
  - right. cbn.
    destruct (tracked_fields (close row) s) as (-> & -> & -> & _).
    repeat split.
Qed.

Lemma engine_inv_reset now bt : engine_inv now (reset bt).
Proof.
  split; [apply position_inv_reset|].
  unfold ledger_inv; cbn. split; [exact I|]. split; [constructor|].
  intros d [=].
Qed.

Lemma chronological_from_first row rest :
  chronological (row :: rest) ->
  Forall (fun r => (timestamp row <= timestamp r)%Z) (row :: rest).
Proof.
  intros H. apply chronological_cons in H. destruct H as (_ & H).
  constructor; [lia | exact H].
Qed.

(** The ledger returned by a run over chronological bars is ordered. *)
Lemma run_ledger_ordered strategy data benchmark bt r :
  chronological data ->
  fst (run' strategy data benchmark bt) = Ok r ->
  ledger_ordered (BacktestResult.trades r).
Proof.
  intros Hchr Hr.
  destruct (run_loop strategy (generate_signals strategy data) 0 data (reset bt))
    as [[[]|e] s1] eqn:Hrun;
    [|rewrite run_unfold, Hrun in Hr; discriminate].
  destruct (run_after_loop _ _ benchmark _ _ Hrun)
    as (s2 & _ & Hout & Hflat & Hopen).
  rewrite Hout in Hr. cbn [fst] in Hr. apply report_inv in Hr.
  destruct Hr as (-> & _).
  destruct data as [|row0 rest] eqn:Hd.
  - apply run_loop_flat_nil in Hrun. subst s1.
    rewrite Hflat by (cbn; lia). exact I.
  - pose proof (engine_inv_loop strategy _ _ 0 (timestamp row0) (reset bt) s1
                  Hchr (chronological_from_first _ _ Hchr)
                  (engine_inv_reset _ bt) Hrun) as Hinv.
    destruct (Z_lt_le_dec 0 (position s1)) as [Hpos|Hpos].
    + destruct (Hopen Hpos) as (front & row & Hdata & ->).
      rewrite Hdata, map_app in Hinv. cbn [map] in Hinv.
      rewrite last_last in Hinv.
      apply (engine_inv_sold _ (close row) end_of_data) in Hinv.
      apply Hinv.
    + rewrite (Hflat Hpos). apply Hinv.
Qed.

(** C5, as the code has it.  For every input: after every bar of the run
    the share count is not negative and is positive exactly when a
    position is on record; a bar that starts with a position open either
    closes it or leaves that same position (shares, entry date, entry
    price) in place, so no second position is opened on top of it.  When
    the timestamps of the bars never go back, every trade of the returned
    ledger ends no later than the next one begins; the run itself does not
    look at the order of the timestamps. *)
Theorem single_position_and_ordered_ledger
  (strategy : Strategy) (data : DataFrame) (benchmark : option DataFrame)
  (bt : Backtester) :
  let signals := generate_signals strategy data in
  (forall pre post s,
      data = pre ++ post ->
      run_loop strategy signals 0 pre (reset bt) = (Ok tt, s) ->
      (0 <= position s)%Z /\
      ((0 < position s)%Z <-> entry_date s <> None) /\
      (forall row rest s',
          post = row :: rest ->
          run_bar strategy signals (length pre) row s = (Ok tt, s') ->
          (0 < position s)%Z ->
          position s' = 0%Z \/
          (position s' = position s /\
           entry_date s' = entry_date s /\
           entry_price s' = entry_price s))) /\
  (chronological data ->
   forall r,
      fst (run' strategy data benchmark bt) = Ok r ->
      forall k t1 t2,
        nth_error (BacktestResult.trades r) k = Some t1 ->
        nth_error (BacktestResult.trades r) (S k) = Some t2 ->
        exists d,
          Trade.entry_date t2 = Some d /\ (Trade.exit_date t1 <= d)%Z).
Proof.
  intros signals. split.
  - intros pre post s _ Hrun.
    pose proof (position_inv_loop strategy signals pre 0 (reset bt)
                  (position_inv_reset bt)) as Hinv.
    rewrite Hrun in Hinv. destruct Hinv as (H0 & Hiff & _).
    split; [exact H0|]. split; [exact Hiff|].
    intros row rest s' _ Hbar Hpos.
    apply run_bar_ok_inv in Hbar. destruct Hbar as (signal & _ & Hres).
    apply (bar_result_keeps_or_closes _ _ _ _ _ Hpos Hres).
  - intros Hchr r Hr. apply ledger_ordered_nth.
    apply (run_ledger_ordered _ _ _ _ _ Hchr Hr).
Qed.

(** *** Runs that only hold *)

Lemma hold_bar strategy signals i row s :
  position s = 0%Z ->
  nth_error signals i = Some HOLD ->
  run_bar strategy signals i row s =
  (Ok tt, recorded (timestamp row) (close row) s).
Proof.
  intros Hpos Hsig. rewrite (run_bar_signal _ _ _ _ _ _ Hsig).
  destruct s; cbn in Hpos; subst. reflexivity.
Qed.

(** The points recorded by bars that leave the engine flat with cash [c]. *)
Definition flat_points (c : Q) (rows : DataFrame) : list (datetime * Q) :=
  map (fun row => (timestamp row, c + inject_Z 0 * close row)) rows.

Lemma hold_loop strategy signals rows : forall i s,
  position s = 0%Z ->
  (forall j, (i <= j < i + length rows)%nat -> nth_error signals j = Some HOLD) ->
  exists s',
    run_loop strategy signals i rows s = (Ok tt, s') /\
    position s' = 0%Z /\
    entry_date s' = entry_date s /\
    trades s' = trades s /\
    cash s' = cash s /\
    equity_curve s' = equity_curve s ++ flat_points (cash s) rows.
Proof.
  induction rows as [|row rows IH]; intros i s Hpos Hsig.
  - exists s. cbn. rewrite app_nil_r. repeat split. exact Hpos.
  - rewrite run_loop_cons, (hold_bar _ _ _ _ _ Hpos)
      by (apply Hsig; cbn; lia).
    destruct (IH (S i) (recorded (timestamp row) (close row) s)) as
      (s' & Hrun & H1 & H2 & H3 & H4 & H5).
    + exact Hpos.
    + intros j Hj. apply Hsig. cbn. lia.
    + exists s'. split; [exact Hrun|]. split; [exact H1|].
      split; [exact H2|]. split; [exact H3|]. split; [exact H4|].
      rewrite H5. cbn. rewrite Hpos, <- app_assoc. reflexivity.
Qed.

Lemma all_hold_nth (signals : list Z) (n : nat) :
  length signals = n ->
  Forall (fun sg => sg = HOLD) signals ->
  forall j, (j < n)%nat -> nth_error signals j = Some HOLD.
Proof.
  intros Hlen Hall j Hj.
  destruct (nth_error signals j) as [sg|] eqn:E.
  - apply nth_error_In in E. rewrite Forall_forall in Hall.
    rewrite (Hall sg E). reflexivity.
  - apply nth_error_None in E. lia.
Qed.

Lemma Forall_last {A : Type} (P : A -> Prop) (l : list A) (d : A) :
  l <> [] -> Forall P l -> P (last l d).
Proof.
  intros Hne Hall. destruct (exists_last Hne) as (front & a & ->).
  rewrite last_last. apply Forall_app in Hall. destruct Hall as (_ & Ha).
  inversion Ha; assumption.
Qed.

Lemma Forall_hd {A : Type} (P : A -> Prop) (l : list A) (d : A) :
  l <> [] -> Forall P l -> P (hd d l).
Proof. intros Hne Hall. destruct l; [congruence|]. inversion Hall; assumption. Qed.

(** A curve whose every value is the finite non-zero [c] has return zero. *)
Lemma total_return_flat (curve : Series) (c : Q) :
  curve <> [] -> ~ c == 0 ->
  Forall (fun p => xequiv (snd p) (Fin c)) curve ->
  exists v, total_return curve = Ok v /\ xequiv v (Fin 0).
Proof.
  intros Hne Hc Hall. rewrite (total_return_ok curve Hne).
  assert (Hv : Forall (fun x => xequiv x (Fin c)) (values curve)).
  { unfold values. rewrite Forall_map. exact Hall. }
  pose proof (Forall_last _ _ NaN (map_not_nil snd curve Hne) Hv) as Hl.
  pose proof (Forall_hd _ _ NaN (map_not_nil snd curve Hne) Hv) as Hh.
  fold (values curve) in Hl, Hh.
  destruct (last (values curve) NaN) as [ql| | |]; try contradiction.
  destruct (hd NaN (values curve)) as [qf| | |]; try contradiction.
  cbn in Hl, Hh.
  assert (Hqf : ~ qf == 0) by (rewrite Hh; exact Hc).
  rewrite (xdiv_fin _ _ Hqf). eexists. split; [reflexivity|].
  cbn. rewrite Hl, Hh. field. exact Hc.
Qed.

Lemma flat_points_flat (c : Q) (rows : DataFrame) :
  Forall (fun p => xequiv (snd p) (Fin c)) (to_series (flat_points c rows)).
Proof.
  unfold to_series, flat_points. rewrite !Forall_map.
  apply Forall_forall. intros row _. cbn. ring.
Qed.

(** C6. When every signal is HOLD (one signal per bar, at least one bar,
    a non-zero initial cash): no bar of the run opens a position, the
    ledger stays empty, the run returns, every point of the equity curve
    equals the initial cash, there is one point per bar, and the total
    return is zero; a benchmark changes none of this in a run that
    returns. *)
Theorem all_hold_run_is_flat
  (strategy : Strategy) (data : DataFrame) (bt : Backtester) :
  data <> [] ->
  ~ initial_cash bt == 0 ->
  length (generate_signals strategy data) = length data ->
  Forall (fun sg => sg = HOLD) (generate_signals strategy data) ->
  let signals := generate_signals strategy data in
  let flat (r : BacktestResult.t) : Prop :=
    BacktestResult.trades r = [] /\
    length (BacktestResult.equity_curve r) = length data /\
    Forall (fun p => xequiv (snd p) (Fin (initial_cash bt)))
           (BacktestResult.equity_curve r) /\
    xequiv (BacktestMetrics.total_return (BacktestResult.metrics r)) (Fin 0) /\
    BacktestMetrics.total_trades (BacktestResult.metrics r) = 0%nat in
  (forall pre post,
      data = pre ++ post ->
      exists s,
        run_loop strategy signals 0 pre (reset bt) = (Ok tt, s) /\
        position s = 0%Z /\ entry_date s = None /\ trades s = []) /\
  (exists r bt',
      run' strategy data None bt = (Ok r, bt') /\
      position bt' = 0%Z /\ trades bt' = [] /\ flat r) /\
  (forall benchmark r,
      fst (run' strategy data benchmark bt) = Ok r -> flat r).
Proof.
  intros Hne Hcash Hlen Hall signals flat.
  pose proof (all_hold_nth _ _ Hlen Hall) as Hnth.
  destruct (hold_loop strategy signals data 0 (reset bt) eq_refl)
    as (s1 & Hrun & Hpos & Hdate & Htrades & Hc & Hcurve).
  { intros j Hj. apply Hnth. lia. }
  cbn in Htrades, Hcurve, Hc, Hdate.
  assert (Hflat : forall benchmark r,
             fst (run' strategy data benchmark bt) = Ok r -> flat r).
  { intros benchmark r Hr.
    destruct (run_after_loop _ _ benchmark _ _ Hrun) as (s2 & _ & Hout & Hs2 & _).
    rewrite Hout in Hr. cbn [fst] in Hr.
    rewrite (Hs2 ltac:(lia)) in Hr.
    apply report_inv in Hr. destruct Hr as (Ht & Hec & bc & _ & Hm).
    apply calculate_metrics_inv in Hm.
    destruct Hm as (Htot & _ & _ & _ & Hnt & _).
    unfold flat. rewrite Ht, Hec, Htrades, Hcurve.
    split; [reflexivity|].
    split; [unfold to_series, flat_points; rewrite !length_map; reflexivity|].
    split; [apply flat_points_flat|].
    split; [|rewrite Hnt, Htrades; reflexivity].
    destruct (total_return_flat (to_series (flat_points (initial_cash bt) data))
                (initial_cash bt)) as (v & Hv & Hv0).
    - apply to_series_not_nil. unfold flat_points. apply map_not_nil, Hne.
    - exact Hcash.
    - apply flat_points_flat.
    - rewrite Hcurve in Htot. rewrite Hv in Htot. injection Htot as <-. exact Hv0. }
  split; [|split; [|exact Hflat]].
  - intros pre post Hdata.
    destruct (hold_loop strategy signals pre 0 (reset bt) eq_refl)
      as (s & Hs & Hp & Hd & Ht & _).
    { intros j Hj. apply Hnth. rewrite Hdata, length_app. lia. }
    exists s. repeat split; assumption.
  - destruct (run_after_loop _ _ None _ _ Hrun) as (s2 & _ & Hout & Hs2 & _).
    rewrite (Hs2 ltac:(lia)) in Hout.
    destruct (report_ok_none strategy data s1) as (r & Hr).
    { rewrite Hcurve. unfold flat_points.
      destruct data; [congruence | discriminate]. }
    exists r, s1. rewrite Hout, Hr.
    split; [reflexivity|]. split; [exact Hpos|]. split; [exact Htrades|].
    apply (Hflat None). rewrite Hout. exact Hr.
Qed.

(** *** What the run does with its input *)

Lemma run_after_loop_curve strategy data benchmark bt s1 :
  run_loop strategy (generate_signals strategy data) 0 data (reset bt)
    = (Ok tt, s1) ->
  exists s2,
    run' strategy data benchmark bt =
      (report_outcome strategy data benchmark s2, s2) /\
    equity_curve s2 = equity_curve s1 /\
    trades s1 = firstn (length (trades s1)) (trades s2) /\
    map fst (equity_curve s2) = map timestamp data /\
    same_config bt s2.
Proof.
  intros Hrun.
  destruct (run_after_loop strategy data benchmark bt s1 Hrun)
    as (s2 & _ & Hout & Hflat & Hopen).
  exists s2. split; [exact Hout|].
  assert (Hcurve : equity_curve s2 = equity_curve s1 /\
                   trades s1 = firstn (length (trades s1)) (trades s2)).
  { destruct (Z_lt_le_dec 0 (position s1)) as [Hpos|Hpos].
    - destruct (Hopen Hpos) as (front & row & _ & ->).
      split; [apply sold_equity_curve|].
      unfold sold, _sell. rewrite (proj2 (Z.leb_gt _ _) Hpos). cbn.
      rewrite firstn_app, Nat.sub_diag, firstn_all. cbn.
      rewrite app_nil_r. reflexivity.
    - rewrite (Hflat Hpos). split; [reflexivity|].
      rewrite firstn_all. reflexivity. }
  destruct Hcurve as (Hcurve & Htr).
  split; [exact Hcurve|]. split; [exact Htr|].
  split.
  - rewrite Hcurve. apply run_loop_equity_dates in Hrun. exact Hrun.
  - pose proof (run_config strategy data benchmark bt) as Hc.
    rewrite Hout in Hc. exact Hc.
Qed.

Lemma report_nil strategy data benchmark s :
  equity_curve s = [] ->
  report_outcome strategy data benchmark s = Raise IndexError.
Proof.
  intros H. unfold report_outcome, benchmark_curve_pure, obind. rewrite H.
  destruct benchmark as [b|]; [|reflexivity].
  destruct (iloc_first (map close b)) as [c|e] eqn:E; [reflexivity|].
  destruct b; cbn in E; [congruence | discriminate].
Qed.

(** C1, as the code has it.  [run] validates none of the three
    preconditions.  (1) Whatever the timestamps of the bars (repeated or
    going back), and with signals at least as many as the bars, a run over
    at least one fillable bar completes and records one equity point per
    bar.  (2) With fewer signals than bars, the bars that have a signal are
    simulated and recorded, and the run then fails with an index error at
    the first bar without one.  (3) With no bar at all the loop does
    nothing and the run fails with an index error in the report, on the
    empty curve. *)
Theorem run_validates_no_precondition
  (strategy : Strategy) (data : DataFrame) (benchmark : option DataFrame)
  (bt : Backtester) :
  let signals := generate_signals strategy data in
  (Forall (fillable (slippage bt)) data ->
   (length data <= length signals)%nat ->
   data <> [] ->
   exists r bt',
     run' strategy data None bt = (Ok r, bt') /\
     map fst (equity_curve bt') = map timestamp data /\
     index (BacktestResult.equity_curve r) = map timestamp data) /\
  (Forall (fillable (slippage bt)) data ->
   (length signals < length data)%nat ->
   exists bt',
     run' strategy data benchmark bt = (Raise IndexError, bt') /\
     map fst (equity_curve bt') =
       map timestamp (firstn (length signals) data)) /\
  (data = [] ->
   run' strategy data benchmark bt = (Raise IndexError, reset bt)).
Proof.
  intros signals. split; [|split].
  - intros Hfill Hlen Hne.
    destruct (run_loop_total strategy signals data 0 (reset bt))
      as (s1 & Hrun); [cbn; lia | exact Hfill |].
    destruct (run_after_loop_curve strategy data None bt s1 Hrun)
      as (s2 & Hout & Hcurve & _ & Hdates & _).
    destruct (report_ok_none strategy data s2) as (r & Hr).
    { intros Hnil. rewrite Hnil in Hdates. cbn in Hdates.
      destruct data; [congruence | discriminate]. }
    exists r, s2. rewrite Hout, Hr. split; [reflexivity|].
    split; [exact Hdates|].
    apply report_inv in Hr. destruct Hr as (_ & -> & _).
    rewrite index_to_series. exact Hdates.
  - intros Hfill Hlen.
    pose proof (firstn_skipn (length signals) data) as Hsplit.
    destruct (skipn (length signals) data) as [|row rest] eqn:Hskip.
    { pose proof (length_skipn (length signals) data) as Hl.
      rewrite Hskip in Hl. cbn in Hl. lia. }
    assert (Hfirst : Forall (fillable (slippage bt)) (firstn (length signals) data)).
    { rewrite <- Hsplit in Hfill. apply Forall_app in Hfill. apply Hfill. }
    assert (Hflen : length (firstn (length signals) data) = length signals).
    { rewrite length_firstn. lia. }
    destruct (run_loop_total strategy signals (firstn (length signals) data) 0
                (reset bt)) as (s1 & Hrun); [lia | exact Hfirst |].
    exists s1. split.
    + assert (Hloop : run_loop strategy signals 0 data (reset bt)
                      = (Raise IndexError, s1)).
      { replace (run_loop strategy signals 0 data (reset bt))
          with (run_loop strategy signals 0
                  (firstn (length signals) data ++ row :: rest) (reset bt))
          by (rewrite Hsplit; reflexivity).
        rewrite run_loop_app, Hrun, Hflen, run_loop_cons.
        rewrite run_bar_no_signal by (cbn; lia). reflexivity. }
      rewrite run_unfold. fold signals. rewrite Hloop. reflexivity.
    + apply run_loop_equity_dates in Hrun. exact Hrun.
  - intros ->. rewrite run_unfold. cbn [run_loop]. unfold ret.
    rewrite close_at_end_flat by (cbn; lia).
    rewrite report_nil by reflexivity. reflexivity.
Qed.

(* ================================================================= *)
(** ** The benchmark *)




Lemma benchmark_curve_some_ok (b_first : Bar) (b_rest : DataFrame) (cash0 : Q)
  (p0 : datetime * Q) (rest : list (datetime * Q)) :
  benchmark_curve_pure (Some (b_first :: b_rest)) cash0 (to_series (p0 :: rest))
  = Ok (Some (loc_slice (scale_benchmark (b_first :: b_rest) (close b_first) cash0)
                (fst p0) (fst (last (p0 :: rest) p0)))).
Proof.
  unfold benchmark_curve_pure, obind.
  cbn [map iloc_first iloc nth_error].
  rewrite index_to_series.
  rewrite (iloc_last_ok _ (fst p0)) by discriminate.
  cbn [map iloc_first iloc nth_error].
  rewrite <- (last_map fst). reflexivity.
Qed.


(* ================================================================= *)
(** ** Degenerate ratios *)

(** A finite zero. *)
Definition fin_zero (x : xfloat) : Prop := xequiv x (Fin 0).

Lemma fin_zero_inv (x : xfloat) : fin_zero x -> exists q, x = Fin q /\ q == 0.
Proof. destruct x as [q| | |]; cbn; try contradiction. intros H. exists q. auto. Qed.

Lemma xeqb_zero_iff (x : xfloat) : xeqb x (Fin 0) = true <-> fin_zero x.
Proof.
  destruct x as [q| | |]; cbn; try (split; [discriminate | contradiction]).
  apply Qeq_bool_iff.
Qed.

Lemma fold_xadd_zero (l : list xfloat) : forall acc,
  Forall fin_zero l -> fin_zero acc -> fin_zero (fold_left xadd l acc).
Proof.
  induction l as [|x l IH]; intros acc Hall Hacc; [exact Hacc|].
  inversion Hall as [|? ? Hx Hl]; subst. cbn [fold_left]. apply IH; [exact Hl|].
  apply fin_zero_inv in Hx. destruct Hx as (q & -> & Hq).
  apply fin_zero_inv in Hacc. destruct Hacc as (a & -> & Ha).
  cbn. rewrite Hq, Ha. ring.
Qed.

Lemma xsum_zero (l : list xfloat) : Forall fin_zero l -> fin_zero (xsum l).
Proof. intros H. apply fold_xadd_zero; [exact H | cbn; reflexivity]. Qed.

Lemma dropna_fin_zero (l : list xfloat) : Forall fin_zero l -> dropna l = l.
Proof.
  induction l as [|x l IH]; intros H; [reflexivity|].
  inversion H as [|? ? Hx Hl]; subst. cbn.
  apply fin_zero_inv in Hx. destruct Hx as (q & -> & _). cbn.
  f_equal. apply IH, Hl.
Qed.

Lemma xof_nat_nonzero (n : nat) : (0 < n)%nat -> ~ inject_Z (Z.of_nat n) == 0.
Proof. intros H. unfold Qeq, inject_Z; cbn. lia. Qed.

Lemma xdiv_zero_nat (x : xfloat) (n : nat) :
  (0 < n)%nat -> fin_zero x -> fin_zero (xdiv x (xof_nat n)).
Proof.
  intros Hn Hx. apply fin_zero_inv in Hx. destruct Hx as (q & -> & Hq).
  unfold xof_nat. rewrite (xdiv_fin _ _ (xof_nat_nonzero n Hn)).
  cbn. rewrite Hq. field. apply xof_nat_nonzero, Hn.
Qed.

(** The sample standard deviation of two or more zeros is zero, as soon as
    the square root of zero is. *)
Lemma series_std_zero (l : list xfloat) :
  (forall q, q == 0 -> np_sqrt q == 0) ->
  (2 <= length l)%nat ->
  Forall fin_zero l ->
  fin_zero (series_std np_sqrt l).
Proof.
  intros Hsqrt Hlen Hall. unfold series_std.
  rewrite (dropna_fin_zero l Hall).
  rewrite (proj2 (Nat.leb_gt (length l) 1)) by lia.
  pose proof (xdiv_zero_nat _ (length l) ltac:(lia) (xsum_zero l Hall)) as Havg.
  apply fin_zero_inv in Havg. destruct Havg as (avg & -> & Havg).
  assert (Hsq : Forall fin_zero
                  (map (fun x => xmul (xsub (Fin avg) x) (xsub (Fin avg) x)) l)).
  { rewrite Forall_map. revert Hall. apply Forall_impl. intros x Hx.
    apply fin_zero_inv in Hx. destruct Hx as (q & -> & Hq).
    cbn. rewrite Hq, Havg. ring. }
  pose proof (xdiv_zero_nat _ (length l - 1) ltac:(lia) (xsum_zero _ Hsq)) as Hvar.
  apply fin_zero_inv in Hvar. destruct Hvar as (v & -> & Hv).
  unfold xsqrt, Qltb.
  rewrite (proj2 (Qle_bool_iff 0 v)) by (rewrite Hv; apply Qle_refl).
  cbn. apply Hsqrt, Hv.
Qed.

Lemma sharpe_ratio_zero_std (returns : list xfloat) (risk_free_rate : Q) :
  fin_zero (series_std np_sqrt returns) ->
  sharpe_ratio np_sqrt returns risk_free_rate = Fin 0.
Proof.
  intros H. apply fin_zero_inv in H. destruct H as (s & Hs & Hs0).
  unfold sharpe_ratio. rewrite Hs. cbn [xmul xeqb].
  rewrite (Qeq_eq_bool (s * np_sqrt 252) 0) by (rewrite Hs0; ring).
  reflexivity.
Qed.

(** The returns of a flat curve at a non-zero level: all zero, one fewer
    than the points. *)
Lemma pct_change_from_flat (c : Q) (l : list xfloat) : forall prev,
  ~ c == 0 ->
  xequiv prev (Fin c) ->
  Forall (fun x => xequiv x (Fin c)) l ->
  Forall fin_zero (pct_change_from prev l) /\
  length (pct_change_from prev l) = length l.
Proof.
  induction l as [|x l IH]; intros prev Hc Hprev Hall.
  - split; [constructor | reflexivity].
  - inversion Hall as [|? ? Hx Hl]; subst.
    destruct (IH x Hc Hx Hl) as (Hz & Hlen).
    cbn [pct_change_from length]. split; [|rewrite Hlen; reflexivity].
    constructor; [|exact Hz].
    destruct x as [q| | |]; try contradiction.
    destruct prev as [p| | |]; try contradiction.
    cbn in Hx, Hprev.
    assert (Hp : ~ p == 0) by (rewrite Hprev; exact Hc).
    rewrite (xdiv_fin _ _ Hp). unfold fin_zero. cbn.
    rewrite Hx, Hprev. field. exact Hc.
Qed.

Lemma flat_curve_returns (c : Q) (curve : Series) :
  ~ c == 0 ->
  Forall (fun p => xequiv (snd p) (Fin c)) curve ->
  Forall fin_zero (dropna (pct_change (values curve))) /\
  length (dropna (pct_change (values curve))) = (length curve - 1)%nat.
Proof.
  intros Hc Hall.
  assert (Hv : Forall (fun x => xequiv x (Fin c)) (values curve)).
  { unfold values. rewrite Forall_map. exact Hall. }
  assert (Hlen : length (values curve) = length curve)
    by (unfold values; apply length_map).
  destruct (values curve) as [|x l]; [cbn in *; split; [constructor | lia]|].
  inversion Hv as [|? ? Hx Hl]; subst.
  destruct (pct_change_from_flat c l x Hc Hx Hl) as (Hz & Hn).
  cbn [pct_change dropna filter is_nan negb].
  fold (dropna (pct_change_from x l)).
  rewrite (dropna_fin_zero _ Hz). split; [exact Hz|].
  rewrite Hn. cbn in Hlen. lia.
Qed.

(** C7, as the code has it.  [sharpe_ratio] is zero whenever the sample
    standard deviation of the returns is zero; that is the case for the
    returns of every flat curve with at least three points at a non-zero
    level (given that the square root of zero is zero).  [sortino_ratio] is
    plus infinity when no return is negative, and zero when the downside
    volatility is zero.  Both functions are total: they return a value on
    every series and raise nothing. *)
Theorem degenerate_ratios (returns : list xfloat) (risk_free_rate : Q) :
  (xeqb (series_std np_sqrt returns) (Fin 0) = true ->
   sharpe_ratio np_sqrt returns risk_free_rate = Fin 0) /\
  (forall (curve : Series) (c : Q),
      (forall q, q == 0 -> np_sqrt q == 0) ->
      (3 <= length curve)%nat ->
      ~ c == 0 ->
      Forall (fun p => xequiv (snd p) (Fin c)) curve ->
      sharpe_ratio np_sqrt (dropna (pct_change (values curve))) risk_free_rate
      = Fin 0) /\
  (filter (fun r => xltb r (Fin 0)) returns = [] ->
   sortino_ratio np_sqrt returns risk_free_rate = PInf) /\
  (filter (fun r => xltb r (Fin 0)) returns <> [] ->
   xeqb (xmul (series_std np_sqrt (filter (fun r => xltb r (Fin 0)) returns))
              (Fin (np_sqrt 252)))
        (Fin 0) = true ->
   sortino_ratio np_sqrt returns risk_free_rate = Fin 0).
Proof.
  split; [|split; [|split]].
  - intros H. apply sharpe_ratio_zero_std, xeqb_zero_iff, H.
  - intros curve c Hsqrt Hlen Hc Hflat.
    destruct (flat_curve_returns c curve Hc Hflat) as (Hz & Hn).
    apply sharpe_ratio_zero_std, series_std_zero; [exact Hsqrt | lia | exact Hz].
  - intros Hneg. unfold sortino_ratio. rewrite Hneg. reflexivity.
  - intros Hneg Hvol. unfold sortino_ratio.
    destruct (filter _ returns) as [|x l] eqn:E; [congruence|].
    cbn [length Nat.eqb]. rewrite Hvol. reflexivity.
Qed.

End RunProperties.

(* ================================================================= *)
(** * Concrete runs *)

Definition day (n : Z) : datetime := (n * ns_per_day)%Z.

Definition bar_at (t : datetime) (c : Q) : Bar :=
  {| timestamp := t; open := c; high := c; low := c; close := c; volume := 0 |}.

(** A strategy that emits a fixed signal sequence. *)
Definition fixed_signals (sigs : list Z) (use_stop : bool) (pct : Q) : Strategy :=
  {| generate_signals := fun _ => sigs;
     should_use_stop_loss := use_stop;
     stop_loss_pct := pct |}.

Abbreviation run_ref := (run np_sqrt_ref np_power_ref).

Lemma np_sqrt_ref_zero (q : Q) : q == 0 -> np_sqrt_ref q == 0.
Proof.
  destruct q as [n d]. intros H.
  assert (n = 0%Z) as -> by (unfold Qeq in H; cbn in H; lia).
  unfold np_sqrt_ref, Qeq. cbn [Qnum Qden]. rewrite !Z.mul_0_l.
  reflexivity.
Qed.

(** ** Scenario A: one deterministic trade *)

Definition scenario_a_data : DataFrame :=
  [bar_at (day 0) 100; bar_at (day 1) 101; bar_at (day 2) 102;
   bar_at (day 3) 103; bar_at (day 4) 104; bar_at (day 5) 105;
   bar_at (day 6) 106; bar_at (day 7) 107; bar_at (day 8) 108;
   bar_at (day 9) 110].

Definition scenario_a_strategy : Strategy :=
  fixed_signals [BUY; HOLD; HOLD; HOLD; HOLD; HOLD; HOLD; HOLD; HOLD; SELL]
                false (8 # 100).

(** [P] holds of the result that was returned. *)
Definition returned {A : Type} (P : A -> Prop) (o : outcome A) : Prop :=
  match o with
  | Ok a => P a
  | Raise _ => False
  end.

Lemma returned_ok {A : Type} (P : A -> Prop) (o : outcome A) :
  returned P o -> exists a, o = Ok a /\ P a.
Proof. destruct o as [a|e]; [|contradiction]. intros H. exists a. auto. Qed.

Example scenario_a :
  let out := run_ref scenario_a_strategy scenario_a_data None
               (Backtester_init 10000 0 0) in
  cash (snd out) == 11000 /\
  returned
    (fun r =>
       exists t,
         BacktestResult.trades r = [t] /\
         Trade.shares t = 100%Z /\
         Trade.pnl t == 1000 /\
         xequiv (Trade.pnl_pct t) (Fin 10) /\
         Trade.exit_reason t = signal_exit /\
         xequiv (BacktestMetrics.total_return (BacktestResult.metrics r))
                (Fin 10))
    (fst out).
Proof.
  cbv zeta. split; [vm_compute; reflexivity|].
  vm_compute. eexists. repeat split; reflexivity.
Qed.

(** ** Scenario C: not enough cash for one share *)

Example scenario_c :
  _buy (day 0) 100 (Backtester_init 50 0 0)
  = (Ok tt, Backtester_init 50 0 0).
Proof. reflexivity. Qed.

(** ** A buy at a zero price raises *)

Example buy_at_zero_price_raises :
  fst (_buy (day 0) 0 (Backtester_init 10000 0 0)) = Raise OverflowError.
Proof. reflexivity. Qed.

(** ** Scenario B: the trailing stop pre-empts the signal *)

(** 100 shares bought at 100 on day 0, no friction. *)
Definition scenario_b_held : Backtester :=
  snd (_buy (day 0) 100 (Backtester_init 10000 0 0)).

Lemma stop_loss_preempts_signal_witness :
  exists self' t,
    run_bar (fixed_signals [BUY; BUY] true (8 # 100)) [BUY; BUY] 1
            (bar_at (day 1) 92) scenario_b_held = (Ok tt, self') /\
    position self' = 0%Z /\
    trades self' = trades scenario_b_held ++ [t] /\
    Trade.exit_reason t = stop_loss.
Proof.
  destruct (stop_loss_preempts_signal
              (fixed_signals [BUY; BUY] true (8 # 100)) [BUY; BUY] 1
              (bar_at (day 1) 92) scenario_b_held BUY)
    as (self' & t & equity & H1 & H2 & _ & H4 & H5 & _).
  - reflexivity.
  - vm_compute. reflexivity.
  - reflexivity.
  - vm_compute. discriminate.
  - exists self', t. repeat split; assumption.
Defined.

(** ** A buy with slippage *)

Lemma buy_fill_or_noop_witness :
  exists self',
    _buy (day 0) 100 (Backtester_init 10000 0 (1 # 1000)) = (Ok tt, self') /\
    position self' = 99%Z /\
    entry_price self' == 1001 # 10 /\
    highest_price self' = 100 /\
    cash self' == 901 # 10.
Proof.
  pose proof (buy_fill_or_noop (Backtester_init 10000 0 (1 # 1000)) (day 0) 100)
    as H.
  assert (Hfill : ~ 100 * (1 + slippage (Backtester_init 10000 0 (1 # 1000))) == 0).
  { intros Hz. vm_compute in Hz. discriminate Hz. }
  specialize (H Hfill). cbv zeta in H.
  match type of H with
  | (if ?c then _ else _) =>
      let v := eval vm_compute in c in change c with v in H
  end.
  cbv iota in H.
  destruct H as (self' & H1 & H2 & H3 & H4 & _ & H6 & _).
  exists self'. split; [exact H1|].
  split; [rewrite H3; vm_compute; reflexivity|].
  split; [rewrite H4; vm_compute; reflexivity|]. split; [exact H6|].
  rewrite H2. vm_compute. reflexivity.
Defined.

(** ** A position held to the end of the data *)

Definition held_strategy : Strategy := fixed_signals [BUY; HOLD] false (8 # 100).
Definition held_data : DataFrame := [bar_at (day 0) 100; bar_at (day 1) 105].
Definition held_engine : Backtester := Backtester_init 10000 1 (1 # 1000).

(** The state after the loop: 99 shares, entered on day 0. *)
Definition held_after_loop : Backtester :=
  snd (run_loop held_strategy [BUY; HOLD] 0 held_data (reset held_engine)).

Lemma forced_close_at_end_of_data_witness :
  position (snd (run_ref held_strategy held_data None held_engine)) = 0%Z /\
  exists t,
    trades (snd (run_ref held_strategy held_data None held_engine))
      = trades held_after_loop ++ [t] /\
    Trade.exit_reason t = end_of_data /\
    Trade.exit_date t = day 1 /\
    Trade.shares t = 99%Z.
Proof.
  destruct (forced_close_at_end_of_data np_sqrt_ref np_power_ref
              held_strategy held_data None held_engine held_after_loop)
    as (_ & _ & Hpos & _ & Hopen & _).
  - vm_compute. reflexivity.
  - split; [exact Hpos|].
    destruct Hopen as (front & row & t & Hdata & Htr & Hreason & Hdate & _ & Hsh & _).
    + vm_compute. reflexivity.
    + exists t. split; [exact Htr|]. split; [exact Hreason|].
      assert (Hrow : row = bar_at (day 1) 105).
      { change held_data
          with ([bar_at (day 0) 100] ++ [bar_at (day 1) 105]) in Hdata.
        apply app_inj_tail in Hdata. symmetry. apply Hdata. }
      split; [rewrite Hdate, Hrow; reflexivity|].
      rewrite Hsh. vm_compute. reflexivity.
Defined.


(** ** Two round trips *)

Definition two_trades_strategy : Strategy :=
  fixed_signals [BUY; SELL; BUY; SELL] false (8 # 100).
Definition two_trades_data : DataFrame :=
  [bar_at (day 0) 100; bar_at (day 1) 110;
   bar_at (day 2) 105; bar_at (day 3) 120].

Lemma two_trades_chronological : chronological two_trades_data.
Proof.
  unfold chronological. cbn [map two_trades_data timestamp bar_at].
  repeat constructor; vm_compute; discriminate.
Qed.

Lemma single_position_and_ordered_ledger_witness :
  returned
    (fun r =>
       exists t1 t2 d,
         BacktestResult.trades r = [t1; t2] /\
         Trade.entry_date t2 = Some d /\
         (Trade.exit_date t1 <= d)%Z)
    (fst (run_ref two_trades_strategy two_trades_data None
            (Backtester_init 10000 0 0))).
Proof.
  destruct (single_position_and_ordered_ledger np_sqrt_ref np_power_ref
              two_trades_strategy two_trades_data None
              (Backtester_init 10000 0 0))
    as (_ & Hledger).
  specialize (Hledger two_trades_chronological).
  assert (Hr : returned
                 (fun r => exists t1 t2, BacktestResult.trades r = [t1; t2])
                 (fst (run_ref two_trades_strategy two_trades_data None
                         (Backtester_init 10000 0 0)))).
  { vm_compute. eexists. eexists. reflexivity. }
  apply returned_ok in Hr. destruct Hr as (r & Hrun & t1 & t2 & Htr).
  rewrite Hrun. cbn [returned].
  destruct (Hledger r Hrun 0%nat t1 t2) as (d & Hd & Hle).
  - rewrite Htr. reflexivity.
  - rewrite Htr. reflexivity.
  - exists t1, t2, d. repeat split; assumption.
Defined.

(** ** Three bars of HOLD *)

Definition hold_strategy : Strategy := fixed_signals [HOLD; HOLD; HOLD] false (8 # 100).
Definition hold_data : DataFrame :=
  [bar_at (day 0) 100; bar_at (day 1) 90; bar_at (day 2) 120].

Lemma all_hold_run_is_flat_witness :
  exists r bt',
    run_ref hold_strategy hold_data None (Backtester_init 10000 0 (1 # 1000))
      = (Ok r, bt') /\
    BacktestResult.trades r = [] /\
    length (BacktestResult.equity_curve r) = 3%nat /\
    xequiv (BacktestMetrics.total_return (BacktestResult.metrics r)) (Fin 0).
Proof.
  destruct (all_hold_run_is_flat np_sqrt_ref np_power_ref hold_strategy hold_data
              (Backtester_init 10000 0 (1 # 1000)))
    as (_ & (r & bt' & Hrun & _ & _ & Htr & Hlen & _ & Htot & _) & _).
  - discriminate.
  - intros Hz. vm_compute in Hz. discriminate Hz.
  - reflexivity.
  - repeat constructor.
  - exists r, bt'. repeat split; assumption.
Defined.

(** ** A run against a benchmark *)



(* ================================================================= *)
(** * Where the code departs from the written specification *)

(** ** Inputs that break a precondition are not rejected *)

(** The three preconditions of the specification on the input of a run. *)
Definition violates_precondition (strategy : Strategy) (data : DataFrame) : Prop :=
  length (generate_signals strategy data) <> length data \/
  data = [] \/
  ~ Sorted Z.lt (map timestamp data).

Definition duplicate_dates_data : DataFrame :=
  [bar_at (day 0) 100; bar_at (day 0) 105].

(** Two bars with the same timestamp: the run simulates both, buys on the
    first, closes at end of data and returns a result. *)
Lemma duplicate_timestamps_are_simulated :
  violates_precondition held_strategy duplicate_dates_data /\
  returned
    (fun r =>
       index (BacktestResult.equity_curve r) = [day 0; day 0] /\
       exists t,
         BacktestResult.trades r = [t] /\
         Trade.exit_reason t = end_of_data)
    (fst (run_ref held_strategy duplicate_dates_data None held_engine)).
Proof.
  split.
  - right. right. intros Hs.
    inversion Hs as [|? ? _ Hrel]; subst.
    inversion Hrel as [|? ? Hlt]; subst.
    vm_compute in Hlt. discriminate Hlt.
  - vm_compute. split; [reflexivity|]. eexists. split; reflexivity.
Qed.

(** ** Trades overlap in time when the bars go back *)

(** The bars of the two round trips, dated backwards. *)
Definition backward_data : DataFrame :=
  [bar_at (day 3) 100; bar_at (day 2) 110;
   bar_at (day 1) 105; bar_at (day 0) 120].

(** The run simulates the bars in the order given: the first trade is
    closed on the second bar (day 2) and the second trade is entered on the
    third bar (day 1), before the first one ended. *)
Lemma trades_overlap_on_bars_that_go_back :
  ~ chronological backward_data /\
  returned
    (fun r =>
       exists t1 t2,
         BacktestResult.trades r = [t1; t2] /\
         Trade.exit_date t1 = day 2 /\
         Trade.entry_date t2 = Some (day 1) /\
         ~ (Trade.exit_date t1 <= day 1)%Z)
    (fst (run_ref two_trades_strategy backward_data None
            (Backtester_init 10000 0 0))).
Proof.
  split.
  - intros Hs. unfold chronological in Hs.
    inversion Hs as [|? ? _ Hrel]; subst.
    inversion Hrel as [|? ? Hle]; subst.
    vm_compute in Hle. apply Hle. reflexivity.
  - assert (Hr : returned
                   (fun r =>
                      exists t1 t2,
                        BacktestResult.trades r = [t1; t2] /\
                        Trade.exit_date t1 = day 2 /\
                        Trade.entry_date t2 = Some (day 1))
                   (fst (run_ref two_trades_strategy backward_data None
                           (Backtester_init 10000 0 0)))).
    { vm_compute. eexists. eexists. repeat split; reflexivity. }
    apply returned_ok in Hr.
    destruct Hr as (r & Hrun & t1 & t2 & Htr & Hexit & Hentry).
    rewrite Hrun. cbn [returned]. exists t1, t2.
    split; [exact Htr|]. split; [exact Hexit|]. split; [exact Hentry|].
    rewrite Hexit. intros Hle. vm_compute in Hle. apply Hle. reflexivity.
Qed.

(** ** A flat curve of two points has no Sharpe ratio *)

Definition flat_two_points : Series := [(day 0, Fin 10000); (day 1, Fin 10000)].

(** One return only: its sample standard deviation is undefined, the
    zero-volatility guard does not fire, and the ratio is NaN, not zero. *)
Lemma flat_two_point_curve_sharpe_is_nan :
  Forall (fun p => snd p = Fin 10000) flat_two_points /\
  dropna (pct_change (values flat_two_points)) = [Fin (10000 / 10000 - 1)] /\
  sharpe_ratio np_sqrt_ref (dropna (pct_change (values flat_two_points)))
               default_risk_free_rate = NaN /\
  sharpe_ratio np_sqrt_ref (dropna (pct_change (values flat_two_points)))
               default_risk_free_rate <> Fin 0.
Proof.
  split; [repeat constructor|].
  split; [reflexivity|].
  split; [reflexivity|].
  intros H. discriminate H.
Qed.

(** ** The benchmark starts at the initial cash, not at the first equity *)



(* ================================================================= *)
(** * Further instances *)

(** Signals missing for the last bar: the first bar is simulated, then the
    run fails. *)
Lemma run_validates_no_precondition_witness :
  exists bt',
    run_ref (fixed_signals [BUY] false (8 # 100)) held_data None held_engine
      = (Raise IndexError, bt') /\
    map fst (equity_curve bt') = [day 0].
Proof.
  destruct (run_validates_no_precondition np_sqrt_ref np_power_ref
              (fixed_signals [BUY] false (8 # 100)) held_data None held_engine)
    as (_ & Hshort & _).
  destruct Hshort as (bt' & Hrun & Hdates).
  - repeat constructor; intros Hz; vm_compute in Hz; discriminate Hz.
  - cbn. lia.
  - exists bt'. split; [exact Hrun | exact Hdates].
Defined.

(** A flat curve of three points has Sharpe ratio zero. *)
Lemma degenerate_ratios_witness :
  sharpe_ratio np_sqrt_ref
    (dropna (pct_change (values (to_series (flat_points 10000 hold_data)))))
    default_risk_free_rate = Fin 0.
Proof.
  destruct (degenerate_ratios np_sqrt_ref [] default_risk_free_rate)
    as (_ & Hflat & _).
  apply (Hflat (to_series (flat_points 10000 hold_data)) 10000).
  - exact np_sqrt_ref_zero.
  - cbn. lia.
  - intros Hz. vm_compute in Hz. discriminate Hz.
  - apply flat_points_flat.
Defined.

(* ================================================================= *)
(** * Further properties of the engine *)

(** ** Invariants of a whole run *)



Lemma run_loop_invariant (P : Backtester -> Prop) strategy signals :
  (forall i row s, P s -> P (snd (run_bar strategy signals i row s))) ->
  forall rows i s, P s -> P (snd (run_loop strategy signals i rows s)).
Proof.
  intros Hbar rows. induction rows as [|row rows IH]; intros i s H; [exact H|].
  rewrite run_loop_cons.
  pose proof (Hbar i row s H) as Hb.
  destruct (run_bar strategy signals i row s) as [[[]|e] s1]; cbn [snd] in *.
  - apply IH, Hb.
  - exact Hb.
Qed.

Lemma close_at_end_cases data s :
  snd (close_at_end data s) = s \/
  exists d p, snd (close_at_end data s) = sold d p end_of_data s.
Proof.
  destruct (Z_lt_le_dec 0 (position s)) as [Hpos|Hpos].
  - destruct data as [|row0 rest].
    + left. unfold close_at_end, bind, gets, lift.
      rewrite (proj2 (Z.ltb_lt 0 (position s)) Hpos). reflexivity.
    + right. rewrite (close_at_end_open _ _ row0 Hpos) by discriminate.
      eexists. eexists. reflexivity.
  - left. rewrite (close_at_end_flat _ _ Hpos). reflexivity.
Qed.

Section RunInvariants.

Variable np_sqrt : Q -> Q.
Variable np_power : xfloat -> Q -> xfloat.

(** A property of the reset state that every bar and the forced close keep
    holds of the object after the run, whether it returned or raised. *)
Lemma run_invariant (P : Backtester -> Prop) strategy data benchmark bt :
  P (reset bt) ->
  (forall i row s,
      P s -> P (snd (run_bar strategy (generate_signals strategy data) i row s))) ->
  (forall d p s, P s -> P (sold d p end_of_data s)) ->
  P (snd (run np_sqrt np_power strategy data benchmark bt)).
Proof.
  intros H0 Hbar Hend. rewrite run_unfold.
  pose proof (run_loop_invariant P strategy (generate_signals strategy data)
                Hbar data 0 (reset bt) H0) as Hloop.
  destruct (run_loop _ _ _ _ _) as [[[]|e] s1]; cbn [snd] in *; [|exact Hloop].
  assert (Hclose : P (snd (close_at_end data s1))).
  { destruct (close_at_end_cases data s1) as [-> | (d & p & ->)];
      [exact Hloop | apply Hend, Hloop]. }
  destruct (close_at_end data s1) as [[[]|e] s2]; exact Hclose.
Qed.

End RunInvariants.

(** ** Cash is conserved *)












Section Conservation.

Variable np_sqrt : Q -> Q.
Variable np_power : xfloat -> Q -> xfloat.



End Conservation.

(** ** The trades on the ledger *)

(** A trade whose fields agree with each other. *)
Definition trade_consistent (t : Trade.t) : Prop :=
  (0 < Trade.shares t)%Z /\
  Trade.entry_date t <> None /\
  ~ Trade.entry_price t == 0 /\
  Trade.pnl t ==
    (Trade.exit_price t - Trade.entry_price t) * inject_Z (Trade.shares t) /\
  xequiv (Trade.pnl_pct t)
         (Fin ((Trade.exit_price t / Trade.entry_price t - 1) * 100)).

Definition ledger_consistent (s : Backtester) : Prop :=
  position_inv s /\ Forall trade_consistent (trades s).

Lemma ledger_consistent_tracked p s :
  ledger_consistent s -> ledger_consistent (tracked p s).
Proof.
  intros (Hp & Hl). split; [apply position_inv_tracked, Hp|].
  destruct (tracked_fields p s) as (_ & _ & _ & _ & -> & _). exact Hl.
Qed.

Lemma ledger_consistent_sold d p r s :
  ledger_consistent s -> ledger_consistent (sold d p r s).
Proof.
  intros (Hp & Hl). split; [apply position_inv_sold, Hp|].
  unfold sold, _sell. destruct (position s <=? 0)%Z eqn:E; [exact Hl|].
  apply Z.leb_gt in E. cbn [trades]. apply Forall_app. split; [exact Hl|].
  constructor; [|constructor].
  destruct Hp as (_ & Hiff & Hprice).
  unfold trade_consistent;
    cbn [Trade.shares Trade.entry_date Trade.entry_price Trade.exit_price
         Trade.pnl Trade.pnl_pct].
  split; [exact E|]. split; [apply Hiff, E|]. split; [apply Hprice, E|].
  split; [reflexivity|].
  rewrite (xdiv_fin _ _ (Hprice E)). cbn. reflexivity.
Qed.

Lemma ledger_consistent_bought d p f shares s :
  (0 < shares)%Z -> ~ f == 0 ->
  ledger_consistent s -> ledger_consistent (bought d p f shares s).
Proof.
  intros Hpos Hf (_ & Hl). split; [apply position_inv_bought; assumption|].
  exact Hl.
Qed.

Lemma ledger_consistent_bar strategy signals i row s :
  ledger_consistent s ->
  ledger_consistent (snd (run_bar strategy signals i row s)).
Proof.
  apply run_bar_preserves.
  - intros; apply ledger_consistent_tracked; assumption.
  - intros; apply ledger_consistent_sold; assumption.
  - intros; apply ledger_consistent_bought; assumption.
  - intros x Hx. exact Hx.
Qed.

Lemma ledger_consistent_reset bt : ledger_consistent (reset bt).
Proof. split; [apply position_inv_reset | constructor]. Qed.

(** Only stop-outs carry the reason [stop_loss]. *)
Definition no_stop_loss (s : Backtester) : Prop :=
  Forall (fun t => Trade.exit_reason t <> stop_loss) (trades s).

Lemma no_stop_loss_sold d p r s :
  r <> stop_loss -> no_stop_loss s -> no_stop_loss (sold d p r s).
Proof.
  intros Hr H. unfold no_stop_loss, sold, _sell.
  destruct (position s <=? 0)%Z; [exact H|]. cbn.
  apply Forall_app. split; [exact H|]. constructor; [exact Hr | constructor].
Qed.

Lemma no_stop_loss_bar strategy signals i row s :
  should_use_stop_loss strategy = false ->
  no_stop_loss s -> no_stop_loss (snd (run_bar strategy signals i row s)).
Proof.
  intros Hoff H.
  destruct (nth_error signals i) as [signal|] eqn:E;
    [|rewrite run_bar_no_signal by (apply nth_error_None, E); exact H].
  rewrite (run_bar_signal _ _ _ _ _ _ E).
  pose proof (bar_body_result strategy signal row s) as Hres.
  destruct (bar_body strategy signal row s) as [o s'].
  assert (Ht : no_stop_loss (tracked (close row) s)).
  { unfold no_stop_loss.
    destruct (tracked_fields (close row) s) as (_ & _ & _ & _ & -> & _). exact H. }
  inversion Hres; subst; cbn [snd].
  - congruence.
  - match goal with
    | Hbuy : _buy _ _ _ = _ |- _ => apply buy_ok_cases in Hbuy;
        destruct Hbuy as [-> | (shares & _ & _ & ->)]
    end; exact H.
  - exact H.
  - apply (no_stop_loss_sold _ _ signal_exit); [discriminate | exact Ht].
  - exact Ht.
Qed.

Section LedgerProperties.

Variable np_sqrt : Q -> Q.
Variable np_power : xfloat -> Q -> xfloat.

(** X2. Every trade that a run writes is consistent: it has at least one
    share, an entry date and a non-zero entry price, its [pnl] is
    (exit price - entry price) x shares, and its [pnl_pct] is the finite
    value (exit price / entry price - 1) x 100.  This holds of the ledger
    of the object after any run, and so of the ledger of a returned
    result. *)
Theorem run_trades_are_consistent
  (strategy : Strategy) (data : DataFrame) (benchmark : option DataFrame)
  (bt : Backtester) :
  Forall trade_consistent
         (trades (snd (run np_sqrt np_power strategy data benchmark bt))) /\
  (forall r,
      fst (run np_sqrt np_power strategy data benchmark bt) = Ok r ->
      Forall trade_consistent (BacktestResult.trades r)).
Proof.
  assert (H : ledger_consistent
                (snd (run np_sqrt np_power strategy data benchmark bt))).
  { apply run_invariant.
    - apply ledger_consistent_reset.
    - intros i row s. apply ledger_consistent_bar.
    - intros d p s. apply ledger_consistent_sold. }
  split; [apply H|].
  intros r Hr.
  destruct (run_loop strategy (generate_signals strategy data) 0 data (reset bt))
    as [[[]|e] s1] eqn:Hrun;
    [|rewrite run_unfold, Hrun in Hr; discriminate].
  destruct (run_after_loop np_sqrt np_power strategy data benchmark bt s1 Hrun)
    as (s2 & _ & Hout & _).
  rewrite Hout in Hr, H. cbn [fst snd] in *.
  apply report_inv in Hr. destruct Hr as (-> & _). apply H.
Qed.

(** X3. The exit reasons on the ledger.  A strategy that does not ask for
    stop-loss protection never gets a [stop_loss] trade; and whatever the
    strategy, [end_of_data] can only be the reason of the last trade. *)
Theorem run_exit_reasons
  (strategy : Strategy) (data : DataFrame) (benchmark : option DataFrame)
  (bt : Backtester) :
  let ledger := trades (snd (run np_sqrt np_power strategy data benchmark bt)) in
  (should_use_stop_loss strategy = false ->
   Forall (fun t => Trade.exit_reason t <> stop_loss) ledger) /\
  (forall front t,
      ledger = front ++ [t] ->
      Forall (fun t' => Trade.exit_reason t' <> end_of_data) front).
Proof.
  cbv zeta. split.
  - intros Hoff. apply (run_invariant np_sqrt np_power no_stop_loss).
    + constructor.
    + intros i row s. apply no_stop_loss_bar, Hoff.
    + intros d p s. apply no_stop_loss_sold. discriminate.
  - intros front t Hledger. rewrite run_unfold in Hledger.
    pose proof (no_end_of_data_loop strategy (generate_signals strategy data)
                  data 0 (reset bt)) as Hloop.
    destruct (run_loop _ _ _ _ _) as [[[]|e] s1]; cbn [snd] in *.
    + specialize (Hloop ltac:(constructor)).
      assert (Hs2 : trades (snd (close_at_end data s1)) = front ++ [t]).
      { destruct (close_at_end data s1) as [[[]|e] s2]; exact Hledger. }
      destruct (close_at_end_cases data s1) as [Hc | (d & p & Hc)];
        rewrite Hc in Hs2.
      * unfold no_end_of_data in Hloop. rewrite Hs2 in Hloop.
        apply Forall_app in Hloop. apply Hloop.
      * unfold sold, _sell in Hs2.
        destruct (position s1 <=? 0)%Z.
        -- cbn [snd] in Hs2. unfold no_end_of_data in Hloop.
           rewrite Hs2 in Hloop. apply Forall_app in Hloop. apply Hloop.
        -- cbn in Hs2. apply app_inj_tail in Hs2. destruct Hs2 as (<- & _).
           exact Hloop.
    + specialize (Hloop ltac:(constructor)).
      unfold no_end_of_data in Hloop. rewrite Hledger in Hloop.
      apply Forall_app in Hloop. apply Hloop.
Qed.

End LedgerProperties.

(** ** What a buy can afford *)



(** ** A round trip *)




(** ** The bar, case by case *)

Lemma sell_ok date price reason s :
  _sell date price reason s = (Ok tt, sold date price reason s).
Proof. unfold sold, _sell. destruct (position s <=? 0)%Z; reflexivity. Qed.

(** The bar when a position is open: stop out, or sell on signal, or hold. *)
Lemma bar_body_open strategy signal row s :
  (0 < position s)%Z ->
  bar_body strategy signal row s =
  let s1 := tracked (close row) s in
  if should_use_stop_loss strategy
     && Qle_bool (close row)
                 (highest_price s1 * (1 - stop_loss_pct strategy))
  then (Ok tt,
        recorded (timestamp row) (close row)
          (sold (timestamp row) (close row) stop_loss s1))
  else if (signal =? -1)%Z
  then (Ok tt,
        recorded (timestamp row) (close row)
          (sold (timestamp row) (close row) signal_exit s1))
  else (Ok tt, recorded (timestamp row) (close row) s1).
Proof.
  intros Hpos. unfold bar_body, bind. rewrite track_highest_ok.
  unfold stop_triggered. rewrite tracked_position.
  rewrite (proj2 (Z.ltb_lt 0 (position s)) Hpos). cbv zeta. cbn [andb].
  destruct (should_use_stop_loss strategy); cbn [andb].
  - destruct (Qle_bool (close row) _).
    + rewrite sell_ok. reflexivity.
    + unfold process_signal. rewrite tracked_position.
      rewrite (proj2 (Z.eqb_neq (position s) 0)) by lia.
      rewrite (proj2 (Z.ltb_lt 0 (position s))) by lia.
      rewrite andb_false_r, andb_true_r.
      destruct (signal =? -1)%Z; [rewrite sell_ok|]; reflexivity.
  - unfold process_signal. rewrite tracked_position.
    rewrite (proj2 (Z.eqb_neq (position s) 0)) by lia.
    rewrite (proj2 (Z.ltb_lt 0 (position s))) by lia.
    rewrite andb_false_r, andb_true_r.
    destruct (signal =? -1)%Z; [rewrite sell_ok|]; reflexivity.
Qed.

(** The bar when no position is open: buy on a BUY signal from a zero
    count, or do nothing. *)
Lemma bar_body_flat strategy signal row s :
  (position s <= 0)%Z ->
  bar_body strategy signal row s =
  if (signal =? 1)%Z && (position s =? 0)%Z
  then match _buy (timestamp row) (close row) s with
       | (Ok _, s2) => (Ok tt, recorded (timestamp row) (close row) s2)
       | (Raise e, s2) => (Raise e, s2)
       end
  else (Ok tt, recorded (timestamp row) (close row) s).
Proof.
  intros Hpos. unfold bar_body, bind. rewrite track_highest_ok.
  rewrite (tracked_flat _ _ Hpos).
  unfold stop_triggered.
  rewrite (proj2 (Z.ltb_ge 0 (position s)) Hpos). cbn [andb].
  unfold process_signal.
  rewrite (proj2 (Z.ltb_ge 0 (position s)) Hpos), andb_false_r.
  destruct ((signal =? 1)%Z && (position s =? 0)%Z); [|reflexivity].
  destruct (_buy (timestamp row) (close row) s) as [[[]|e] s2]; reflexivity.
Qed.

Lemma py_max_ge (a b : Q) : b <= py_max a b.
Proof.
  unfold py_max, Qltb. destruct (Qle_bool b a) eqn:E; cbn.
  - apply Qle_bool_iff, E.
  - apply Qle_refl.
Qed.

Lemma tracked_open_highest p s :
  (0 < position s)%Z -> highest_price (tracked p s) = py_max (highest_price s) p.
Proof.
  intros H. unfold tracked, track_highest.
  rewrite (proj2 (Z.ltb_lt 0 (position s)) H). reflexivity.
Qed.

(** X7. The trailing stop is honoured.  When a bar ends with a position
    open, the highest price on record is at least the bar's close; and if
    the position was already open when the bar began and the strategy asks
    for stop-loss protection, the close is strictly above
    [highest_price * (1 - stop_loss_pct)]: a position is never carried
    through a bar that closes at or below its stop. *)
Theorem position_kept_is_above_stop
  (strategy : Strategy) (signals : list Z) (i : nat) (row : Bar)
  (s s' : Backtester) :
  run_bar strategy signals i row s = (Ok tt, s') ->
  (0 < position s')%Z ->
  close row <= highest_price s' /\
  ((0 < position s)%Z ->
   should_use_stop_loss strategy = true ->
   highest_price s' * (1 - stop_loss_pct strategy) < close row).
Proof.
  intros Hbar Hheld.
  destruct (nth_error signals i) as [signal|] eqn:E;
    [|rewrite run_bar_no_signal in Hbar by (apply nth_error_None, E);
      discriminate].
  rewrite (run_bar_signal _ _ _ _ _ _ E) in Hbar.
  destruct (Z_lt_le_dec 0 (position s)) as [Hpos|Hpos].
  - rewrite (bar_body_open _ _ _ _ Hpos) in Hbar. cbv zeta in Hbar.
    pose proof (tracked_position (close row) s) as Htp.
    assert (Hsold : forall r,
               position (recorded (timestamp row) (close row)
                           (sold (timestamp row) (close row) r
                                 (tracked (close row) s))) = 0%Z).
    { intros r. cbn. apply sold_open_position. lia. }
    destruct (should_use_stop_loss strategy) eqn:Hstop; cbn [andb] in Hbar.
    + destruct (Qle_bool (close row) _) eqn:Hle.
      * injection Hbar as <-. rewrite Hsold in Hheld. lia.
      * destruct (signal =? -1)%Z.
        -- injection Hbar as <-. rewrite Hsold in Hheld. lia.
        -- injection Hbar as <-. cbn [recorded _record_equity snd highest_price].
           split.
           ++ rewrite (tracked_open_highest _ _ Hpos). apply py_max_ge.
           ++ intros _ _. apply Qnot_le_lt. intros Hc.
              apply Qle_bool_iff in Hc. congruence.
    + destruct (signal =? -1)%Z.
      * injection Hbar as <-. rewrite Hsold in Hheld. lia.
      * injection Hbar as <-. cbn [recorded _record_equity snd highest_price].
        split; [|discriminate].
        rewrite (tracked_open_highest _ _ Hpos). apply py_max_ge.
  - rewrite (bar_body_flat _ _ _ _ Hpos) in Hbar.
    destruct ((signal =? 1)%Z && (position s =? 0)%Z).
    + destruct (_buy (timestamp row) (close row) s) as [[[]|e] s2] eqn:Hbuy;
        [|discriminate].
      injection Hbar as <-.
      apply buy_ok_cases in Hbuy.
      destruct Hbuy as [-> | (shares & _ & _ & ->)].
      * cbn in Hheld. lia.
      * cbn. split; [apply Qle_refl | lia].
    + injection Hbar as <-. cbn in Hheld. lia.
Qed.

(** X8. A signal that cannot be acted on is a HOLD: a BUY while shares are
    held, a SELL while none are, and any value other than 1 and -1 leave
    the bar exactly as a 0 would (same outcome, same state). *)
Theorem unusable_signal_acts_as_hold
  (strategy : Strategy) (signals signals' : list Z) (i : nat) (row : Bar)
  (s : Backtester) (signal : Z) :
  nth_error signals i = Some signal ->
  nth_error signals' i = Some HOLD ->
  (signal <> BUY \/ position s <> 0%Z) ->
  (signal <> SELL \/ (position s <= 0)%Z) ->
  run_bar strategy signals i row s = run_bar strategy signals' i row s.
Proof.
  intros Hsig Hhold Hbuy Hsell.
  rewrite (run_bar_signal _ _ _ _ _ _ Hsig), (run_bar_signal _ _ _ _ _ _ Hhold).
  destruct (Z_lt_le_dec 0 (position s)) as [Hpos|Hpos].
  - rewrite !(bar_body_open _ _ _ _ Hpos). cbv zeta.
    destruct Hsell as [Hne | Hle]; [|lia].
    rewrite (proj2 (Z.eqb_neq signal (-1)) Hne). reflexivity.
  - rewrite !(bar_body_flat _ _ _ _ Hpos).
    assert (Hoff : (signal =? 1)%Z && (position s =? 0)%Z = false).
    { destruct Hbuy as [Hne | Hne].
      - rewrite (proj2 (Z.eqb_neq signal 1) Hne). reflexivity.
      - rewrite (proj2 (Z.eqb_neq (position s) 0) Hne). apply andb_false_r. }
    rewrite Hoff. reflexivity.
Qed.

(** ** What the run reads of the strategy *)

Lemma stop_triggered_ext (st st' : Strategy) (p : Q) (s : Backtester) :
  should_use_stop_loss st = should_use_stop_loss st' ->
  stop_loss_pct st = stop_loss_pct st' ->
  stop_triggered st p s = stop_triggered st' p s.
Proof. intros H1 H2. unfold stop_triggered. rewrite H1, H2. reflexivity. Qed.

Lemma run_bar_ext (st st' : Strategy) (signals signals' : list Z) (i : nat)
  (row : Bar) (s : Backtester) :
  should_use_stop_loss st = should_use_stop_loss st' ->
  stop_loss_pct st = stop_loss_pct st' ->
  nth_error signals i = nth_error signals' i ->
  run_bar st signals i row s = run_bar st' signals' i row s.
Proof.
  intros H1 H2 Hsig. unfold run_bar, bind, lift, iloc. rewrite Hsig.
  destruct (nth_error signals' i) as [signal|]; [|reflexivity].
  destruct (track_highest (close row) s) as [[[]|e] s1]; [|reflexivity].
  rewrite (stop_triggered_ext st st' _ _ H1 H2). reflexivity.
Qed.

Lemma run_loop_ext (st st' : Strategy) (signals signals' : list Z)
  (rows : DataFrame) : forall i s,
  should_use_stop_loss st = should_use_stop_loss st' ->
  stop_loss_pct st = stop_loss_pct st' ->
  (forall j, (i <= j < i + length rows)%nat ->
             nth_error signals j = nth_error signals' j) ->
  run_loop st signals i rows s = run_loop st' signals' i rows s.
Proof.
  induction rows as [|row rows IH]; intros i s H1 H2 Hsig; [reflexivity|].
  rewrite !run_loop_cons.
  rewrite (run_bar_ext st st' signals signals' i row s H1 H2)
    by (apply Hsig; cbn; lia).
  destruct (run_bar st' signals' i row s) as [[[]|e] s1]; [|reflexivity].
  apply IH; [exact H1 | exact H2 |].
  intros j Hj. apply Hsig. cbn. lia.
Qed.

Lemma nth_error_firstn_eq {A : Type} (l l' : list A) (n j : nat) :
  firstn n l = firstn n l' -> (j < n)%nat -> nth_error l j = nth_error l' j.
Proof.
  intros H Hj.
  pose proof (nth_error_firstn n l j) as E1.
  pose proof (nth_error_firstn n l' j) as E2.
  rewrite (proj2 (Nat.ltb_lt j n) Hj) in E1, E2.
  rewrite <- E1, <- E2, H. reflexivity.
Qed.

(** [calculate_metrics] also stores the first and last dates of the
    curve. *)
Lemma calculate_metrics_dates np_sqrt np_power (curve : Series)
  (tr : list Trade.t) (bc : option Series) (m : BacktestMetrics.t) :
  calculate_metrics np_sqrt np_power curve tr bc = Ok m ->
  iloc_first (index curve) = Ok (BacktestMetrics.start_date m) /\
  iloc_last (index curve) = Ok (BacktestMetrics.end_date m).
Proof.
  unfold calculate_metrics, obind.
  destruct (total_return curve) as [tot|e]; [|discriminate].
  destruct (cagr np_power curve) as [c|e]; [|discriminate].
  destruct (match bc with
            | Some c0 =>
                match total_return c0 with
                | Ok b => Ok (b, xsub tot b)
                | Raise e => Raise e
                end
            | None => Ok (Fin 0, Fin 0)
            end) as [bench|e]; [|discriminate].
  destruct (calmar_ratio np_power curve) as [k|e]; [|discriminate].
  destruct (iloc_first (index curve)) as [a|e]; [|discriminate].
  destruct (iloc_last (index curve)) as [b|e]; [|discriminate].
  intros [= <-]. cbn. split; reflexivity.
Qed.

Section RunReads.

Variable np_sqrt : Q -> Q.
Variable np_power : xfloat -> Q -> xfloat.

(** X9. The run reads one signal per bar and nothing else of the signal
    sequence: two strategies with the same stop-loss settings whose signals
    agree on the first [len(data)] positions leave the engine in the same
    state, and if one run returns so does the other, with the same trades,
    equity curve and metrics.  Signals beyond the last bar are never
    looked at. *)
Theorem run_reads_one_signal_per_bar
  (st st' : Strategy) (data : DataFrame) (benchmark : option DataFrame)
  (bt : Backtester) :
  should_use_stop_loss st = should_use_stop_loss st' ->
  stop_loss_pct st = stop_loss_pct st' ->
  firstn (length data) (generate_signals st data)
    = firstn (length data) (generate_signals st' data) ->
  snd (run np_sqrt np_power st data benchmark bt)
    = snd (run np_sqrt np_power st' data benchmark bt) /\
  (forall r,
      fst (run np_sqrt np_power st data benchmark bt) = Ok r ->
      exists r',
        fst (run np_sqrt np_power st' data benchmark bt) = Ok r' /\
        BacktestResult.trades r' = BacktestResult.trades r /\
        BacktestResult.equity_curve r' = BacktestResult.equity_curve r /\
        BacktestResult.metrics r' = BacktestResult.metrics r).
Proof.
  intros H1 H2 Hsig.
  assert (Hloop : run_loop st (generate_signals st data) 0 data (reset bt)
                  = run_loop st' (generate_signals st' data) 0 data (reset bt)).
  { apply run_loop_ext; [exact H1 | exact H2 |].
    intros j Hj. apply (nth_error_firstn_eq _ _ (length data)); [exact Hsig | lia]. }
  rewrite !run_unfold, Hloop.
  destruct (run_loop st' _ 0 data (reset bt)) as [[[]|e] s1];
    [|split; [reflexivity | discriminate]].
  destruct (close_at_end data s1) as [[[]|e] s2];
    [|split; [reflexivity | discriminate]].
  cbn [fst snd]. split; [reflexivity|].
  unfold report_outcome, obind.
  destruct (benchmark_curve_pure benchmark (initial_cash s2)
              (to_series (equity_curve s2))) as [bc|e]; [|discriminate].
  destruct (calculate_metrics np_sqrt np_power _ _ bc) as [m|e]; [|discriminate].
  intros r [= <-]. eexists. split; [reflexivity|]. cbn. repeat split.
Qed.

(** X10. What a returned result says about its input: the equity curve is
    indexed by the timestamps of the bars, [trading_days] is the number of
    bars, [start_date] and [end_date] are the timestamps of the first and
    last bar, [total_trades] is the length of the ledger, and the result
    carries the strategy and the signals it was run with. *)
Theorem returned_result_describes_its_input
  (strategy : Strategy) (data : DataFrame) (benchmark : option DataFrame)
  (bt : Backtester) (r : BacktestResult.t) :
  fst (run np_sqrt np_power strategy data benchmark bt) = Ok r ->
  let m := BacktestResult.metrics r in
  index (BacktestResult.equity_curve r) = map timestamp data /\
  BacktestMetrics.trading_days m = length data /\
  BacktestMetrics.total_trades m = length (BacktestResult.trades r) /\
  (exists row0 rest,
      data = row0 :: rest /\
      BacktestMetrics.start_date m = timestamp row0 /\
      BacktestMetrics.end_date m = timestamp (last data row0)) /\
  BacktestResult.strategy r = strategy /\
  BacktestResult.signals r = generate_signals strategy data.
Proof.
  intros Hr m.
  destruct (run_loop strategy (generate_signals strategy data) 0 data (reset bt))
    as [[[]|e] s1] eqn:Hrun;
    [|rewrite run_unfold, Hrun in Hr; discriminate].
  destruct (run_after_loop_curve np_sqrt np_power strategy data benchmark bt
              s1 Hrun) as (s2 & Hout & _ & _ & Hdates & _).
  rewrite Hout in Hr. cbn [fst] in Hr.
  assert (Hfields : BacktestResult.strategy r = strategy /\
                    BacktestResult.signals r = generate_signals strategy data).
  { revert Hr. unfold report_outcome, obind.
    destruct (benchmark_curve_pure _ _ _) as [bc|e]; [|discriminate].
    destruct (calculate_metrics np_sqrt np_power _ _ bc) as [m'|e];
      [|discriminate].
    intros [= <-]. split; reflexivity. }
  apply report_inv in Hr. destruct Hr as (Htr & Hcurve & bc & _ & Hm).
  pose proof (calculate_metrics_dates _ _ _ _ _ _ Hm) as (Hstart & Hend).
  apply calculate_metrics_inv in Hm.
  destruct Hm as (_ & _ & _ & _ & Hnt & Hdays).
  fold m in Hstart, Hend, Hnt, Hdays.
  rewrite index_to_series, Hdates in Hstart, Hend.
  split; [rewrite Hcurve, index_to_series; exact Hdates|].
  split.
  { rewrite Hdays. unfold to_series. rewrite length_map.
    rewrite <- (length_map fst), Hdates, length_map. reflexivity. }
  split; [rewrite Hnt, Htr; reflexivity|].
  split; [|exact Hfields].
  destruct data as [|row0 rest] eqn:Hd; [discriminate|].
  exists row0, rest. split; [reflexivity|].
  rewrite <- Hd in Hstart, Hend |- *.
  assert (Hne : map timestamp data <> []) by (rewrite Hd; discriminate).
  rewrite (iloc_first_ok _ (timestamp row0) Hne) in Hstart.
  rewrite (iloc_last_ok _ (timestamp row0) Hne) in Hend.
  injection Hstart as Hstart. injection Hend as Hend.
  rewrite last_map in Hend. rewrite Hd in Hstart. cbn [map hd] in Hstart.
  split; [symmetry; exact Hstart | symmetry; exact Hend].
Qed.

End RunReads.

(* ================================================================= *)
(** * Further properties of the metrics *)

(** ** Drawdown *)

(** A drawdown of a curve of positive values: finite, above -1, at most 0. *)
Definition drawdown_ok (d : xfloat) : Prop :=
  exists v, d = Fin v /\ -1 < v /\ v <= 0.

Definition drawdown_of (p : xfloat * xfloat) : xfloat :=
  xdiv (xsub (fst p) (snd p)) (snd p).

Lemma running_max_step (cur x : Q) :
  0 < cur -> 0 < x ->
  let cur' := if Qltb cur x then x else cur in
  0 < cur' /\ x <= cur' /\ cur <= cur' /\
  drawdown_ok (drawdown_of (Fin x, Fin cur')).
Proof.
  intros Hc Hx cur'.
  assert (H : 0 < cur' /\ x <= cur' /\ cur <= cur').
  { unfold cur', Qltb. destruct (Qle_bool x cur) eqn:E; cbn.
    - apply Qle_bool_iff in E. repeat split; lra.
    - assert (~ x <= cur) by (intros Hle; apply Qle_bool_iff in Hle; congruence).
      repeat split; lra. }
  destruct H as (H0 & H1 & H2). repeat split; try assumption.
  unfold drawdown_ok, drawdown_of. cbn [fst snd xsub].
  assert (Hnz : ~ cur' == 0) by lra.
  rewrite (xdiv_fin _ _ Hnz). eexists. split; [reflexivity|].
  split.
  - apply Qlt_shift_div_l; [exact H0 | lra].
  - apply Qle_shift_div_r; [exact H0 | lra].
Qed.

Lemma drawdowns_from_ok (qs : list Q) : forall cur,
  0 < cur -> Forall (fun q => 0 < q) qs ->
  Forall drawdown_ok
    (map drawdown_of
         (combine (map Fin qs) (expanding_max_from (Fin cur) (map Fin qs)))).
Proof.
  induction qs as [|x qs IH]; intros cur Hc Hall; [constructor|].
  inversion Hall as [|? ? Hx Hrest]; subst.
  cbn [map expanding_max_from is_nan xltb combine].
  destruct (running_max_step cur x Hc Hx) as (H0 & _ & _ & Hdd).
  destruct (Qltb cur x); constructor; try exact Hdd; apply IH; assumption.
Qed.

Lemma drawdowns_ok (qs : list Q) :
  Forall (fun q => 0 < q) qs ->
  Forall drawdown_ok
    (map drawdown_of (combine (map Fin qs) (expanding_max (map Fin qs)))).
Proof.
  intros Hall. destruct qs as [|x qs]; [constructor|].
  inversion Hall as [|? ? Hx Hrest]; subst.
  unfold expanding_max. cbn [map expanding_max_from is_nan combine].
  constructor.
  - unfold drawdown_ok, drawdown_of. cbn [fst snd xsub].
    assert (Hnz : ~ x == 0) by lra.
    rewrite (xdiv_fin _ _ Hnz). eexists. split; [reflexivity|].
    assert (E : (x - x) / x == 0) by (field; exact Hnz).
    rewrite E. split; lra.
  - apply drawdowns_from_ok; assumption.
Qed.

Lemma dropna_no_nan (l : list xfloat) :
  Forall (fun x => is_nan x = false) l -> dropna l = l.
Proof.
  induction l as [|x l IH]; intros H; [reflexivity|].
  inversion H as [|? ? Hx Hl]; subst. cbn. rewrite Hx. cbn.
  f_equal. apply IH, Hl.
Qed.

Lemma fold_min_in (l : list xfloat) : forall x,
  In (fold_left (fun m y => if xltb y m then y else m) l x) (x :: l).
Proof.
  induction l as [|y l IH]; intros x; [left; reflexivity|].
  cbn [fold_left]. destruct (xltb y x).
  - right. apply IH.
  - destruct (IH x) as [H | H]; [left; exact H | right; right; exact H].
Qed.

(** The minimum of a non-empty series without NaN is one of its values. *)
Lemma series_min_in (l : list xfloat) :
  l <> [] -> Forall (fun x => is_nan x = false) l -> In (series_min l) l.
Proof.
  intros Hne Hall. unfold series_min. rewrite (dropna_no_nan l Hall).
  destruct l as [|x l]; [congruence|]. apply fold_min_in.
Qed.

Lemma drawdown_ok_no_nan (l : list xfloat) :
  Forall drawdown_ok l -> Forall (fun x => is_nan x = false) l.
Proof.
  apply Forall_impl. intros d (v & -> & _). reflexivity.
Qed.

(** X11. The maximum drawdown of a non-empty curve of positive values is a
    finite percentage above -100 and at most 0. *)
Theorem max_drawdown_is_a_loss (curve : Series) (qs : list Q) :
  curve <> [] ->
  values curve = map Fin qs ->
  Forall (fun q => 0 < q) qs ->
  exists v,
    fst (max_drawdown curve) = Fin v /\ -100 < v /\ v <= 0.
Proof.
  intros Hne Hvals Hpos. unfold max_drawdown. cbn [fst].
  rewrite Hvals. fold drawdown_of.
  pose proof (drawdowns_ok qs Hpos) as Hdd.
  set (dds := map drawdown_of
                  (combine (map Fin qs) (expanding_max (map Fin qs)))) in *.
  assert (Hdne : dds <> []).
  { unfold dds. destruct qs as [|x qs].
    - destruct curve; [congruence | discriminate].
    - unfold expanding_max. cbn. discriminate. }
  pose proof (series_min_in dds Hdne (drawdown_ok_no_nan _ Hdd)) as Hin.
  rewrite Forall_forall in Hdd. destruct (Hdd _ Hin) as (v & -> & Hlo & Hhi).
  cbn [xmul]. eexists. split; [reflexivity|]. split; lra.
Qed.

Lemma Qltb_false_le (a b : Q) : Qltb a b = false -> b <= a.
Proof.
  unfold Qltb. intros H. apply negb_false_iff in H.
  apply Qle_bool_iff. exact H.
Qed.

Lemma drawdown_of_equal (x m : Q) :
  0 < m -> x == m -> fin_zero (drawdown_of (Fin x, Fin m)).
Proof.
  intros Hm Hx. unfold drawdown_of. cbn [fst snd xsub].
  assert (Hnz : ~ m == 0) by lra.
  rewrite (xdiv_fin _ _ Hnz). unfold fin_zero, xequiv.
  rewrite Hx. field. exact Hnz.
Qed.

Lemma drawdowns_from_nondecreasing (qs : list Q) : forall cur,
  0 < cur -> Sorted Qle (cur :: qs) ->
  Forall fin_zero
    (map drawdown_of
         (combine (map Fin qs) (expanding_max_from (Fin cur) (map Fin qs)))).
Proof.
  induction qs as [|x qs IH]; intros cur Hc Hs; [constructor|].
  inversion Hs as [|? ? Hs' Hhd]; subst.
  inversion Hhd as [|? ? Hle]; subst.
  cbn [map expanding_max_from is_nan xltb combine].
  destruct (Qltb cur x) eqn:E.
  - constructor.
    + apply drawdown_of_equal; [lra | reflexivity].
    + apply IH; [lra | exact Hs'].
  - apply Qltb_false_le in E.
    assert (Heq : x == cur) by lra.
    constructor.
    + apply drawdown_of_equal; assumption.
    + apply IH; [exact Hc|].
      inversion Hs' as [|? ? Hs'' Hhd']; subst.
      constructor; [exact Hs''|].
      destruct qs as [|y qs]; constructor.
      inversion Hhd'; subst. lra.
Qed.

Lemma fin_zero_no_nan (l : list xfloat) :
  Forall fin_zero l -> Forall (fun x => is_nan x = false) l.
Proof.
  apply Forall_impl. intros d H.
  destruct (fin_zero_inv d H) as (q & -> & _). reflexivity.
Qed.

Lemma fin_zero_not_underwater (l : list xfloat) :
  Forall fin_zero l ->
  existsb (fun b => b) (map (fun d => xltb d (Fin 0)) l) = false.
Proof.
  induction 1 as [|d l Hd _ IH]; [reflexivity|].
  cbn [map existsb]. rewrite IH.
  destruct (fin_zero_inv d Hd) as (q & -> & Hq).
  cbn [xltb]. unfold Qltb.
  assert (Hle : Qle_bool 0 q = true) by (apply Qle_bool_iff; lra).
  rewrite Hle. reflexivity.
Qed.

Section DrawdownProperties.

Variable np_power : xfloat -> Q -> xfloat.

(** X12. A non-empty curve of positive values that never falls has no
    drawdown: the maximum drawdown is zero, its duration is zero bars, and
    the Calmar ratio is reported as 0. *)
Theorem rising_curve_has_no_drawdown (curve : Series) (qs : list Q) :
  curve <> [] ->
  values curve = map Fin qs ->
  Forall (fun q => 0 < q) qs ->
  Sorted Qle qs ->
  fin_zero (fst (max_drawdown curve)) /\
  snd (max_drawdown curve) = 0%Z /\
  calmar_ratio np_power curve = Ok (Fin 0).
Proof.
  intros Hne Hvals Hpos Hs.
  assert (Hdd : Forall fin_zero
            (map drawdown_of
               (combine (map Fin qs) (expanding_max (map Fin qs))))).
  { destruct qs as [|x qs]; [constructor|].
    inversion Hpos as [|? ? Hx _]; subst.
    unfold expanding_max. cbn [map expanding_max_from is_nan combine].
    constructor.
    - apply drawdown_of_equal; [exact Hx | reflexivity].
    - apply drawdowns_from_nondecreasing; assumption. }
  assert (Hdne : map drawdown_of
            (combine (map Fin qs) (expanding_max (map Fin qs))) <> []).
  { destruct qs as [|x qs].
    - destruct curve; [congruence | discriminate].
    - unfold expanding_max. cbn. discriminate. }
  assert (Hmax : fin_zero (fst (max_drawdown curve))).
  { unfold max_drawdown. cbn [fst]. rewrite Hvals. fold drawdown_of.
    pose proof (series_min_in _ Hdne (fin_zero_no_nan _ Hdd)) as Hin.
    rewrite Forall_forall in Hdd.
    destruct (fin_zero_inv _ (Hdd _ Hin)) as (v & -> & Hv).
    cbn [xmul]. unfold fin_zero, xequiv. rewrite Hv. ring. }
  split; [exact Hmax|]. split.
  - unfold max_drawdown. cbn [snd]. rewrite Hvals. fold drawdown_of.
    rewrite (fin_zero_not_underwater _ Hdd). reflexivity.
  - unfold calmar_ratio, obind.
    destruct (cagr_ok np_power curve Hne) as (c & ->).
    destruct (fin_zero_inv _ Hmax) as (v & -> & Hv).
    cbn [xabs].
    assert (H100 : ~ 100 == 0) by discriminate.
    rewrite (xdiv_fin _ _ H100).
    assert (Hz : xeqb (Fin (Qabs v / 100)) (Fin 0) = true).
    { apply xeqb_zero_iff. unfold fin_zero, xequiv. rewrite Hv. reflexivity. }
    rewrite Hz. reflexivity.
Qed.

End DrawdownProperties.

(** ** The benchmark return *)


Definition in_window (first last : datetime) (row : Bar) : bool :=
  (first <=? timestamp row)%Z && (timestamp row <=? last)%Z.

Lemma loc_slice_scale (b : DataFrame) (c0 cash0 : Q) (first last : datetime) :
  loc_slice (scale_benchmark b c0 cash0) first last =
  scale_benchmark (filter (in_window first last) b) c0 cash0.
Proof.
  unfold loc_slice, scale_benchmark, in_window.
  induction b as [|row b IH]; [reflexivity|].
  cbn [map filter fst]. rewrite IH.
  destruct ((first <=? timestamp row)%Z && (timestamp row <=? last)%Z);
    reflexivity.
Qed.






(* ================================================================= *)
(** ** The dates of a trade *)

(** A trade that was entered no later than it was closed. *)
Definition trade_dated (t : Trade.t) : Prop :=
  exists d, Trade.entry_date t = Some d /\ (d <= Trade.exit_date t)%Z.

Definition dated_inv (now : datetime) (s : Backtester) : Prop :=
  engine_inv now s /\ Forall trade_dated (trades s).

Lemma dated_inv_later (a b : datetime) s :
  (a <= b)%Z -> dated_inv a s -> dated_inv b s.
Proof.
  intros Hab (Hinv & Hd). split; [apply (engine_inv_later a b s Hab Hinv) | exact Hd].
Qed.

Lemma dated_inv_tracked now p s : dated_inv now s -> dated_inv now (tracked p s).
Proof.
  intros (Hinv & Hd). split; [apply engine_inv_tracked, Hinv|].
  destruct (tracked_fields p s) as (_ & _ & _ & _ & -> & _). exact Hd.
Qed.

Lemma dated_inv_sold now p r s : dated_inv now s -> dated_inv now (sold now p r s).
Proof.
  intros (Hinv & Hd). split; [apply engine_inv_sold, Hinv|].
  unfold sold, _sell. destruct (position s <=? 0)%Z eqn:Hpos; [exact Hd|].
  apply Z.leb_gt in Hpos. cbn [snd trades].
  apply Forall_app. split; [exact Hd|]. constructor; [|constructor].
  destruct Hinv as ((_ & Hiff & _) & _ & _ & He).
  destruct (entry_date s) as [d|] eqn:E;
    [|exfalso; apply (proj1 Hiff Hpos); reflexivity].
  exists d. cbn [Trade.entry_date Trade.exit_date].
  split; [reflexivity|]. apply (He d eq_refl).
Qed.

Lemma dated_inv_bought now p f shares s :
  (0 < shares)%Z -> ~ f == 0 ->
  dated_inv now s -> dated_inv now (bought now p f shares s).
Proof.
  intros Hpos Hf (Hinv & Hd).
  split; [apply engine_inv_bought; assumption | exact Hd].
Qed.

Lemma dated_inv_bar strategy signals i row now s :
  (now <= timestamp row)%Z ->
  dated_inv now s ->
  dated_inv (timestamp row) (snd (run_bar strategy signals i row s)).
Proof.
  intros Hnow Hinv. apply (dated_inv_later _ _ _ Hnow) in Hinv.
  revert s Hinv. apply run_bar_preserves.
  - intros; apply dated_inv_tracked; assumption.
  - intros; apply dated_inv_sold; assumption.
  - intros; apply dated_inv_bought; assumption.
  - intros x Hx. exact Hx.
Qed.

Lemma dated_inv_loop strategy signals rows : forall i now s s',
  chronological rows ->
  Forall (fun r => (now <= timestamp r)%Z) rows ->
  dated_inv now s ->
  run_loop strategy signals i rows s = (Ok tt, s') ->
  dated_inv (last (map timestamp rows) now) s'.
Proof.
  induction rows as [|row rows IH]; intros i now s s' Hchr Hge Hinv Hrun.
  - cbn in Hrun. injection Hrun as <-. exact Hinv.
  - apply chronological_cons in Hchr. destruct Hchr as (Hchr & Hrow).
    inversion Hge as [|? ? Hnow _]; subst.
    pose proof (dated_inv_bar strategy signals i row now s Hnow Hinv) as Hb.
    rewrite run_loop_cons in Hrun.
    destruct (run_bar strategy signals i row s) as [[[]|e] s1];
      [|discriminate].
    cbn [snd] in Hb. cbn [map]. rewrite last_cons_default.
    apply (IH (S i) (timestamp row) s1 s' Hchr Hrow Hb Hrun).
Qed.

Section TradeDates.

Variable np_sqrt : Q -> Q.
Variable np_power : xfloat -> Q -> xfloat.

(** X14. Over chronological bars every trade of the returned ledger has an
    entry date, and it is no later than its exit date. *)
Theorem trades_are_entered_before_they_exit
  (strategy : Strategy) (data : DataFrame) (benchmark : option DataFrame)
  (bt : Backtester) (r : BacktestResult.t) :
  chronological data ->
  fst (run np_sqrt np_power strategy data benchmark bt) = Ok r ->
  Forall trade_dated (BacktestResult.trades r).
Proof.
  intros Hchr Hr.
  destruct (run_loop strategy (generate_signals strategy data) 0 data (reset bt))
    as [[[]|e] s1] eqn:Hrun;
    [|rewrite run_unfold, Hrun in Hr; discriminate].
  destruct (run_after_loop np_sqrt np_power _ _ benchmark _ _ Hrun)
    as (s2 & _ & Hout & Hflat & Hopen).
  rewrite Hout in Hr. cbn [fst] in Hr. apply report_inv in Hr.
  destruct Hr as (-> & _).
  destruct data as [|row0 rest] eqn:Hd.
  - apply run_loop_flat_nil in Hrun. subst s1.
    rewrite Hflat by (cbn; lia). constructor.
  - assert (H0 : dated_inv (timestamp row0) (reset bt))
      by (split; [apply engine_inv_reset | constructor]).
    pose proof (dated_inv_loop strategy _ _ 0 (timestamp row0) (reset bt) s1
                  Hchr (chronological_from_first _ _ Hchr) H0 Hrun) as Hinv.
    destruct (Z_lt_le_dec 0 (position s1)) as [Hpos|Hpos].
    + destruct (Hopen Hpos) as (front & row & Hdata & ->).
      rewrite Hdata, map_app in Hinv. cbn [map] in Hinv.
      rewrite last_last in Hinv.
      apply (dated_inv_sold _ (close row) end_of_data) in Hinv.
      apply Hinv.
    + rewrite (Hflat Hpos). apply Hinv.
Qed.

End TradeDates.

(* ================================================================= *)
(** ** The trade statistics *)

Lemma filter_all {A : Type} (f : A -> bool) (l : list A) :
  Forall (fun x => f x = true) l -> filter f l = l.
Proof.
  induction 1 as [|x l Hx _ IH]; [reflexivity|].
  cbn. rewrite Hx, IH. reflexivity.
Qed.

Lemma filter_none {A : Type} (f : A -> bool) (l : list A) :
  Forall (fun x => f x = false) l -> filter f l = [].
Proof.
  induction 1 as [|x l Hx _ IH]; [reflexivity|].
  cbn. rewrite Hx, IH. reflexivity.
Qed.

Lemma filter_length_all {A : Type} (f : A -> bool) (l : list A) :
  length (filter f l) = length l -> Forall (fun x => f x = true) l.
Proof.
  induction l as [|x l IH]; intros H; [constructor|].
  cbn in H. pose proof (filter_length_le f l) as Hle.
  destruct (f x) eqn:E; cbn in H; [|lia].
  constructor; [exact E | apply IH; lia].
Qed.

Lemma filter_length_none {A : Type} (f : A -> bool) (l : list A) :
  length (filter f l) = 0%nat -> Forall (fun x => f x = false) l.
Proof.
  induction l as [|x l IH]; intros H; [constructor|].
  cbn in H. destruct (f x) eqn:E; cbn in H; [discriminate|].
  constructor; [exact E | apply IH, H].
Qed.

Definition is_winner (t : Trade.t) : bool := xltb (Fin 0) (Trade.pnl_pct t).

Lemma winners_length (trades : list Trade.t) :
  length (filter (fun p => xltb (Fin 0) p) (map Trade.pnl_pct trades))
  = length (filter is_winner trades).
Proof.
  induction trades as [|t l IH]; [reflexivity|].
  cbn [map filter]. unfold is_winner at 1.
  destruct (xltb (Fin 0) (Trade.pnl_pct t)); cbn [length]; rewrite IH; reflexivity.
Qed.

Lemma ratio_bounds (a b q : Q) :
  0 < b -> 0 <= a -> a <= b -> q * b == 100 * a ->
  0 <= q /\ q <= 100 /\ (q == 100 <-> a == b) /\ (q == 0 <-> a == 0).
Proof.
  intros Hb Ha Hab Hq.
  repeat split; try nra; intros H; rewrite H in Hq; nra.
Qed.

Lemma ratio_percent (w n : nat) :
  (w <= n)%nat -> (0 < n)%nat ->
  let q := inject_Z (Z.of_nat w) / inject_Z (Z.of_nat n) * 100 in
  0 <= q /\ q <= 100 /\ (q == 100 <-> w = n) /\ (q == 0 <-> w = 0%nat).
Proof.
  intros Hle Hn q.
  assert (Hnq : 0 < inject_Z (Z.of_nat n)).
  { rewrite <- (Zlt_Qlt 0). lia. }
  assert (Hwq : 0 <= inject_Z (Z.of_nat w)).
  { rewrite <- (Zle_Qle 0). lia. }
  assert (Hwn : inject_Z (Z.of_nat w) <= inject_Z (Z.of_nat n)).
  { rewrite <- Zle_Qle. lia. }
  assert (Hq : q * inject_Z (Z.of_nat n) == 100 * inject_Z (Z.of_nat w)).
  { unfold q. field. intros H. rewrite H in Hnq. apply (Qlt_irrefl 0 Hnq). }
  destruct (ratio_bounds _ _ q Hnq Hwq Hwn Hq) as (H0 & H100 & Hall & Hnone).
  split; [exact H0|]. split; [exact H100|]. split.
  - rewrite Hall. rewrite inject_Z_injective. lia.
  - rewrite Hnone. change 0 with (inject_Z 0). rewrite inject_Z_injective. lia.
Qed.

(** X15. The win rate of a non-empty ledger is a percentage between 0 and
    100; it is 100 exactly when every trade has a positive [pnl_pct] and 0
    exactly when none has.  [total_trades] is the length of the ledger. *)
Theorem win_rate_is_a_percentage (trades : list Trade.t) :
  trades <> [] ->
  TradeStats.total_trades (analyze_trades trades) = length trades /\
  exists q,
    TradeStats.win_rate (analyze_trades trades) = Fin q /\
    0 <= q /\ q <= 100 /\
    (q == 100 <-> Forall (fun t => is_winner t = true) trades) /\
    (q == 0 <-> Forall (fun t => is_winner t = false) trades).
Proof.
  intros Hne. unfold analyze_trades.
  destruct (length trades =? 0)%nat eqn:E.
  { apply Nat.eqb_eq in E. destruct trades; [congruence | discriminate]. }
  apply Nat.eqb_neq in E.
  cbn [TradeStats.total_trades TradeStats.win_rate].
  split; [reflexivity|].
  assert (Hn : (0 < length trades)%nat) by lia.
  rewrite winners_length. unfold xof_nat.
  rewrite (xdiv_fin _ _ (xof_nat_nonzero (length trades) Hn)). cbn [xmul].
  eexists. split; [reflexivity|].
  pose proof (filter_length_le is_winner trades) as Hle.
  destruct (ratio_percent _ _ Hle Hn) as (H0 & H100 & Hall & Hnone).
  split; [exact H0|]. split; [exact H100|]. split.
  - rewrite Hall. split.
    + apply filter_length_all.
    + intros H. rewrite (filter_all _ _ H). reflexivity.
  - rewrite Hnone. split.
    + apply filter_length_none.
    + intros H. rewrite (filter_none _ _ H). reflexivity.
Qed.

(** The sum of a list of rationals, from the left. *)
Definition Qsum (l : list Q) : Q := fold_left Qplus l 0.

Lemma fold_xadd_fin (qs : list Q) : forall a,
  fold_left xadd (map Fin qs) (Fin a) = Fin (fold_left Qplus qs a).
Proof.
  induction qs as [|q qs IH]; intros a; [reflexivity|].
  cbn [map fold_left xadd]. apply IH.
Qed.

Lemma series_sum_fin (qs : list Q) : series_sum (map Fin qs) = Fin (Qsum qs).
Proof.
  unfold series_sum, xsum, Qsum.
  rewrite dropna_no_nan; [apply fold_xadd_fin|].
  apply Forall_forall. intros x Hx. apply in_map_iff in Hx.
  destruct Hx as (q & <- & _). reflexivity.
Qed.

Lemma fold_Qplus_sign (qs : list Q) : forall a,
  (Forall (fun q => 0 < q) qs -> 0 <= a -> 0 <= fold_left Qplus qs a) /\
  (Forall (fun q => q <= 0) qs -> a <= 0 -> fold_left Qplus qs a <= 0).
Proof.
  induction qs as [|q qs IH]; intros a; cbn [fold_left].
  - split; intros _ H; exact H.
  - split; intros Hall Ha; inversion Hall; subst; apply IH; try assumption; lra.
Qed.


(** X17. A non-empty ledger without a winning trade has profit factor 0
    and win rate 0. *)
Theorem profit_factor_without_winners (trades : list Trade.t) (qs : list Q) :
  trades <> [] ->
  map Trade.pnl_pct trades = map Fin qs ->
  Forall (fun q => q <= 0) qs ->
  let stats := analyze_trades trades in
  fin_zero (TradeStats.profit_factor stats) /\
  TradeStats.avg_win stats = Fin 0 /\
  fin_zero (TradeStats.win_rate stats).
Proof.
  intros Hne Hpnl Hneg stats. unfold stats, analyze_trades.
  destruct (length trades =? 0)%nat eqn:E.
  { apply Nat.eqb_eq in E. destruct trades; [congruence | discriminate]. }
  apply Nat.eqb_neq in E.
  cbn [TradeStats.profit_factor TradeStats.avg_win TradeStats.win_rate].
  rewrite Hpnl.
  assert (Hwin : filter (fun p => xltb (Fin 0) p) (map Fin qs) = []).
  { apply filter_none, Forall_forall. intros x Hx. apply in_map_iff in Hx.
    destruct Hx as (q & <- & Hq). rewrite Forall_forall in Hneg.
    specialize (Hneg q Hq). cbn [xltb]. unfold Qltb.
    assert (H1 : Qle_bool q 0 = true) by (apply Qle_bool_iff; exact Hneg).
    rewrite H1. reflexivity. }
  assert (Hlose : filter (fun p => xleb p (Fin 0)) (map Fin qs) = map Fin qs).
  { apply filter_all, Forall_forall. intros x Hx. apply in_map_iff in Hx.
    destruct Hx as (q & <- & Hq). rewrite Forall_forall in Hneg.
    specialize (Hneg q Hq). unfold xleb. cbn [xltb xeqb]. unfold Qltb.
    destruct (Qle_bool 0 q) eqn:H1; [|reflexivity]. cbn [negb orb].
    apply Qle_bool_iff in H1. apply Qeq_bool_iff. lra. }
  rewrite Hwin, Hlose.
  change (0 <? length (@nil xfloat))%nat with false. cbv iota.
  split; [|split].
  - destruct (0 <? length (map Fin qs))%nat.
    + rewrite series_sum_fin. cbn [xabs xltb].
      destruct (Qltb 0 (Qabs (Qsum qs))) eqn:Hb;
        [|unfold fin_zero, xequiv; reflexivity].
      assert (Hnz : ~ Qabs (Qsum qs) == 0).
      { intros H. unfold Qltb in Hb. apply negb_true_iff in Hb.
        assert (Hle : Qle_bool (Qabs (Qsum qs)) 0 = true)
          by (apply Qle_bool_iff; lra).
        congruence. }
      rewrite (xdiv_fin _ _ Hnz). unfold fin_zero, xequiv. field. exact Hnz.
    + unfold fin_zero, xequiv. reflexivity.
  - reflexivity.
  - assert (Hpos' : (0 < length trades)%nat) by lia.
    unfold xof_nat. rewrite (xdiv_fin _ _ (xof_nat_nonzero _ Hpos')).
    cbn [xmul]. unfold fin_zero, xequiv. cbn [length Z.of_nat inject_Z].
    field. apply xof_nat_nonzero. lia.
Qed.

(* ================================================================= *)
(** ** The annual return and the benchmark window *)

Lemma timedelta_days_short (later earlier : datetime) :
  (later - earlier < ns_per_day)%Z -> (timedelta_days later earlier <= 0)%Z.
Proof.
  intros H. unfold timedelta_days.
  assert (Hpos : (0 < ns_per_day)%Z) by reflexivity.
  destruct (Z_lt_le_dec (later - earlier) 0) as [Hneg|Hnn].
  - pose proof (Z.div_lt_upper_bound (later - earlier) ns_per_day 0 Hpos) as Hd.
    rewrite Z.mul_0_r in Hd. specialize (Hd Hneg).
    apply Z.lt_le_incl. exact Hd.
  - rewrite Z.div_small; [apply Z.le_refl | split; assumption].
Qed.

Lemma years_not_positive (days : Z) :
  (days <= 0)%Z -> Qle_bool (inject_Z days / (36525 # 100)) 0 = true.
Proof.
  intros H. apply Qle_bool_iff. apply Qle_shift_div_r; [reflexivity|].
  rewrite Qmult_0_l. change 0 with (inject_Z 0).
  rewrite <- Zle_Qle. exact H.
Qed.

Section ShortRuns.

Variable np_sqrt : Q -> Q.
Variable np_power : xfloat -> Q -> xfloat.

Lemma cagr_short (curve : Series) (p0 : datetime * xfloat) (rest : Series) :
  curve = p0 :: rest ->
  (fst (last curve p0) - fst p0 < ns_per_day)%Z ->
  cagr np_power curve = Ok (Fin 0).
Proof.
  intros Hc Hshort. unfold cagr, obind.
  assert (Hne : index curve <> []) by (rewrite Hc; discriminate).
  rewrite (iloc_last_ok _ (fst p0) Hne), (iloc_first_ok _ (fst p0) Hne).
  unfold index at 1. rewrite (last_map fst).
  replace (hd (fst p0) (index curve)) with (fst p0) by (rewrite Hc; reflexivity).
  rewrite (years_not_positive _ (timedelta_days_short _ _ Hshort)).
  reflexivity.
Qed.

Lemma calculate_metrics_annual (curve : Series) (tr : list Trade.t)
  (bc : option Series) (m : BacktestMetrics.t) :
  calculate_metrics np_sqrt np_power curve tr bc = Ok m ->
  cagr np_power curve = Ok (BacktestMetrics.annual_return m).
Proof.
  unfold calculate_metrics, obind.
  destruct (total_return curve) as [tot|e]; [|discriminate].
  destruct (cagr np_power curve) as [c|e]; [|discriminate].
  destruct (match bc with
            | Some c0 =>
                match total_return c0 with
                | Ok b => Ok (b, xsub tot b)
                | Raise e => Raise e
                end
            | None => Ok (Fin 0, Fin 0)
            end) as [bench|e]; [|discriminate].
  destruct (calmar_ratio np_power curve) as [k|e]; [|discriminate].
  destruct (iloc_first (index curve)) as [a|e]; [|discriminate].
  destruct (iloc_last (index curve)) as [b|e]; [|discriminate].
  intros [= <-]. reflexivity.
Qed.

(** What a returned run hands to the metrics. *)
Lemma run_returned strategy data benchmark bt r :
  fst (run np_sqrt np_power strategy data benchmark bt) = Ok r ->
  exists s2 bc,
    map fst (equity_curve s2) = map timestamp data /\
    initial_cash s2 = initial_cash bt /\
    benchmark_curve_pure benchmark (initial_cash s2) (to_series (equity_curve s2))
      = Ok bc /\
    calculate_metrics np_sqrt np_power (to_series (equity_curve s2)) (trades s2) bc
      = Ok (BacktestResult.metrics r).
Proof.
  intros Hr.
  destruct (run_loop strategy (generate_signals strategy data) 0 data (reset bt))
    as [[[]|e] s1] eqn:Hrun;
    [|rewrite run_unfold, Hrun in Hr; discriminate].
  destruct (run_after_loop_curve np_sqrt np_power strategy data benchmark bt
              s1 Hrun) as (s2 & Hout & _ & _ & Hdates & Hcfg).
  rewrite Hout in Hr. cbn [fst] in Hr.
  apply report_inv in Hr. destruct Hr as (_ & _ & bc & Hbc & Hm).
  exists s2, bc. split; [exact Hdates|].
  split; [symmetry; apply Hcfg|]. split; assumption.
Qed.

(** X18. A run whose bars span less than one day reports an annual return
    of 0, whatever the equity did: the growth rate is only computed when at
    least one whole day lies between the first and the last bar. *)
Theorem short_run_has_no_annual_return
  (strategy : Strategy) (data : DataFrame) (benchmark : option DataFrame)
  (bt : Backtester) (r : BacktestResult.t) (row0 : Bar) (rest : DataFrame) :
  fst (run np_sqrt np_power strategy data benchmark bt) = Ok r ->
  data = row0 :: rest ->
  (timestamp (last data row0) - timestamp row0 < ns_per_day)%Z ->
  BacktestMetrics.annual_return (BacktestResult.metrics r) = Fin 0.
Proof.
  intros Hr Hd Hshort.
  destruct (run_returned _ _ _ _ _ Hr) as (s2 & bc & Hdates & _ & _ & Hm).
  apply calculate_metrics_annual in Hm.
  destruct (equity_curve s2) as [|p0 crest] eqn:Hc.
  { rewrite Hd in Hdates. discriminate. }
  assert (Hfirst : fst p0 = timestamp row0).
  { rewrite Hd in Hdates. cbn in Hdates. congruence. }
  assert (Hlast : fst (last (p0 :: crest) p0) = timestamp (last data row0)).
  { rewrite <- (last_map fst), <- (last_map timestamp), Hdates, Hfirst.
    reflexivity. }
  rewrite (cagr_short (to_series (p0 :: crest)) (fst p0, Fin (snd p0))
             (to_series crest)) in Hm.
  - injection Hm as <-. reflexivity.
  - reflexivity.
  - unfold to_series.
    rewrite (last_map (fun p => (fst p, Fin (snd p))) (p0 :: crest) p0).
    cbn [fst]. rewrite Hlast, Hfirst. exact Hshort.
Qed.

Lemma scale_benchmark_nil_window (b : DataFrame) (c0 cash0 : Q)
  (first last : datetime) :
  Forall (fun brow => in_window first last brow = false) b ->
  loc_slice (scale_benchmark b c0 cash0) first last = [].
Proof.
  intros H. rewrite loc_slice_scale, (filter_none _ _ H). reflexivity.
Qed.

Lemma calculate_metrics_empty_benchmark (curve : Series) (tr : list Trade.t) :
  calculate_metrics np_sqrt np_power curve tr (Some []) = Raise IndexError.
Proof.
  unfold calculate_metrics, obind.
  destruct curve as [|p0 rest]; [reflexivity|].
  rewrite (total_return_ok (p0 :: rest)) by discriminate.
  destruct (cagr_ok np_power (p0 :: rest)) as (c & ->); [discriminate|].
  reflexivity.
Qed.

(** X19. A benchmark with no row dated between the first and the last bar
    of the data makes the run fail: no result is returned, and when the
    simulation itself completes, the failure is the index error of the
    report on the empty benchmark window.  (The benchmark is in date order,
    as the label slice of the report needs.) *)
Theorem benchmark_outside_the_data_fails
  (strategy : Strategy) (row0 : Bar) (rest : DataFrame) (b : DataFrame)
  (bt : Backtester) :
  let data := row0 :: rest in
  chronological b ->
  Forall (fun brow =>
            in_window (timestamp row0) (timestamp (last data row0)) brow = false)
         b ->
  (forall r, fst (run np_sqrt np_power strategy data (Some b) bt) <> Ok r) /\
  (forall s1,
      run_loop strategy (generate_signals strategy data) 0 data (reset bt)
        = (Ok tt, s1) ->
      fst (run np_sqrt np_power strategy data (Some b) bt) = Raise IndexError).
Proof.
  intros data _ Hout.
  assert (Hloop : forall s1,
      run_loop strategy (generate_signals strategy data) 0 data (reset bt)
        = (Ok tt, s1) ->
      fst (run np_sqrt np_power strategy data (Some b) bt) = Raise IndexError).
  { intros s1 Hrun.
    destruct (run_after_loop_curve np_sqrt np_power strategy data (Some b) bt
                s1 Hrun) as (s2 & -> & _ & _ & Hdates & _).
    cbn [fst]. unfold report_outcome, obind.
    destruct b as [|bf br]; [reflexivity|].
    destruct (equity_curve s2) as [|p0 crest] eqn:Hc; [discriminate|].
    rewrite benchmark_curve_some_ok.
    assert (Hfirst : fst p0 = timestamp row0).
    { cbn in Hdates. congruence. }
    assert (Hlast : fst (last (p0 :: crest) p0) = timestamp (last data row0)).
    { rewrite <- (last_map fst), <- (last_map timestamp), Hdates, Hfirst.
      reflexivity. }
    rewrite Hlast, Hfirst, (scale_benchmark_nil_window _ _ _ _ _ Hout).
    rewrite calculate_metrics_empty_benchmark. reflexivity. }
  split; [|exact Hloop].
  intros r Hr.
  destruct (run_loop strategy (generate_signals strategy data) 0 data (reset bt))
    as [[[]|e] s1] eqn:Hrun.
  - rewrite (Hloop s1 eq_refl) in Hr. discriminate.
  - rewrite run_unfold, Hrun in Hr. discriminate.
Qed.

(** X20. When every return of the series is negative, the Sortino ratio is
    the Sharpe ratio: the downside deviation is then the deviation of the
    whole series. *)
Theorem sortino_is_sharpe_when_every_return_is_negative
  (returns : list xfloat) (risk_free_rate : Q) :
  returns <> [] ->
  Forall (fun r => xltb r (Fin 0) = true) returns ->
  sortino_ratio np_sqrt returns risk_free_rate
  = sharpe_ratio np_sqrt returns risk_free_rate.
Proof.
  intros Hne Hall. unfold sortino_ratio, sharpe_ratio.
  rewrite (filter_all _ _ Hall).
  destruct returns as [|x l]; [congruence|]. reflexivity.
Qed.

End ShortRuns.

(* ================================================================= *)
(** ** Position sizing *)

(** [Strategy.position_size] of strategies/base.py: [int(cash / price)].
    The engine sizes its orders itself, in [_buy], and never calls it.  The
    division is the one of the price column; the property below is about
    positive prices only. *)
Definition position_size (cash price : Q) : outcome Z :=
  py_int (xdiv (Fin cash) (Fin price)).

Lemma Qtrunc_nonneg (q : Q) : 0 <= q -> Qtrunc q = Qfloor q.
Proof.
  intros H. apply Qtrunc_nonneg_num.
  unfold Qle in H. cbn in H. lia.
Qed.

(** X21. At a positive price, with slippage and commission that are not
    negative, an order filled by [_buy] never holds more shares than the
    default [position_size] of the strategy would buy with the same cash
    at the quoted price. *)
Theorem buy_never_exceeds_position_size
  (self self' : Backtester) (date : datetime) (p : Q) :
  0 < p -> 0 <= slippage self -> 0 <= commission self ->
  _buy date p self = (Ok tt, self') ->
  (0 < position self')%Z ->
  position self = 0%Z ->
  exists n, position_size (cash self) p = Ok n /\ (position self' <= n)%Z.
Proof.
  intros Hp Hslip Hcom Hbuy Hpos Hflat.
  assert (Hfill : 0 < p * (1 + slippage self)) by nra.
  assert (Hnz : ~ p * (1 + slippage self) == 0) by lra.
  assert (Hpnz : ~ p == 0) by lra.
  rewrite (buy_eq self date p Hnz) in Hbuy. cbv zeta in Hbuy.
  destruct (Qfloor _ <=? 0)%Z eqn:E.
  { injection Hbuy as <-. lia. }
  injection Hbuy as <-. clear Hpos.
  apply Z.leb_gt in E.
  unfold position_size. rewrite (xdiv_fin _ _ Hpnz).
  exists (Qtrunc (cash self / p)). split; [reflexivity|].
  set (a := (cash self - commission self) / (p * (1 + slippage self))) in *.
  change (Qfloor a <= Qtrunc (cash self / p))%Z.
  assert (Ha : 1 <= a).
  { pose proof (Qfloor_le a) as Hle.
    assert (H1 : inject_Z 1 <= inject_Z (Qfloor a)) by (rewrite <- Zle_Qle; lia).
    change (inject_Z 1) with 1 in H1. lra. }
  assert (Havail : p * (1 + slippage self) <= cash self - commission self).
  { assert (Hmul : a * (p * (1 + slippage self)) == cash self - commission self)
      by (unfold a; field; split; lra).
    nra. }
  assert (Hle : a <= cash self / p).
  { unfold a. apply Qle_shift_div_l; [exact Hp|].
    assert (Hmul : (cash self - commission self) / (p * (1 + slippage self)) * p
                   == (cash self - commission self) / (1 + slippage self)).
    { field. split; lra. }
    rewrite Hmul. apply Qle_shift_div_r; nra. }
  rewrite Qtrunc_nonneg by lra.
  apply Qfloor_resp_le, Hle.
Qed.

(* ================================================================= *)
(** ** Solvency *)


Lemma inject_Z_nonneg (z : Z) : (0 <= z)%Z -> 0 <= inject_Z z.
Proof. intros H. change 0 with (inject_Z 0). rewrite <- Zle_Qle. exact H. Qed.









(** The curve only grows during the loop. *)
Lemma run_loop_curve_prefix strategy signals rows : forall i s s',
  run_loop strategy signals i rows s = (Ok tt, s') ->
  exists tail, equity_curve s' = equity_curve s ++ tail.
Proof.
  induction rows as [|row rows IH]; intros i s s' H.
  - cbn in H. injection H as <-. exists []. rewrite app_nil_r. reflexivity.
  - rewrite run_loop_cons in H.
    destruct (run_bar strategy signals i row s) as [[[]|e] s1] eqn:Hbar;
      [|discriminate].
    apply run_bar_ok_inv in Hbar. destruct Hbar as (signal & _ & Hres).
    destruct (IH _ _ _ H) as (tail & ->).
    rewrite (bar_result_equity _ _ _ _ _ Hres), <- app_assoc.
    eexists. reflexivity.
Qed.

Lemma reset_fields bt :
  position (reset bt) = 0%Z /\ cash (reset bt) = initial_cash bt /\
  slippage (reset bt) = slippage bt /\ commission (reset bt) = commission bt /\
  equity_curve (reset bt) = [].
Proof. repeat split. Qed.

(** The first bar of a run, valued after its order. *)
Lemma first_bar_equity strategy signal row bt s' :
  0 <= close row -> 0 <= slippage bt -> 0 <= commission bt ->
  bar_result strategy signal row (reset bt) (Ok tt, s') ->
  cash s' + inject_Z (position s') * close row <= initial_cash bt.
Proof.
  intros Hp Hs Hc H.
  destruct (reset_fields bt) as (Hpos0 & Hcash0 & Hslip0 & Hcom0 & _).
  inversion H; subst.
  - lia.
  - match goal with
    | Hbuy : _buy _ _ _ = _ |- _ => apply buy_ok_cases in Hbuy;
        destruct Hbuy as [-> | (shares & Hpos & Hfill & ->)]
    end.
    + cbn [recorded _record_equity snd cash position].
      rewrite Hpos0, Hcash0. change (inject_Z 0) with 0. lra.
    + cbn [recorded _record_equity snd cash position bought].
      rewrite Hcash0, Hslip0, Hcom0.
      pose proof (inject_Z_nonneg shares ltac:(lia)) as Hq.
      pose proof (Qmult_le_0_compat _ _ Hq
                    (Qmult_le_0_compat _ _ Hp Hs)) as Hloss.
      lra.
  - lia.
  - rewrite tracked_flat by lia.
    cbn [recorded _record_equity snd cash position].
    rewrite Hpos0, Hcash0. change (inject_Z 0) with 0. lra.
Qed.

Section Solvency.

Variable np_sqrt : Q -> Q.
Variable np_power : xfloat -> Q -> xfloat.


(** X24. The equity curve of a returned run starts at or below the initial
    cash (closes, slippage and commission not negative): a buy on the
    first bar is valued at the close, below its fill price, and has paid
    its commission.  The total return is measured from that first value. *)
Theorem first_equity_is_at_most_the_initial_cash
  (strategy : Strategy) (data : DataFrame) (benchmark : option DataFrame)
  (bt : Backtester) (r : BacktestResult.t) :
  fst (run np_sqrt np_power strategy data benchmark bt) = Ok r ->
  0 <= slippage bt -> 0 <= commission bt ->
  Forall (fun row => 0 <= close row) data ->
  exists e rest,
    values (BacktestResult.equity_curve r) = Fin e :: rest /\
    e <= initial_cash bt.
Proof.
  intros Hr Hs Hc Hall.
  destruct (run_loop strategy (generate_signals strategy data) 0 data (reset bt))
    as [[[]|e] s1] eqn:Hrun;
    [|rewrite run_unfold, Hrun in Hr; discriminate].
  destruct (run_after_loop_curve np_sqrt np_power strategy data benchmark bt
              s1 Hrun) as (s2 & Hout & Hcurve & _).
  rewrite Hout in Hr. cbn [fst] in Hr.
  destruct data as [|row0 rest0].
  { apply run_loop_flat_nil in Hrun. subst s1.
    rewrite report_nil in Hr by (rewrite Hcurve; reflexivity). discriminate. }
  apply report_inv in Hr. destruct Hr as (_ & -> & _).
  rewrite Hcurve. rewrite run_loop_cons in Hrun.
  destruct (run_bar strategy (generate_signals strategy (row0 :: rest0)) 0 row0
              (reset bt)) as [[[]|e] sa] eqn:Hbar; [|discriminate].
  apply run_bar_ok_inv in Hbar. destruct Hbar as (signal & _ & Hres).
  destruct (run_loop_curve_prefix _ _ _ _ _ _ Hrun) as (tail & ->).
  rewrite (bar_result_equity _ _ _ _ _ Hres).
  inversion Hall as [|? ? Hrow _]; subst.
  eexists. eexists. split; [cbn; reflexivity|].
  apply (first_bar_equity strategy signal row0 bt sa Hrow Hs Hc Hres).
Qed.

(** X25. Unless the run ended with a forced close, the last value of the
    returned equity curve is the cash left in the object: with no trade
    marked [end_of_data], the reported final equity is money in hand. *)
Theorem final_equity_is_the_cash_left
  (strategy : Strategy) (data : DataFrame) (benchmark : option DataFrame)
  (bt : Backtester) (r : BacktestResult.t) :
  fst (run np_sqrt np_power strategy data benchmark bt) = Ok r ->
  Forall (fun t => Trade.exit_reason t <> end_of_data)
         (BacktestResult.trades r) ->
  exists front date e,
    BacktestResult.equity_curve r = front ++ [(date, Fin e)] /\
    e == cash (snd (run np_sqrt np_power strategy data benchmark bt)).
Proof.
  intros Hr Hnone.
  destruct (run_loop strategy (generate_signals strategy data) 0 data (reset bt))
    as [[[]|e] s1] eqn:Hrun;
    [|rewrite run_unfold, Hrun in Hr; discriminate].
  destruct (run_after_loop np_sqrt np_power strategy data benchmark bt s1 Hrun)
    as (s2 & _ & Hout & Hflat & Hopen).
  rewrite Hout in Hr |- *. cbn [fst snd] in *.
  destruct data as [|row0 rest0].
  { apply run_loop_flat_nil in Hrun. subst s1.
    rewrite (Hflat ltac:(cbn; lia)) in Hr.
    rewrite report_nil in Hr by reflexivity. discriminate. }
  apply report_inv in Hr. destruct Hr as (Htr & -> & _).
  rewrite Htr in Hnone.
  destruct (Z_lt_le_dec 0 (position s1)) as [Hpos|Hpos].
  - exfalso. destruct (Hopen Hpos) as (front & row & _ & ->).
    unfold sold, _sell in Hnone. rewrite (proj2 (Z.leb_gt _ _) Hpos) in Hnone.
    cbn [snd trades] in Hnone. apply Forall_app in Hnone.
    destruct Hnone as (_ & Hlast). inversion Hlast as [|? ? Hne _]; subst.
    apply Hne. reflexivity.
  - rewrite (Hflat Hpos).
    destruct (run_loop_last_point strategy
                (generate_signals strategy (row0 :: rest0)) (row0 :: rest0)
                0 (reset bt) s1 row0)
      as (front & Hlast); [discriminate | exact Hrun |].
    rewrite Hlast. unfold to_series. rewrite map_app. cbn [map fst snd].
    eexists. eexists. eexists. split; [reflexivity|].
    pose proof (position_inv_loop strategy (generate_signals strategy (row0 :: rest0))
                  (row0 :: rest0) 0 (reset bt) (position_inv_reset bt)) as Hinv.
    rewrite Hrun in Hinv. destruct Hinv as (H0 & _). cbn [snd] in H0.
    assert (Hz : position s1 = 0%Z) by lia.
    rewrite Hz. ring.
Qed.

End Solvency.

(* ================================================================= *)
(** ** The length of the drawdown *)

Lemma change_groups_from_length (l : list bool) : forall prev acc,
  length (change_groups_from prev acc l) = length l.
Proof.
  induction l as [|b l IH]; intros prev acc; [reflexivity|].
  cbn [change_groups_from length]. rewrite IH. reflexivity.
Qed.

Lemma change_groups_length (l : list bool) :
  length (change_groups l) = length l.
Proof.
  destruct l as [|b l]; [reflexivity|].
  cbn [change_groups length]. rewrite change_groups_from_length. reflexivity.
Qed.

Lemma mask_select_length {A : Type} (l : list A) : forall mask,
  length l = length mask ->
  length (mask_select l mask) = length (filter (fun b => b) mask).
Proof.
  induction l as [|x l IH]; intros [|b mask] H; try discriminate; [reflexivity|].
  cbn [mask_select filter]. injection H as H.
  destruct b; cbn [length]; rewrite (IH mask H); reflexivity.
Qed.

Lemma count_occ_le_length (l : list Z) (x : Z) :
  (count_occ Z.eq_dec l x <= length l)%nat.
Proof.
  induction l as [|y l IH]; [apply Nat.le_refl|].
  cbn [count_occ length]. destruct (Z.eq_dec y x); lia.
Qed.

Lemma fold_count_bounds (l : list Z) : forall (l' : list Z) (m : Z),
  let r :=
    fold_left (fun m x => Z.max m (Z.of_nat (count_occ Z.eq_dec l x))) l' m in
  (m <= r)%Z /\
  (r <= Z.max m (Z.of_nat (length l)))%Z /\
  (forall x, In x l' -> (Z.of_nat (count_occ Z.eq_dec l x) <= r)%Z).
Proof.
  induction l' as [|y l' IH]; intros m r.
  - cbn in r. subst r. repeat split; [lia | lia | intros x []].
  - cbn [fold_left] in r.
    destruct (IH (Z.max m (Z.of_nat (count_occ Z.eq_dec l y))))
      as (H1 & H2 & H3).
    fold r in H1, H2, H3.
    pose proof (count_occ_le_length l y) as Hle.
    repeat split; [lia | lia |].
    intros x [<- | Hin]; [lia | apply H3, Hin].
Qed.

(** On a non-empty series the largest group has at least one member and
    at most all of them. *)
Lemma value_counts_max_bounds (l : list Z) :
  l <> [] ->
  (1 <= value_counts_max l <= Z.of_nat (length l))%Z.
Proof.
  intros Hne. unfold value_counts_max.
  destruct (fold_count_bounds l l 0%Z) as (_ & Hhi & Hin).
  destruct l as [|x l']; [congruence|].
  specialize (Hin x (or_introl eq_refl)).
  assert (Hc : (1 <= count_occ Z.eq_dec (x :: l') x)%nat).
  { cbn [count_occ]. destruct (Z.eq_dec x x); [lia | congruence]. }
  split; lia.
Qed.

Lemma fold_min_le (qs : list Q) : forall q,
  exists v,
    fold_left (fun m y => if xltb y m then y else m) (map Fin qs) (Fin q)
      = Fin v /\
    v <= q /\ Forall (fun x => v <= x) qs.
Proof.
  induction qs as [|x qs IH]; intros q.
  - exists q. repeat split; [apply Qle_refl | constructor].
  - cbn [map fold_left xltb].
    destruct (Qltb x q) eqn:E.
    + destruct (IH x) as (v & Hv & Hle & Hall).
      exists v. split; [exact Hv|].
      unfold Qltb in E. apply negb_true_iff in E.
      assert (Hxq : ~ q <= x)
        by (intros H; apply Qle_bool_iff in H; congruence).
      split; [lra|]. constructor; assumption.
    + destruct (IH q) as (v & Hv & Hle & Hall).
      exists v. split; [exact Hv|]. split; [exact Hle|].
      apply Qltb_false_le in E. constructor; [lra | exact Hall].
Qed.

(** The minimum of a non-empty series of finite values is below all of
    them. *)
Lemma series_min_le (qs : list Q) :
  qs <> [] ->
  exists v, series_min (map Fin qs) = Fin v /\ Forall (fun x => v <= x) qs.
Proof.
  intros Hne. unfold series_min. rewrite dropna_no_nan.
  - destruct qs as [|q qs]; [congruence|]. cbn [map].
    destruct (fold_min_le qs q) as (v & Hv & Hle & Hall).
    exists v. split; [exact Hv|]. constructor; assumption.
  - apply Forall_forall. intros x Hx. apply in_map_iff in Hx.
    destruct Hx as (q & <- & _). reflexivity.
Qed.

(** The drawdowns of a curve of positive values, as rationals: the first
    is zero and all lie above -1 and at most at 0. *)
Lemma drawdowns_as_rationals (qs : list Q) :
  qs <> [] ->
  Forall (fun q => 0 < q) qs ->
  exists d0 ds,
    map drawdown_of (combine (map Fin qs) (expanding_max (map Fin qs)))
      = map Fin (d0 :: ds) /\
    length (d0 :: ds) = length qs /\
    d0 == 0 /\
    Forall (fun d => -1 < d /\ d <= 0) (d0 :: ds).
Proof.
  intros Hne Hpos.
  pose proof (drawdowns_ok qs Hpos) as Hok.
  assert (Hlen : length (map drawdown_of
                           (combine (map Fin qs) (expanding_max (map Fin qs))))
                 = length qs).
  { rewrite length_map, length_combine, length_map.
    unfold expanding_max.
    assert (H : forall l cur, length (expanding_max_from cur l) = length l).
    { induction l as [|x l IH]; intros cur; [reflexivity|].
      cbn [expanding_max_from length]. rewrite IH. reflexivity. }
    rewrite H, length_map. apply Nat.min_id. }
  assert (Hall : forall l, Forall drawdown_ok l ->
             exists ds, l = map Fin ds /\
                        Forall (fun d => -1 < d /\ d <= 0) ds).
  { induction 1 as [|x l (v & -> & Hv) _ (ds & -> & Hds)].
    - exists []. split; [reflexivity | constructor].
    - exists (v :: ds). split; [reflexivity|]. constructor; assumption. }
  destruct (Hall _ Hok) as (ds & Heq & Hds).
  destruct qs as [|x qs]; [congruence|].
  inversion Hpos as [|? ? Hx _]; subst.
  destruct ds as [|d0 ds].
  { rewrite Heq in Hlen. discriminate. }
  exists d0, ds. split; [exact Heq|].
  split; [rewrite Heq, length_map in Hlen; exact Hlen|].
  split; [|exact Hds].
  unfold expanding_max in Heq.
  cbn [map expanding_max_from is_nan combine] in Heq.
  injection Heq as Hd0 _.
  pose proof (drawdown_of_equal x x Hx (Qeq_refl x)) as Hz.
  rewrite Hd0 in Hz. exact Hz.
Qed.

Lemma underwater_fin (ds : list Q) :
  map (fun d => xltb d (Fin 0)) (map Fin ds) = map (fun d => Qltb d 0) ds.
Proof. rewrite map_map. reflexivity. Qed.

Lemma existsb_true_filter (l : list bool) :
  existsb (fun b => b) l = true -> filter (fun b => b) l <> [].
Proof.
  induction l as [|b l IH]; [discriminate|].
  cbn [existsb filter]. destruct b; [discriminate | exact IH].
Qed.

(** X26. The two results of [max_drawdown] agree with each other.  On a
    non-empty curve of positive values the duration is zero exactly when
    the maximum drawdown is zero; otherwise it counts at least one bar, and
    never more than all bars but the first. *)
Theorem drawdown_duration_matches_depth (curve : Series) (qs : list Q) :
  curve <> [] ->
  values curve = map Fin qs ->
  Forall (fun q => 0 < q) qs ->
  let depth := fst (max_drawdown curve) in
  let duration := snd (max_drawdown curve) in
  (0 <= duration <= Z.of_nat (length curve) - 1)%Z /\
  (duration = 0%Z <-> fin_zero depth).
Proof.
  intros Hne Hvals Hpos depth duration.
  assert (Hqne : qs <> []).
  { intros ->. destruct curve; [congruence | discriminate]. }
  assert (Hlenq : length qs = length curve).
  { rewrite <- (length_map Fin), <- Hvals. apply length_map. }
  destruct (drawdowns_as_rationals qs Hqne Hpos)
    as (d0 & ds & Hdd & Hlen & Hd0 & Hbounds).
  destruct (series_min_le (d0 :: ds)) as (v & Hmin & Hbelow); [discriminate|].
  assert (Hvle : v <= 0).
  { inversion Hbelow; subst. lra. }
  assert (Hdepth : depth = Fin (v * 100)).
  { unfold depth, max_drawdown. cbn [fst]. rewrite Hvals.
    fold drawdown_of. rewrite Hdd, Hmin. reflexivity. }
  assert (Hdur : duration =
            let underwater := map (fun d => Qltb d 0) (d0 :: ds) in
            if existsb (fun b => b) underwater then
              let groups := mask_select (change_groups underwater) underwater in
              if (0 <? length groups)%nat then value_counts_max groups
              else 0%Z
            else 0%Z).
  { unfold duration, max_drawdown. cbn [snd]. rewrite Hvals.
    fold drawdown_of. rewrite Hdd, underwater_fin. reflexivity. }
  cbv zeta in Hdur.
  set (underwater := map (fun d => Qltb d 0) (d0 :: ds)) in *.
  assert (Hfirst : (length (filter (fun b => b) underwater) <= length ds)%nat).
  { unfold underwater. cbn [map filter].
    assert (H0 : Qltb d0 0 = false).
    { unfold Qltb. apply negb_false_iff, Qle_bool_iff. lra. }
    rewrite H0.
    pose proof (filter_length_le (fun b => b) (map (fun d => Qltb d 0) ds)) as H.
    rewrite length_map in H. exact H. }
  cbn [length] in Hlen.
  destruct (existsb (fun b => b) underwater) eqn:Hany.
  - (* some bar is under water *)
    pose proof (existsb_true_filter _ Hany) as Hsome.
    assert (Hglen : length (mask_select (change_groups underwater) underwater)
                    = length (filter (fun b => b) underwater))
      by (apply mask_select_length, change_groups_length).
    set (groups := mask_select (change_groups underwater) underwater) in *.
    assert (Hgne : groups <> []).
    { intros Hnil. rewrite Hnil in Hglen.
      destruct (filter (fun b => b) underwater);
        [congruence | cbn [length] in Hglen; discriminate Hglen]. }
    assert (Hpos' : (0 <? length groups)%nat = true).
    { apply Nat.ltb_lt. destruct groups; [congruence | cbn; lia]. }
    rewrite Hpos' in Hdur.
    destruct (value_counts_max_bounds groups Hgne) as (Hlo & Hhi).
    rewrite <- Hdur in Hlo, Hhi.
    split; [lia|].
    split; [lia|].
    intros Hzero. exfalso.
    rewrite Hdepth in Hzero. unfold fin_zero, xequiv in Hzero.
    assert (Hv0 : v == 0) by lra.
    apply existsb_exists in Hany. destruct Hany as (b & Hin & Hb). subst b.
    unfold underwater in Hin. apply in_map_iff in Hin.
    destruct Hin as (d & Hd & Hind).
    rewrite Forall_forall in Hbelow. specialize (Hbelow d Hind).
    unfold Qltb in Hd. apply negb_true_iff in Hd.
    assert (H0d : Qle_bool 0 d = true) by (apply Qle_bool_iff; lra).
    congruence.
  - (* no bar is under water *)
    split; [lia|]. split; [|intros _; exact Hdur].
    intros _. rewrite Hdepth. unfold fin_zero, xequiv.
    assert (Hin : In (Fin v) (map Fin (d0 :: ds))).
    { rewrite <- Hmin. apply series_min_in; [discriminate|].
      apply Forall_forall. intros x Hx. apply in_map_iff in Hx.
      destruct Hx as (q & <- & _). reflexivity. }
    apply in_map_iff in Hin. destruct Hin as (d & Hdv & Hind).
    injection Hdv as ->.
    assert (Hnot : Qltb v 0 = false).
    { destruct (Qltb v 0) eqn:E; [|reflexivity].
      assert (Hex : existsb (fun b => b) underwater = true).
      { apply existsb_exists. exists true. split; [|reflexivity].
        unfold underwater. apply in_map_iff. exists v. split; assumption. }
      congruence. }
    apply Qltb_false_le in Hnot. lra.
Qed.

(* ================================================================= *)
(** * The RSI strategy

    [indicators.rsi] and [SimpleRSIStrategy.generate_signals], the signal
    generator that [Backtester.run] calls in step 1.  Prices are rationals,
    so the price column holds no NaN. *)

(** [Series.diff()]: the change from the previous row; the first row has
    none. *)
Fixpoint diff_from (prev : Q) (l : list Q) : list (option Q) :=
  match l with
  | [] => []
  | x :: rest => Some (x - prev) :: diff_from x rest
  end.

Definition diff (l : list Q) : list (option Q) :=
  match l with
  | [] => []
  | x :: rest => None :: diff_from x rest
  end.

(** [delta.where(cond, 0)]: the change where the condition holds, 0
    elsewhere; a comparison with the missing first change is false. *)
Definition where_or_zero (cond : Q -> bool) (d : option Q) : Q :=
  match d with
  | Some q => if cond q then q else 0
  | None => 0
  end.

(** [Series.ewm(com=com, min_periods=min_periods).mean()] with the default
    [adjust=True], on a series without NaN: the average of the values so
    far, the value [i] rows back weighted by [(1 - alpha)^i], where
    [alpha = 1 / (1 + com)]; NaN until [min_periods] values were seen.
    [num] and [den] are the weighted sum and the sum of the weights. *)
Fixpoint ewm_from (decay : Q) (min_periods : nat) (num den : Q) (count : nat)
  (xs : list Q) : list xfloat :=
  match xs with
  | [] => []
  | x :: rest =>
      let num' := x + decay * num in
      let den' := 1 + decay * den in
      let count' := S count in
      (if (min_periods <=? count')%nat then Fin (num' / den') else NaN)
        :: ewm_from decay min_periods num' den' count' rest
  end.

Definition ewm_mean (com : Q) (min_periods : nat) (xs : list Q) : list xfloat :=
  let alpha := 1 / (1 + com) in
  ewm_from (1 - alpha) min_periods 0 0 0 xs.

(** The [1e-10] that keeps the division of [rsi] away from zero. *)
Definition rsi_epsilon : Q := 1 # 10000000000.

(** [rsi], for a period of at least 1 (pandas rejects the negative [com] of
    a period of 0). *)
Definition rsi (prices : list Q) (period : nat) : list xfloat :=
  let delta := diff prices in
  let gains := map (where_or_zero (fun d => Qltb 0 d)) delta in
  let losses := map (fun d => - where_or_zero (fun d => Qltb d 0) d) delta in
  let com := inject_Z (Z.of_nat period) - 1 in
  let avg_gain := ewm_mean com period gains in
  let avg_loss := ewm_mean com period losses in
  map (fun p =>
         let rs := xdiv (fst p) (xadd (snd p) (Fin rsi_epsilon)) in
         xsub (Fin 100) (xdiv (Fin 100) (xadd (Fin 1) rs)))
      (combine avg_gain avg_loss).

(** [SimpleRSIStrategy.generate_signals]: 0 everywhere, then 1 where the
    RSI is below the buy threshold, then -1 where it is above the sell
    threshold. *)
Definition simple_rsi_signal (buy_threshold sell_threshold : Q) (r : xfloat)
  : Z :=
  if xltb (Fin sell_threshold) r then SELL
  else if xltb r (Fin buy_threshold) then BUY
  else HOLD.

Definition simple_rsi_signals (buy_threshold sell_threshold : Q)
  (rsi_period : nat) (data : DataFrame) : list Z :=
  map (simple_rsi_signal buy_threshold sell_threshold)
      (rsi (map close data) rsi_period).

(** [SimpleRSIStrategy]: it keeps the stop-loss defaults of [Strategy]. *)
Definition SimpleRSIStrategy (buy_threshold sell_threshold : Q)
  (rsi_period : nat) : Strategy :=
  {| generate_signals :=
       simple_rsi_signals buy_threshold sell_threshold rsi_period;
     should_use_stop_loss := false;
     stop_loss_pct := 8 # 100 |}.

(** ** Warm-up *)

(** A series that is NaN until [min_periods] rows were seen and holds
    finite values with property [P] from then on; [count] rows came
    before. *)
Fixpoint after_warmup (P : Q -> Prop) (min_periods count : nat)
  (l : list xfloat) : Prop :=
  match l with
  | [] => True
  | y :: rest =>
      (if (min_periods <=? S count)%nat then exists v, y = Fin v /\ P v
       else y = NaN) /\
      after_warmup P min_periods (S count) rest
  end.

Lemma after_warmup_nth (P : Q -> Prop) (min_periods : nat) (l : list xfloat) :
  forall count i y,
    after_warmup P min_periods count l ->
    nth_error l i = Some y ->
    if (min_periods <=? count + S i)%nat then exists v, y = Fin v /\ P v
    else y = NaN.
Proof.
  induction l as [|x l IH]; intros count i y H Hn.
  - destruct i; discriminate.
  - destruct H as (Hx & Hrest). destruct i as [|i].
    + cbn in Hn. injection Hn as <-.
      replace (count + 1)%nat with (S count) by lia. exact Hx.
    + cbn in Hn. specialize (IH (S count) i y Hrest Hn).
      replace (count + S (S i))%nat with (S count + S i)%nat by lia.
      exact IH.
Qed.

Lemma after_warmup_map2 (P Q' R : Q -> Prop) (f : xfloat * xfloat -> xfloat)
  (min_periods : nat) :
  (forall u v, P u -> Q' v -> exists w, f (Fin u, Fin v) = Fin w /\ R w) ->
  f (NaN, NaN) = NaN ->
  forall a b count,
    after_warmup P min_periods count a ->
    after_warmup Q' min_periods count b ->
    after_warmup R min_periods count (map f (combine a b)).
Proof.
  intros Hfin Hnan. induction a as [|x a IH]; intros b count Ha Hb; [exact I|].
  destruct b as [|y b]; [exact I|].
  destruct Ha as (Hx & Ha). destruct Hb as (Hy & Hb).
  cbn [combine map after_warmup]. split; [|apply IH; assumption].
  destruct (min_periods <=? S count)%nat.
  - destruct Hx as (u & -> & Hu). destruct Hy as (v & -> & Hv).
    apply Hfin; assumption.
  - rewrite Hx, Hy. exact Hnan.
Qed.

Lemma ewm_from_length decay minp xs : forall num den count,
  length (ewm_from decay minp num den count xs) = length xs.
Proof.
  induction xs as [|x xs IH]; intros num den count; [reflexivity|].
  cbn [ewm_from length]. rewrite IH. reflexivity.
Qed.

(** The average of values that are not negative is not negative. *)
Lemma ewm_from_nonneg decay minp xs : forall num den count,
  0 <= decay -> 0 <= num -> 0 <= den ->
  Forall (fun x => 0 <= x) xs ->
  after_warmup (fun v => 0 <= v) minp count
               (ewm_from decay minp num den count xs).
Proof.
  induction xs as [|x xs IH]; intros num den count Hd Hn Hden Hall; [exact I|].
  inversion Hall as [|? ? Hx Hrest]; subst.
  assert (Hn' : 0 <= x + decay * num).
  { pose proof (Qmult_le_0_compat _ _ Hd Hn). lra. }
  assert (Hden' : 1 <= 1 + decay * den).
  { pose proof (Qmult_le_0_compat _ _ Hd Hden). lra. }
  cbn [ewm_from after_warmup]. split.
  - destruct (minp <=? S count)%nat; [|reflexivity].
    eexists. split; [reflexivity|].
    apply Qle_shift_div_l; lra.
  - apply IH; try assumption. lra.
Qed.

(** The average of zeros is zero. *)
Lemma ewm_from_zero decay minp xs : forall num den count,
  0 <= decay -> num == 0 -> 0 <= den ->
  Forall (fun x => x == 0) xs ->
  after_warmup (fun v => v == 0) minp count
               (ewm_from decay minp num den count xs).
Proof.
  induction xs as [|x xs IH]; intros num den count Hd Hn Hden Hall; [exact I|].
  inversion Hall as [|? ? Hx Hrest]; subst.
  assert (Hn' : x + decay * num == 0) by (rewrite Hx, Hn; ring).
  assert (Hden' : 1 <= 1 + decay * den).
  { pose proof (Qmult_le_0_compat _ _ Hd Hden). lra. }
  cbn [ewm_from after_warmup]. split.
  - destruct (minp <=? S count)%nat; [|reflexivity].
    eexists. split; [reflexivity|].
    rewrite Hn'. field. lra.
  - apply IH; try assumption. lra.
Qed.

Lemma diff_from_length l : forall prev, length (diff_from prev l) = length l.
Proof.
  induction l as [|x l IH]; intros prev; [reflexivity|].
  cbn [diff_from length]. rewrite IH. reflexivity.
Qed.

Lemma diff_length l : length (diff l) = length l.
Proof.
  destruct l as [|x l]; [reflexivity|].
  cbn [diff length]. rewrite diff_from_length. reflexivity.
Qed.

Lemma rsi_length prices period : length (rsi prices period) = length prices.
Proof.
  unfold rsi, ewm_mean.
  rewrite length_map, length_combine, !ewm_from_length, !length_map.
  rewrite diff_length. apply Nat.min_id.
Qed.

Lemma gains_nonneg (delta : list (option Q)) :
  Forall (fun x => 0 <= x) (map (where_or_zero (fun d => Qltb 0 d)) delta).
Proof.
  apply Forall_forall. intros x Hx. apply in_map_iff in Hx.
  destruct Hx as ([q|] & <- & _); cbn [where_or_zero]; [|apply Qle_refl].
  unfold Qltb. destruct (Qle_bool q 0) eqn:E; cbn [negb]; [apply Qle_refl|].
  destruct (Qlt_le_dec q 0) as [H|H]; [|exact H].
  exfalso. assert (Hle : Qle_bool q 0 = true) by (apply Qle_bool_iff; lra).
  congruence.
Qed.

Lemma losses_nonneg (delta : list (option Q)) :
  Forall (fun x => 0 <= x)
         (map (fun d => - where_or_zero (fun d => Qltb d 0) d) delta).
Proof.
  apply Forall_forall. intros x Hx. apply in_map_iff in Hx.
  destruct Hx as ([q|] & <- & _); cbn [where_or_zero]; [|discriminate].
  destruct (Qltb q 0) eqn:E; [|discriminate].
  unfold Qltb in E. apply negb_true_iff in E.
  destruct (Qlt_le_dec 0 q) as [H|H]; [|lra].
  exfalso. assert (Hle : Qle_bool 0 q = true) by (apply Qle_bool_iff; lra).
  congruence.
Qed.

Lemma rsi_decay_nonneg (period : nat) :
  (1 <= period)%nat ->
  0 <= 1 - 1 / (1 + (inject_Z (Z.of_nat period) - 1)).
Proof.
  intros H.
  assert (Hp : 1 <= inject_Z (Z.of_nat period)).
  { change 1 with (inject_Z 1). rewrite <- Zle_Qle. lia. }
  set (n := inject_Z (Z.of_nat period)) in *. clearbody n.
  assert (E : 1 - 1 / (1 + (n - 1)) == (n - 1) / n) by (field; lra).
  rewrite E. apply Qle_shift_div_l; lra.
Qed.

(** One RSI value from two averages that are not negative. *)
Lemma rsi_value_range (u v : Q) :
  0 <= u -> 0 <= v ->
  exists w,
    (let rs := xdiv (Fin u) (xadd (Fin v) (Fin rsi_epsilon)) in
     xsub (Fin 100) (xdiv (Fin 100) (xadd (Fin 1) rs))) = Fin w /\
    0 <= w /\ w <= 100 /\
    w == 100 - 100 / (1 + u / (v + rsi_epsilon)).
Proof.
  intros Hu Hv. cbv zeta. cbn [xadd].
  assert (Heps : 0 < rsi_epsilon) by reflexivity.
  assert (Hd : ~ v + rsi_epsilon == 0) by lra.
  rewrite (xdiv_fin _ _ Hd). cbn [xadd].
  assert (Hrs : 0 <= u / (v + rsi_epsilon)).
  { apply Qle_shift_div_l; lra. }
  set (rs := u / (v + rsi_epsilon)) in *. clearbody rs.
  assert (Hd1 : ~ 1 + rs == 0) by lra.
  rewrite (xdiv_fin _ _ Hd1). cbn [xsub].
  eexists. split; [reflexivity|].
  assert (H1 : 0 <= 100 / (1 + rs)) by (apply Qle_shift_div_l; lra).
  assert (H2 : 100 / (1 + rs) <= 100) by (apply Qle_shift_div_r; lra).
  repeat split; lra.
Qed.

Lemma rsi_after_warmup (prices : list Q) (period : nat) :
  (1 <= period)%nat ->
  after_warmup (fun w => 0 <= w /\ w <= 100) period 0 (rsi prices period).
Proof.
  intros Hp. unfold rsi, ewm_mean.
  apply (after_warmup_map2 (fun v => 0 <= v) (fun v => 0 <= v)).
  - intros u v Hu Hv. destruct (rsi_value_range u v Hu Hv) as (w & Hw & H0 & H1 & _).
    exists w. split; [exact Hw|]. split; assumption.
  - reflexivity.
  - apply ewm_from_nonneg;
      [apply rsi_decay_nonneg, Hp | apply Qle_refl | apply Qle_refl
       | apply gains_nonneg].
  - apply ewm_from_nonneg;
      [apply rsi_decay_nonneg, Hp | apply Qle_refl | apply Qle_refl
       | apply losses_nonneg].
Qed.

Lemma rsi_values_by_index (prices : list Q) (period : nat) :
  (1 <= period)%nat ->
  forall i y,
    nth_error (rsi prices period) i = Some y ->
    ((i + 1 < period)%nat -> y = NaN) /\
    ((period <= i + 1)%nat -> exists v, y = Fin v /\ 0 <= v /\ v <= 100).
Proof.
  intros Hp i y Hn.
  pose proof (after_warmup_nth _ _ _ 0 i y (rsi_after_warmup prices period Hp) Hn)
    as H.
  cbn [Nat.add] in H.
  destruct (period <=? S i)%nat eqn:E.
  - apply Nat.leb_le in E. split; [lia|]. intros _. exact H.
  - apply Nat.leb_gt in E. split; [intros _; exact H | lia].
Qed.

(** X27. The RSI is a number from 0 to 100 after its warm-up: for a period
    of at least 1, [rsi] returns one value per price; the first
    [period - 1] values are NaN, and every later value is finite and lies
    between 0 and 100. *)
Theorem rsi_is_between_0_and_100 (prices : list Q) (period : nat) :
  (1 <= period)%nat ->
  length (rsi prices period) = length prices /\
  forall i y,
    nth_error (rsi prices period) i = Some y ->
    ((i + 1 < period)%nat -> y = NaN) /\
    ((period <= i + 1)%nat -> exists v, y = Fin v /\ 0 <= v /\ v <= 100).
Proof.
  intros Hp. split; [apply rsi_length|].
  apply rsi_values_by_index, Hp.
Qed.

Lemma simple_rsi_signals_length buy sell period data :
  length (simple_rsi_signals buy sell period data) = length data.
Proof.
  unfold simple_rsi_signals. rewrite length_map, rsi_length, length_map.
  reflexivity.
Qed.

Lemma simple_rsi_signal_cases buy sell r :
  simple_rsi_signal buy sell r = BUY \/
  simple_rsi_signal buy sell r = SELL \/
  simple_rsi_signal buy sell r = HOLD.
Proof.
  unfold simple_rsi_signal.
  destruct (xltb (Fin sell) r); [right; left; reflexivity|].
  destruct (xltb r (Fin buy)); [left | right; right]; reflexivity.
Qed.

(** X28. The signals of [SimpleRSIStrategy], for a period of at least 1:
    one signal per bar, each of them 1, -1 or 0; the first
    [rsi_period - 1] are 0 (no RSI yet); a [-1] is only given at an RSI
    above the sell threshold and a [1] only at an RSI below the buy
    threshold and not above the sell threshold. *)
Theorem simple_rsi_signals_are_well_formed
  (buy sell : Q) (period : nat) (data : DataFrame) :
  (1 <= period)%nat ->
  let signals := simple_rsi_signals buy sell period data in
  length signals = length data /\
  Forall (fun sg => sg = BUY \/ sg = SELL \/ sg = HOLD) signals /\
  (forall i, (i + 1 < period)%nat -> (i < length data)%nat ->
             nth_error signals i = Some HOLD) /\
  (forall i sg,
      nth_error signals i = Some sg ->
      exists r,
        nth_error (rsi (map close data) period) i = Some r /\
        (sg = SELL -> xltb (Fin sell) r = true) /\
        (sg = BUY -> xltb r (Fin buy) = true /\ xltb (Fin sell) r = false)).
Proof.
  intros Hp signals. unfold signals.
  split; [apply simple_rsi_signals_length|]. split; [|split].
  - unfold simple_rsi_signals. apply Forall_forall. intros sg Hin.
    apply in_map_iff in Hin. destruct Hin as (r & <- & _).
    apply simple_rsi_signal_cases.
  - intros i Hi Hlen. unfold simple_rsi_signals.
    destruct (nth_error (rsi (map close data) period) i) as [r|] eqn:E.
    + rewrite (map_nth_error _ _ _ E).
      destruct (rsi_values_by_index (map close data) period Hp i r E)
        as (Hnan & _).
      rewrite (Hnan Hi). reflexivity.
    + apply nth_error_None in E. rewrite rsi_length, length_map in E. lia.
  - intros i sg Hn. unfold simple_rsi_signals in Hn.
    rewrite nth_error_map in Hn.
    destruct (nth_error (rsi (map close data) period) i) as [r|];
      [|discriminate].
    cbn in Hn. injection Hn as <-. exists r. split; [reflexivity|].
    unfold simple_rsi_signal.
    destruct (xltb (Fin sell) r); [split; [reflexivity | discriminate]|].
    destruct (xltb r (Fin buy)); split; try discriminate.
    intros _. split; reflexivity.
Qed.

(** ** Flat prices *)

Definition no_change (d : option Q) : Prop :=
  match d with
  | Some q => q == 0
  | None => True
  end.

Lemma diff_from_flat (c : Q) (l : list Q) : forall prev,
  prev == c -> Forall (fun x => x == c) l ->
  Forall no_change (diff_from prev l).
Proof.
  induction l as [|x l IH]; intros prev Hprev Hall; [constructor|].
  inversion Hall as [|? ? Hx Hrest]; subst.
  cbn [diff_from]. constructor.
  - cbn. rewrite Hx, Hprev. ring.
  - apply IH; assumption.
Qed.

Lemma diff_flat (c : Q) (l : list Q) :
  Forall (fun x => x == c) l -> Forall no_change (diff l).
Proof.
  intros Hall. destruct l as [|x l]; [constructor|].
  inversion Hall as [|? ? Hx Hrest]; subst.
  cbn [diff]. constructor; [exact I|].
  apply (diff_from_flat c); assumption.
Qed.

Lemma where_or_zero_no_change (cond : Q -> bool) (d : option Q) :
  no_change d -> where_or_zero cond d == 0.
Proof.
  destruct d as [q|]; cbn; [|reflexivity].
  intros Hq. destruct (cond q); [exact Hq | reflexivity].
Qed.

Lemma rsi_flat (c : Q) (prices : list Q) (period : nat) :
  (1 <= period)%nat ->
  Forall (fun x => x == c) prices ->
  after_warmup (fun w => w == 0) period 0 (rsi prices period).
Proof.
  intros Hp Hall. unfold rsi, ewm_mean.
  pose proof (diff_flat c prices Hall) as Hd.
  apply (after_warmup_map2 (fun v => v == 0) (fun v => v == 0)).
  - intros u v Hu Hv.
    destruct (rsi_value_range u v) as (w & Hw & _ & _ & Heq);
      [rewrite Hu; apply Qle_refl | rewrite Hv; apply Qle_refl |].
    exists w. split; [exact Hw|]. rewrite Heq, Hu, Hv.
    reflexivity.
  - reflexivity.
  - apply ewm_from_zero;
      [apply rsi_decay_nonneg, Hp | reflexivity | apply Qle_refl |].
    rewrite Forall_map. revert Hd. apply Forall_impl.
    intros d. apply where_or_zero_no_change.
  - apply ewm_from_zero;
      [apply rsi_decay_nonneg, Hp | reflexivity | apply Qle_refl |].
    rewrite Forall_map. revert Hd. apply Forall_impl.
    intros d Hd. rewrite (where_or_zero_no_change _ d Hd). reflexivity.
Qed.

(** X29. A flat market reads as oversold: when every close is the same,
    the RSI is 0 from the end of the warm-up on (no gain and no loss give
    a relative strength of 0), so with a positive buy threshold and a sell
    threshold that is not negative, every signal after the warm-up is a
    BUY. *)
Theorem flat_prices_signal_buy
  (buy sell c : Q) (period : nat) (data : DataFrame) :
  (1 <= period)%nat ->
  0 < buy -> 0 <= sell ->
  Forall (fun row => close row == c) data ->
  forall i, (period <= i + 1)%nat -> (i < length data)%nat ->
    (exists w, nth_error (rsi (map close data) period) i = Some (Fin w) /\ w == 0) /\
    nth_error (simple_rsi_signals buy sell period data) i = Some BUY.
Proof.
  intros Hp Hbuy Hsell Hflat i Hi Hlen.
  assert (Hprices : Forall (fun x => x == c) (map close data))
    by (rewrite Forall_map; exact Hflat).
  destruct (nth_error (rsi (map close data) period) i) as [r|] eqn:E;
    [|apply nth_error_None in E; rewrite rsi_length, length_map in E; lia].
  pose proof (after_warmup_nth _ _ _ 0 i r
                (rsi_flat c (map close data) period Hp Hprices) E) as H.
  cbn [Nat.add] in H.
  rewrite (proj2 (Nat.leb_le period (S i))) in H by lia.
  destruct H as (w & -> & Hw).
  split; [exists w; split; [reflexivity | exact Hw]|].
  unfold simple_rsi_signals. rewrite (map_nth_error _ _ _ E).
  unfold simple_rsi_signal. cbn [xltb]. unfold Qltb.
  assert (H1 : Qle_bool w sell = true) by (apply Qle_bool_iff; lra).
  assert (H2 : Qle_bool buy w = false).
  { destruct (Qle_bool buy w) eqn:E2; [|reflexivity].
    apply Qle_bool_iff in E2. lra. }
  rewrite H1, H2. reflexivity.
Qed.

Section RsiRuns.

Variable np_sqrt : Q -> Q.
Variable np_power : xfloat -> Q -> xfloat.

(** X30. A run of [SimpleRSIStrategy] without benchmark over at least one
    bar, none with a zero fill price, always returns a result: the
    strategy gives one signal per bar, so the loop never runs out of
    signals, and no order fails. *)
Theorem simple_rsi_run_returns
  (buy sell : Q) (period : nat) (data : DataFrame) (bt : Backtester) :
  (1 <= period)%nat ->
  data <> [] ->
  Forall (fillable (slippage bt)) data ->
  exists r,
    fst (run np_sqrt np_power (SimpleRSIStrategy buy sell period) data None bt)
      = Ok r /\
    length (BacktestResult.signals r) = length data /\
    length (BacktestResult.equity_curve r) = length data.
Proof.
  intros Hp Hne Hfill.
  set (strategy := SimpleRSIStrategy buy sell period).
  destruct (run_loop_total strategy (generate_signals strategy data) data 0
              (reset bt)) as (s1 & Hrun).
  { cbn [generate_signals strategy SimpleRSIStrategy].
    rewrite simple_rsi_signals_length. cbn. lia. }
  { destruct (reset_fields bt) as (_ & _ & -> & _). exact Hfill. }
  destruct (run_after_loop_curve np_sqrt np_power strategy data None bt s1 Hrun)
    as (s2 & Hout & _ & _ & Hdates & _).
  assert (Hcurve : equity_curve s2 <> []).
  { intros Hnil. rewrite Hnil in Hdates. cbn in Hdates.
    destruct data; [congruence | discriminate]. }
  destruct (report_ok_none np_sqrt np_power strategy data s2 Hcurve) as (r & Hr).
  exists r. rewrite Hout. cbn [fst]. split; [exact Hr|].
  pose proof Hr as Hr'. apply report_inv in Hr'.
  destruct Hr' as (_ & Hc & _).
  split.
  - revert Hr. unfold report_outcome, obind. cbn [benchmark_curve_pure].
    destruct (calculate_metrics np_sqrt np_power _ _ None) as [m|e];
      [|discriminate].
    intros [= <-]. cbn [BacktestResult.signals].
    apply simple_rsi_signals_length.
  - rewrite Hc. unfold to_series. rewrite length_map.
    rewrite <- (length_map fst), Hdates, length_map. reflexivity.
Qed.

End RsiRuns.

(* ================================================================= *)
(** * Instances of the further properties *)

Lemma returned_intro {A : Type} (P : A -> Prop) (o : outcome A) :
  returned (fun _ => True) o -> (forall a, o = Ok a -> P a) -> returned P o.
Proof.
  destruct o as [a|e]; [|intros []]. intros _ H. apply H. reflexivity.
Defined.


Lemma run_trades_are_consistent_witness :
  Forall trade_consistent
    (trades (snd (run_ref two_trades_strategy two_trades_data None held_engine))).
Proof.
  destruct (run_trades_are_consistent np_sqrt_ref np_power_ref
              two_trades_strategy two_trades_data None held_engine)
    as (Hledger & _).
  exact Hledger.
Defined.

Lemma run_exit_reasons_witness :
  Forall (fun t => Trade.exit_reason t <> stop_loss)
    (trades (snd (run_ref two_trades_strategy two_trades_data None held_engine))).
Proof.
  destruct (run_exit_reasons np_sqrt_ref np_power_ref
              two_trades_strategy two_trades_data None held_engine)
    as (Hstop & _).
  exact (Hstop eq_refl).
Defined.




(** A position bought at 100 and carried through a bar that closes at 95,
    under a stop of 8%. *)
Lemma position_kept_is_above_stop_witness :
  let s' := snd (run_bar (fixed_signals [BUY; HOLD] true (8 # 100)) [BUY; HOLD] 1
                   (bar_at (day 1) 95) scenario_b_held) in
  95 <= highest_price s' /\ highest_price s' * (1 - (8 # 100)) < 95.
Proof.
  intros s'.
  destruct (position_kept_is_above_stop
              (fixed_signals [BUY; HOLD] true (8 # 100)) [BUY; HOLD] 1
              (bar_at (day 1) 95) scenario_b_held s') as (Hhigh & Hstop).
  - vm_compute. reflexivity.
  - vm_compute. reflexivity.
  - split; [exact Hhigh|]. apply Hstop; [vm_compute|]; reflexivity.
Defined.

(** A SELL while no shares are held. *)
Lemma unusable_signal_acts_as_hold_witness :
  run_bar hold_strategy [SELL] 0 (bar_at (day 0) 100) held_engine
  = run_bar hold_strategy [HOLD] 0 (bar_at (day 0) 100) held_engine.
Proof.
  apply (unusable_signal_acts_as_hold hold_strategy [SELL] [HOLD] 0
           (bar_at (day 0) 100) held_engine SELL).
  - reflexivity.
  - reflexivity.
  - left. discriminate.
  - right. cbn. lia.
Defined.

(** Two signals beyond the last of two bars. *)
Lemma run_reads_one_signal_per_bar_witness :
  snd (run_ref held_strategy held_data None held_engine)
  = snd (run_ref (fixed_signals [BUY; HOLD; SELL; BUY] false (8 # 100))
           held_data None held_engine).
Proof.
  apply (run_reads_one_signal_per_bar np_sqrt_ref np_power_ref held_strategy
           (fixed_signals [BUY; HOLD; SELL; BUY] false (8 # 100))
           held_data None held_engine); reflexivity.
Defined.

Lemma returned_result_describes_its_input_witness :
  returned
    (fun r =>
       index (BacktestResult.equity_curve r) = map timestamp held_data /\
       BacktestMetrics.trading_days (BacktestResult.metrics r) = 2%nat /\
       BacktestMetrics.total_trades (BacktestResult.metrics r)
         = length (BacktestResult.trades r))
    (fst (run_ref held_strategy held_data None held_engine)).
Proof.
  apply returned_intro; [vm_compute; exact I|].
  intros r Hr.
  destruct (returned_result_describes_its_input np_sqrt_ref np_power_ref
              held_strategy held_data None held_engine r Hr)
    as (Hidx & Hdays & Htrades & _).
  repeat split; assumption.
Defined.

(** ** Curves *)

Definition dipping_curve : Series :=
  [(day 0, Fin 100); (day 1, Fin 80); (day 2, Fin 90)].

Lemma max_drawdown_is_a_loss_witness :
  exists v, fst (max_drawdown dipping_curve) = Fin v /\ -100 < v /\ v <= 0.
Proof.
  apply (max_drawdown_is_a_loss dipping_curve [100; 80; 90]).
  - discriminate.
  - reflexivity.
  - repeat constructor.
Defined.

Definition rising_curve : Series :=
  [(day 0, Fin 100); (day 1, Fin 100); (day 2, Fin 120)].

Lemma rising_curve_has_no_drawdown_witness :
  snd (max_drawdown rising_curve) = 0%Z /\
  calmar_ratio np_power_ref rising_curve = Ok (Fin 0).
Proof.
  destruct (rising_curve_has_no_drawdown np_power_ref rising_curve
              [100; 100; 120]) as (_ & Hdur & Hcalmar).
  - discriminate.
  - reflexivity.
  - repeat constructor.
  - repeat constructor; vm_compute; discriminate.
  - split; assumption.
Defined.

Lemma drawdown_duration_matches_depth_witness :
  (0 <= snd (max_drawdown dipping_curve) <= 2)%Z /\
  (snd (max_drawdown dipping_curve) = 0%Z
   <-> fin_zero (fst (max_drawdown dipping_curve))).
Proof.
  assert (Hne : dipping_curve <> []) by discriminate.
  assert (Hvals : values dipping_curve = map Fin [100; 80; 90]) by reflexivity.
  assert (Hpos : Forall (fun q => 0 < q) [100; 80; 90]) by (repeat constructor).
  pose proof (drawdown_duration_matches_depth dipping_curve [100; 80; 90]
                Hne Hvals Hpos) as H.
  cbv zeta in H. destruct H as (Hbounds & Hiff).
  split; [exact Hbounds | exact Hiff].
Defined.


Lemma trades_are_entered_before_they_exit_witness :
  returned (fun r => Forall trade_dated (BacktestResult.trades r))
    (fst (run_ref two_trades_strategy two_trades_data None held_engine)).
Proof.
  apply returned_intro; [vm_compute; exact I|].
  intros r Hr.
  apply (trades_are_entered_before_they_exit np_sqrt_ref np_power_ref
           two_trades_strategy two_trades_data None held_engine r
           two_trades_chronological Hr).
Defined.

(** ** Ledgers *)

(** A trade of one share entered at 100 with the given percentage result. *)
Definition trade_with_pct (pct : Q) : Trade.t :=
  {| Trade.entry_date := Some (day 0);
     Trade.exit_date := day 1;
     Trade.entry_price := 100;
     Trade.exit_price := 100 + pct;
     Trade.shares := 1;
     Trade.pnl := pct;
     Trade.pnl_pct := Fin pct;
     Trade.exit_reason := signal_exit |}.

Lemma win_rate_is_a_percentage_witness :
  exists q,
    TradeStats.win_rate
      (analyze_trades [trade_with_pct 10; trade_with_pct (-5)]) = Fin q /\
    0 <= q /\ q <= 100.
Proof.
  destruct (win_rate_is_a_percentage [trade_with_pct 10; trade_with_pct (-5)])
    as (_ & q & Hq & H0 & H100 & _).
  - discriminate.
  - exists q. repeat split; assumption.
Defined.


Lemma profit_factor_without_winners_witness :
  fin_zero (TradeStats.profit_factor
              (analyze_trades [trade_with_pct (-10); trade_with_pct 0])).
Proof.
  apply (profit_factor_without_winners
           [trade_with_pct (-10); trade_with_pct 0] [-10; 0]).
  - discriminate.
  - reflexivity.
  - repeat constructor; vm_compute; discriminate.
Defined.

(** ** Runs *)

(** Two bars with the same timestamp. *)
Lemma short_run_has_no_annual_return_witness :
  returned
    (fun r => BacktestMetrics.annual_return (BacktestResult.metrics r) = Fin 0)
    (fst (run_ref held_strategy duplicate_dates_data None held_engine)).
Proof.
  apply returned_intro; [vm_compute; exact I|].
  intros r Hr.
  apply (short_run_has_no_annual_return np_sqrt_ref np_power_ref held_strategy
           duplicate_dates_data None held_engine r
           (bar_at (day 0) 100) [bar_at (day 0) 105] Hr).
  - reflexivity.
  - vm_compute. reflexivity.
Defined.

Definition later_benchmark : DataFrame :=
  [bar_at (day 10) 50; bar_at (day 11) 51].

Lemma benchmark_outside_the_data_fails_witness :
  fst (run_ref hold_strategy hold_data (Some later_benchmark)
         (Backtester_init 10000 0 (1 # 1000)))
  = Raise IndexError.
Proof.
  destruct (benchmark_outside_the_data_fails np_sqrt_ref np_power_ref
              hold_strategy (bar_at (day 0) 100)
              [bar_at (day 1) 90; bar_at (day 2) 120] later_benchmark
              (Backtester_init 10000 0 (1 # 1000))) as (_ & Hfail).
  - unfold chronological. cbn [map later_benchmark timestamp bar_at].
    repeat constructor; vm_compute; discriminate.
  - repeat constructor.
  - apply (Hfail (snd (run_loop hold_strategy [HOLD; HOLD; HOLD] 0 hold_data
                         (reset (Backtester_init 10000 0 (1 # 1000)))))).
    vm_compute. reflexivity.
Defined.

Lemma sortino_is_sharpe_when_every_return_is_negative_witness :
  sortino_ratio np_sqrt_ref [Fin (- (1 # 100)); Fin (- (2 # 100))]
    default_risk_free_rate
  = sharpe_ratio np_sqrt_ref [Fin (- (1 # 100)); Fin (- (2 # 100))]
      default_risk_free_rate.
Proof.
  apply (sortino_is_sharpe_when_every_return_is_negative np_sqrt_ref).
  - discriminate.
  - repeat constructor.
Defined.

Lemma buy_never_exceeds_position_size_witness :
  exists n,
    position_size (cash held_engine) 100 = Ok n /\
    (position (snd (_buy (day 0) 100 held_engine)) <= n)%Z.
Proof.
  apply (buy_never_exceeds_position_size held_engine
           (snd (_buy (day 0) 100 held_engine)) (day 0) 100).
  - reflexivity.
  - vm_compute. discriminate.
  - vm_compute. discriminate.
  - vm_compute. reflexivity.
  - vm_compute. reflexivity.
  - reflexivity.
Defined.


(** A buy on the first bar. *)
Lemma first_equity_is_at_most_the_initial_cash_witness :
  returned
    (fun r =>
       exists e rest,
         values (BacktestResult.equity_curve r) = Fin e :: rest /\
         e <= initial_cash held_engine)
    (fst (run_ref held_strategy held_data None held_engine)).
Proof.
  apply returned_intro; [vm_compute; exact I|].
  intros r Hr.
  apply (first_equity_is_at_most_the_initial_cash np_sqrt_ref np_power_ref
           held_strategy held_data None held_engine r Hr).
  - vm_compute. discriminate.
  - vm_compute. discriminate.
  - repeat constructor; vm_compute; discriminate.
Defined.

(** A run that sells on its last bar. *)
Lemma final_equity_is_the_cash_left_witness :
  returned
    (fun r =>
       exists front date e,
         BacktestResult.equity_curve r = front ++ [(date, Fin e)] /\
         e == cash (snd (run_ref two_trades_strategy two_trades_data None
                           held_engine)))
    (fst (run_ref two_trades_strategy two_trades_data None held_engine)).
Proof.
  assert (Hr : returned
                 (fun r =>
                    Forall (fun t => Trade.exit_reason t <> end_of_data)
                           (BacktestResult.trades r))
                 (fst (run_ref two_trades_strategy two_trades_data None
                         held_engine))).
  { vm_compute. repeat constructor; discriminate. }
  apply returned_ok in Hr. destruct Hr as (r & Hrun & Hnone).
  rewrite Hrun at 1. cbn [returned].
  apply (final_equity_is_the_cash_left np_sqrt_ref np_power_ref
           two_trades_strategy two_trades_data None held_engine r Hrun Hnone).
Defined.

(** ** The RSI strategy *)

Lemma rsi_is_between_0_and_100_witness :
  exists v,
    nth_error (rsi [100; 101; 99; 102] 2) 2 = Some (Fin v) /\
    0 <= v /\ v <= 100.
Proof.
  destruct (rsi_is_between_0_and_100 [100; 101; 99; 102] 2) as (_ & Hrange);
    [lia|].
  assert (E : exists y, nth_error (rsi [100; 101; 99; 102] 2) 2 = Some y)
    by (vm_compute; eexists; reflexivity).
  destruct E as (y & E).
  destruct (Hrange 2%nat y E) as (_ & Hfin).
  destruct Hfin as (v & Hy & H0 & H1); [lia|].
  exists v. rewrite E, Hy. repeat split; assumption.
Defined.

Lemma simple_rsi_signals_are_well_formed_witness :
  length (simple_rsi_signals 30 70 2 hold_data) = 3%nat /\
  nth_error (simple_rsi_signals 30 70 2 hold_data) 0 = Some HOLD.
Proof.
  assert (Hp : (1 <= 2)%nat) by lia.
  pose proof (simple_rsi_signals_are_well_formed 30 70 2 hold_data Hp) as H.
  cbv zeta in H. destruct H as (Hlen & _ & Hwarm & _).
  split; [exact Hlen|]. apply Hwarm; cbn; lia.
Defined.

Definition flat_data : DataFrame :=
  [bar_at (day 0) 100; bar_at (day 1) 100; bar_at (day 2) 100].

Lemma flat_prices_signal_buy_witness :
  nth_error (simple_rsi_signals 30 70 2 flat_data) 1 = Some BUY.
Proof.
  apply (flat_prices_signal_buy 30 70 100 2 flat_data).
  - lia.
  - reflexivity.
  - discriminate.
  - repeat constructor.
  - lia.
  - cbn. lia.
Defined.

Lemma simple_rsi_run_returns_witness :
  exists r,
    fst (run_ref (SimpleRSIStrategy 30 70 2) hold_data None held_engine) = Ok r /\
    length (BacktestResult.signals r) = length hold_data /\
    length (BacktestResult.equity_curve r) = length hold_data.
Proof.
  apply (simple_rsi_run_returns np_sqrt_ref np_power_ref 30 70 2 hold_data
           held_engine).
  - lia.
  - discriminate.
  - repeat constructor; intros Hz; vm_compute in Hz; discriminate Hz.
Defined.
